(** * systemd-network-generator-hcloud: a shallow embedding of [main.go]

    The program runs once at boot.  It looks for an ethernet interface with
    link, temporarily brings one up with a link-local address when there is
    none, fetches the Hetzner Cloud metadata document, renders one
    systemd-networkd unit per physical entry into [/run/systemd/network],
    and finally takes the temporary interface down again.

    The development has three layers:
    - the pure parts of the program (the renderer and the interface scan),
      transcribed as functions on strings and lists;
    - the host (netlink, HTTP, YAML decoder, file system) as a record of
      outcomes, and a state monad over a world made of a file store and the
      trace of every call the program issued;
    - [writeConfigs] and [main] written in that monad, statement by
      statement as in the Go source.

    The definitions come first: the program, then the views in which its
    properties are stated, then a few sample hosts.  The proofs follow: the
    renderer and the scan, the monad and the two loops of [writeConfigs],
    the file store, the shapes of a run of [main], and the theorems. *)

From Stdlib Require Import ZArith Bool Ascii.
From stdpp Require Import gmap strings list sorting.

Local Open Scope Z_scope.

(** ** Go strings *)

(** A Go string is a sequence of bytes: [string] of 8-bit [ascii]. *)

Definition nl : string := String "010"%char "".

(** [strings.HasPrefix(s, prefix)]. *)
Definition HasPrefix (s prefix : string) : bool := String.prefix prefix s.

(** [strings.HasSuffix(s, suffix)]:
    [len(s) >= len(suffix) && s[len(s)-len(suffix):] == suffix]. *)
Definition HasSuffix (s suffix : string) : bool :=
  (String.length suffix <=? String.length s)%nat &&
  String.eqb
    (String.substring (String.length s - String.length suffix)
                      (String.length suffix) s)
    suffix.

(** ** Data model (main.go, lines 17-41) *)

Module Subnet.
Record t := mk {
    Ipv4 : bool;
    Ipv6 : bool;
    Type_ : string;
    Address : string;
    Gateway : string;
    DNSNameservers : list string
  }.
End Subnet.

Module NetworkConfigEntry.
Record t := mk {
    Name : string;
    Type_ : string;
    MACAddress : string;
    Subnets : list Subnet.t
  }.
End NetworkConfigEntry.

Module NetworkConfig.
Record t := mk {
    Version : Z;
    Config : list NetworkConfigEntry.t
  }.
End NetworkConfig.

Module Metadata.
Record t := mk { NetworkConfig : NetworkConfig.t }.
End Metadata.

(** ** Constants (main.go, lines 43-52) *)

Definition ConfigDir : string := "/run/systemd/network".
Definition ConfigPrefix : string := "80-hetzner-".
Definition ConfigSuffix : string := ".network".

(** ** The renderer (main.go, lines 85-124) *)

(** One iteration of [for _, subnet := range entry.Subnets] on the loop
    state [(wantDHCPv4, wantDHCPv6, config)]. *)
Definition subnetStep (st : bool * bool * string) (subnet : Subnet.t)
  : bool * bool * string :=
  let '(wantDHCPv4, wantDHCPv6, config) := st in
  let '(wantDHCPv4, wantDHCPv6) :=
    if String.eqb (Subnet.Type_ subnet) "dhcp"
    then (wantDHCPv4 || Subnet.Ipv4 subnet, wantDHCPv6 || Subnet.Ipv6 subnet)
    else (wantDHCPv4, wantDHCPv6) in
  let config :=
    if negb (String.eqb (Subnet.Address subnet) "")
    then config +:+ ("Address=" +:+ Subnet.Address subnet +:+ nl)
    else config in
  let config :=
    if negb (String.eqb (Subnet.Gateway subnet) "")
    then config +:+ ("Gateway=" +:+ Subnet.Gateway subnet +:+ nl)
    else config in
  let config :=
    fold_left (fun config ns => config +:+ ("DNS=" +:+ ns +:+ nl))
              (Subnet.DNSNameservers subnet) config in
  (wantDHCPv4, wantDHCPv6, config).

(** The text built before the subnet loop (lines 86-95). *)
Definition configHeader (entry : NetworkConfigEntry.t) : string :=
  let config := "[Match]" +:+ nl in
  let config :=
    config +:+ ("MACAddress=" +:+ NetworkConfigEntry.MACAddress entry +:+ nl) in
  let config := config +:+ nl in
  let config := config +:+ ("[Network]" +:+ nl) in
  let config := config +:+ ("LinkLocalAddressing=yes" +:+ nl) in
  config.

(** The loop state after the subnet loop (lines 97-113). *)
Definition scanSubnets (entry : NetworkConfigEntry.t) : bool * bool * string :=
  fold_left subnetStep (NetworkConfigEntry.Subnets entry)
            (false, false, configHeader entry).

(** The two want-flags when the subnet loop is over. *)
Definition wantDHCP (entry : NetworkConfigEntry.t) : bool * bool :=
  let '(wantDHCPv4, wantDHCPv6, _) := scanSubnets entry in
  (wantDHCPv4, wantDHCPv6).

(** The content of the unit file of one physical entry (lines 86-122). *)
Definition renderConfig (entry : NetworkConfigEntry.t) : string :=
  let '(wantDHCPv4, wantDHCPv6, config) := scanSubnets entry in
  if wantDHCPv4 then
    if wantDHCPv6 then config +:+ ("DHCP=yes" +:+ nl)
    else config +:+ ("DHCP=ipv4" +:+ nl)
  else if wantDHCPv6 then config +:+ ("DHCP=ipv6" +:+ nl)
  else config.

(** [configPath] of the entry (line 124). *)
Definition entryPath (entry : NetworkConfigEntry.t) : string :=
  ConfigDir +:+ "/" +:+ ConfigPrefix +:+ NetworkConfigEntry.Name entry
            +:+ ConfigSuffix.

(** The guard of line 81, negated: the entry is rendered. *)
Definition isPhysical (entry : NetworkConfigEntry.t) : bool :=
  String.eqb (NetworkConfigEntry.Type_ entry) "physical".

(** ** The interface scan (main.go, lines 142-157) *)

Module LinkAttrs.
Record t := mk {
    Index : Z;
    Name : string;
    Flags : Z
  }.
End LinkAttrs.

(** A [netlink.Link] is used through [Attrs()] only. *)
Definition Link : Type := LinkAttrs.t.
Definition Attrs (link : Link) : LinkAttrs.t := link.

(** [net.FlagUp = 1 << iota], the first flag. *)
Definition FlagUp : Z := 1.

(** The condition of line 147. *)
Definition ethernetLike (link : Link) : bool :=
  HasPrefix (LinkAttrs.Name (Attrs link)) "en"
  || HasPrefix (LinkAttrs.Name (Attrs link)) "eth".

(** The condition of line 148. *)
Definition linkUp (link : Link) : bool :=
  negb (Z.land (LinkAttrs.Flags (Attrs link)) FlagUp =? 0).

(** The loop of lines 145-157 on the variables
    [(haveLink, firstEn, firstEnName)]; the [break] is the branch that does
    not recurse. *)
Fixpoint scanLinks (links : list Link) (firstEn : option Link)
    (firstEnName : string) : bool * option Link * string :=
  match links with
  | [] => (false, firstEn, firstEnName)
  | link :: links =>
      let linkAttrs := Attrs link in
      if HasPrefix (LinkAttrs.Name linkAttrs) "en"
         || HasPrefix (LinkAttrs.Name linkAttrs) "eth"
      then
        if negb (Z.land (LinkAttrs.Flags linkAttrs) FlagUp =? 0)
        then (true, firstEn, firstEnName)
        else
          match firstEn with
          | None => scanLinks links (Some link) (LinkAttrs.Name linkAttrs)
          | Some _ => scanLinks links firstEn firstEnName
          end
      else scanLinks links firstEn firstEnName
  end.

(** Lines 142-157: the variables start at their zero values. *)
Definition probeLinks (links : list Link) : bool * option Link * string :=
  scanLinks links None "".

(** ** The host: netlink, HTTP, YAML and the file system *)

Module Addr.
Record t := mk {
    IP : list Z;
    Mask : list Z;
    Scope : Z
  }.
End Addr.

(** [netlink.SCOPE_LINK]. *)
Definition SCOPE_LINK : Z := 253.

(** Lines 161-167: 169.254.0.1/16, scoped to the link. *)
Definition llAddr : Addr.t :=
  {| Addr.Scope := SCOPE_LINK;
     Addr.IP := [169; 254; 0; 1];
     Addr.Mask := [255; 255; 0; 0] |}.

Module Response.
Record t := mk {
    StatusCode : Z;
    Body : string
  }.
End Response.

Definition metadataURL : string := "http://169.254.169.254/hetzner/v1/metadata".

(** The [log.Printf] sites of the program, with the arguments that are
    formatted into the line (the text of the error value is left out). *)
Inductive LogMsg : Type :=
  | LogCreating (path : string)
  | LogReadingDirectory (path : string)
  | LogRemoving (path : string)
  | LogWriting (path : string)
  | LogListingInterfaces
  | LogNoEthernetInterfaces
  | LogBringingUp (name : string)
  | LogAddingAddress (name : string)
  | LogFetching
  | LogHttpStatus (code : Z)
  | LogReadError
  | LogParseError
  | LogUnknownVersion (version : Z).

(** Every call the program makes to the outside. *)
Inductive Call : Type :=
  | CallLinkList
  | CallLinkSetUp (link : Link)
  | CallAddrAdd (link : Link) (addr : Addr.t)
  | CallAddrDel (link : Link) (addr : Addr.t)
  | CallLinkSetDown (link : Link)
  | CallGet (url : string)
  | CallReadAll
  | CallClose
  | CallMkdirAll (path : string) (perm : Z)
  | CallReadDir (path : string)
  | CallRemove (path : string)
  | CallWriteFile (path : string) (data : string) (perm : Z)
  | CallPrintf (msg : LogMsg)
  | CallExit (code : Z).

(** A call together with whether it returned an error. *)
Record Event : Type := Ev { ev_call : Call; ev_err : bool }.

(** What the host answers.  A call fails or not depending on when it is
    issued (the number of calls issued before it) and on what it is, so every
    pattern of failures is some host.  [host_short] says what a failing
    [os.WriteFile] leaves behind: [None] when the file could not be opened,
    [Some k] when it was created or truncated and [k] bytes reached it. *)
Record Host : Type := {
  host_links : list Link;
  host_response : Response.t;
  host_decode : string -> option Metadata.t;
  host_err : nat -> Call -> bool;
  host_short : nat -> option nat
}.

(** The world: the regular files by path with their content, the
    directories by path, and the calls issued so far.  A directory with
    something in it need not be in [w_dirs]: a path that has a file or a
    directory beneath it is a directory all the same. *)
Record World : Type := {
  w_fs : gmap string string;
  w_dirs : gset string;
  w_trace : list Event
}.

(** ** The monad of the program *)

Definition M (A : Type) : Type := World -> A * World.

#[global] Instance M_ret : MRet M := fun A (a : A) (w : World) => (a, w).
#[global] Instance M_bind : MBind M :=
  fun A B (f : A -> M B) (m : M A) (w : World) => f (m w).1 (m w).2.

(** [for _, x := range xs { s = body s x }]. *)
Fixpoint forRange {A S : Type} (xs : list A) (body : S -> A -> M S) (s : S)
  : M S :=
  match xs with
  | [] => mret s
  | x :: xs => s ← body s x; forRange xs body s
  end.

(** The events of a run of [m] from [w]. *)
Definition emitted {A : Type} (m : M A) (w : World) : list Event :=
  drop (length (w_trace w)) (w_trace (m w).2).

(** [strings.TrimPrefix] with failure: the rest of [s] after [pre]. *)
Fixpoint stripPrefix (pre s : string) : option string :=
  match pre, s with
  | EmptyString, _ => Some s
  | String a pre, String b s => if Ascii.eqb a b then stripPrefix pre s else None
  | String _ _, EmptyString => None
  end.

Fixpoint hasSlash (s : string) : bool :=
  match s with
  | EmptyString => false
  | String a s => Ascii.eqb a "/"%char || hasSlash s
  end.

(** The name under which [path] is listed in [dir], when it lies directly
    in [dir]. *)
Definition childName (dir path : string) : option string :=
  match stripPrefix (dir +:+ "/") path with
  | Some name => if hasSlash name then None else Some name
  | None => None
  end.

(** The part of [s] before its first slash. *)
Fixpoint firstComponent (s : string) : string :=
  match s with
  | EmptyString => ""
  | String a s => if Ascii.eqb a "/"%char then "" else String a (firstComponent s)
  end.

(** The entry of [dir] through which [path] is reached, when [path] lies
    beneath [dir]. *)
Definition entryName (dir path : string) : option string :=
  firstComponent <$> stripPrefix (dir +:+ "/") path.

(** What [os.ReadDir(dir)] returns on success: the entries of [dir],
    regular files and directories alike, each once, sorted by name. *)
Definition dirEntries (dir : string) (fs : gmap string string)
    (dirs : gset string) : list string :=
  merge_sort String.le
    (elements (set_omap (entryName dir) (dom fs ∪ dirs) : gset string)).

(** [path] has something beneath it. *)
Definition nonEmptyDir (path : string) (fs : gmap string string)
    (dirs : gset string) : bool :=
  match dirEntries path fs dirs with [] => false | _ :: _ => true end.

(** [path] is a directory. *)
Definition isDirectory (path : string) (fs : gmap string string)
    (dirs : gset string) : bool :=
  bool_decide (path ∈ dirs) || nonEmptyDir path fs dirs.

(** The directories above [path]: what stands before each of its slashes. *)
Fixpoint parentsFrom (done rest : string) : list string :=
  match rest with
  | EmptyString => []
  | String a rest =>
      (if Ascii.eqb a "/"%char && negb (String.eqb done "") then [done] else [])
      ++ parentsFrom (done +:+ String a "") rest
  end.

Definition ancestors (path : string) : list string := parentsFrom "" path.

Section Program.
Context (h : Host).

(** A call that may fail: the host decides, the trace records. *)
Definition call (c : Call) : M bool := fun w =>
    let err := host_err h (length (w_trace w)) c in
    (err, {| w_fs := w_fs w; w_dirs := w_dirs w;
             w_trace := w_trace w ++ [{| ev_call := c; ev_err := err |}] |}).

(** A call that returns no error. *)
Definition emit (c : Call) : M unit := fun w =>
    (tt, {| w_fs := w_fs w; w_dirs := w_dirs w;
            w_trace := w_trace w ++ [{| ev_call := c; ev_err := false |}] |}).

Definition Printf (msg : LogMsg) : M unit := emit (CallPrintf msg).

(** A call that fails when the host says so, and also when the state of
    the file system [refuses] it. *)
Definition callUnless (refused : bool) (c : Call) : M bool := fun w =>
    let err := refused || host_err h (length (w_trace w)) c in
    (err, {| w_fs := w_fs w; w_dirs := w_dirs w;
             w_trace := w_trace w ++ [{| ev_call := c; ev_err := err |}] |}).

(** [os.MkdirAll]: on success the directory and those above it exist. *)
Definition MkdirAll (path : string) (perm : Z) : M bool := fun w =>
    let r := call (CallMkdirAll path perm) w in
    if r.1 then r
    else (false, {| w_fs := w_fs r.2;
                    w_dirs := list_to_set (path :: ancestors path) ∪ w_dirs r.2;
                    w_trace := w_trace r.2 |}).

(** [os.ReadDir]: [None] is [err != nil]. *)
Definition ReadDir (path : string) : M (option (list string)) := fun w =>
    let r := call (CallReadDir path) w in
    if r.1 then (None, r.2)
    else (Some (dirEntries path (w_fs w) (w_dirs w)), r.2).

(** [os.Remove]: a directory that is not empty is never removed; on success
    the file or the directory is gone. *)
Definition Remove (path : string) : M bool := fun w =>
    let r := callUnless (nonEmptyDir path (w_fs w) (w_dirs w))
                        (CallRemove path) w in
    if r.1 then r
    else (false, {| w_fs := delete path (w_fs r.2);
                    w_dirs := w_dirs r.2 ∖ {[path]};
                    w_trace := w_trace r.2 |}).

(** [os.WriteFile]: open with create and truncate, write, close; a
    directory is never opened for writing. *)
Definition WriteFile (path data : string) (perm : Z) : M bool := fun w =>
    let r := callUnless (isDirectory path (w_fs w) (w_dirs w))
                        (CallWriteFile path data perm) w in
    let fs :=
      if r.1 then
        if isDirectory path (w_fs w) (w_dirs w) then w_fs w
        else
          match host_short h (length (w_trace w)) with
          | None => w_fs w
          | Some k => <[path := String.substring 0 k data]> (w_fs w)
          end
      else <[path := data]> (w_fs w) in
    (r.1, {| w_fs := fs; w_dirs := w_dirs w; w_trace := w_trace r.2 |}).

(** The condition of line 69. *)
Definition isGenerated (name : string) : bool :=
    HasPrefix name ConfigPrefix && HasSuffix name ConfigSuffix.

(** The body of the loop of lines 67-76. *)
Definition removeStep (ok : bool) (name : string) : M bool :=
    if isGenerated name then
      let configPath := ConfigDir +:+ "/" +:+ name in
      err ← Remove configPath;
      if err : bool then Printf (LogRemoving configPath);; mret false
      else mret ok
    else mret ok.

(** The body of the loop of lines 80-129. *)
Definition writeStep (ok : bool) (entry : NetworkConfigEntry.t) : M bool :=
    if negb (String.eqb (NetworkConfigEntry.Type_ entry) "physical") then
      mret ok
    else
      let config := renderConfig entry in
      let configPath :=
        ConfigDir +:+ "/" +:+ ConfigPrefix +:+ NetworkConfigEntry.Name entry
                  +:+ ConfigSuffix in
      err ← WriteFile configPath config 420;
      if err : bool then Printf (LogWriting configPath);; mret false
      else mret ok.

(** [writeConfigs] (lines 54-132); 0755 is 493 and 0644 is 420. *)
Definition writeConfigs (entries : list NetworkConfigEntry.t) : M bool :=
    let ok := true in
    err ← MkdirAll ConfigDir 493;
    ok ← (if err : bool then Printf (LogCreating ConfigDir);; mret false
          else mret ok);
    r ← ReadDir ConfigDir;
    ok ← match r with
         | None => Printf (LogReadingDirectory ConfigDir);; mret false
         | Some dirEntries => forRange dirEntries removeStep ok
         end;
    ok ← forRange entries writeStep ok;
    mret ok.

(** Lines 168-185: the temporary activation; returns [firstEn]. *)
Definition activate (haveLink : bool) (firstEn : option Link)
      (firstEnName : string) : M (option Link) :=
    if negb haveLink then
      _ ← match firstEn with
          | None => Printf LogNoEthernetInterfaces
          | Some _ => mret tt
          end;
      firstEn ← match firstEn with
                | Some link =>
                    err ← call (CallLinkSetUp link);
                    if err : bool
                    then Printf (LogBringingUp firstEnName);; mret None
                    else mret firstEn
                | None => mret firstEn
                end;
      firstEn ← match firstEn with
                | Some link =>
                    err ← call (CallAddrAdd link llAddr);
                    if err : bool
                    then Printf (LogAddingAddress firstEnName);;
                         _ ← call (CallLinkSetDown link);
                         mret None
                    else mret firstEn
                | None => mret firstEn
                end;
      mret firstEn
    else mret firstEn.

(** Lines 187-210: fetch, decode, and write the units; returns [ok]. *)
Definition fetch : M bool :=
    let ok := false in
    err ← call (CallGet metadataURL);
    if err : bool then Printf LogFetching;; mret ok
    else
      let resp := host_response h in
      ok ← (if negb (Response.StatusCode resp =? 200) then
              Printf (LogHttpStatus (Response.StatusCode resp));; mret ok
            else
              err ← call CallReadAll;
              if err : bool then Printf LogReadError;; mret ok
              else
                match host_decode h (Response.Body resp) with
                | None => Printf LogParseError;; mret ok
                | Some metadata =>
                    let version :=
                      NetworkConfig.Version (Metadata.NetworkConfig metadata) in
                    if negb (version =? 1) then
                      Printf (LogUnknownVersion version);; mret ok
                    else
                      writeConfigs
                        (NetworkConfig.Config (Metadata.NetworkConfig metadata))
                end);
      emit CallClose;;
      mret ok.

(** Lines 212-216. *)
Definition deactivate (haveLink : bool) (firstEn : option Link) : M unit :=
    match firstEn with
    | Some link =>
        if negb haveLink then
          _ ← call (CallAddrDel link llAddr);
          _ ← call (CallLinkSetDown link);
          mret tt
        else mret tt
    | None => mret tt
    end.

(** Lines 136-140: a failed enumeration is logged and leaves no links. *)
Definition listLinks : M (list Link) :=
  err ← call CallLinkList;
  if err : bool then Printf LogListingInterfaces;; mret []
  else mret (host_links h).

(** [main] (lines 134-221); the result is the exit status. *)
Definition main : M Z :=
  links ← listLinks;
  let '(haveLink, firstEn, firstEnName) := probeLinks links in
  firstEn ← activate haveLink firstEn firstEnName;
  ok ← fetch;
  deactivate haveLink firstEn;;
  if negb ok then emit (CallExit 1);; mret 1
  else mret 0.

End Program.

(** * Views of the program

    The functions and predicates in which the properties of the program
    are stated: the directives of a rendered unit, selections of a
    trace, the two loops of [writeConfigs] by name, the shapes a run of
    [main] can take, and a few sample hosts. *)

(** ** Views of the renderer: the directives it appends *)

(** The concatenation of the pieces, in order. *)
Definition joinAll (pieces : list string) : string :=
  foldr String.append "" pieces.

(** The lines appended before the subnet loop (lines 86-95). *)
Definition headerDirectives (entry : NetworkConfigEntry.t) : list string :=
  [ "[Match]" +:+ nl;
    "MACAddress=" +:+ NetworkConfigEntry.MACAddress entry +:+ nl;
    nl;
    "[Network]" +:+ nl;
    "LinkLocalAddressing=yes" +:+ nl ].

(** The lines one subnet appends (lines 102-110). *)
Definition subnetDirectives (subnet : Subnet.t) : list string :=
  (if negb (String.eqb (Subnet.Address subnet) "")
   then ["Address=" +:+ Subnet.Address subnet +:+ nl] else [])
  ++ (if negb (String.eqb (Subnet.Gateway subnet) "")
      then ["Gateway=" +:+ Subnet.Gateway subnet +:+ nl] else [])
  ++ map (fun ns => "DNS=" +:+ ns +:+ nl) (Subnet.DNSNameservers subnet).

(** The line appended after the subnet loop (lines 112-120), by the two
    want-flags. *)
Definition dhcpDirectives (want : bool * bool) : list string :=
  match want with
  | (true, true) => ["DHCP=yes" +:+ nl]
  | (true, false) => ["DHCP=ipv4" +:+ nl]
  | (false, true) => ["DHCP=ipv6" +:+ nl]
  | (false, false) => []
  end.

(** Every line the renderer appends for an entry, in order. *)
Definition configDirectives (entry : NetworkConfigEntry.t) : list string :=
  headerDirectives entry
  ++ flat_map subnetDirectives (NetworkConfigEntry.Subnets entry)
  ++ dhcpDirectives (wantDHCP entry).

(** A [DHCP=] line. *)
Definition isDHCPDirective (d : string) : bool := HasPrefix d "DHCP=".

(** [strings.Split(s, "\n")]: the lines of a text. *)
Fixpoint linesOf (s : string) : list string :=
  match s with
  | EmptyString => [""]
  | String a s' =>
      if Ascii.eqb a "010" then "" :: linesOf s'
      else match linesOf s' with
           | l :: rest => String a l :: rest
           | [] => [String a ""]
           end
  end.

(** A line that sets [DHCP]. *)
Definition isDHCPLine (l : string) : bool := HasPrefix l "DHCP=".

(** The text has a line break. *)
Fixpoint hasNewline (s : string) : bool :=
  match s with
  | EmptyString => false
  | String a s' => Ascii.eqb a "010" || hasNewline s'
  end.

(** The values of the document that the renderer copies into the text. *)
Definition subnetValues (subnet : Subnet.t) : list string :=
  Subnet.Address subnet :: Subnet.Gateway subnet :: Subnet.DNSNameservers subnet.

Definition entryValues (entry : NetworkConfigEntry.t) : list string :=
  NetworkConfigEntry.MACAddress entry
    :: flat_map subnetValues (NetworkConfigEntry.Subnets entry).

(** No value of the entry has a line break. *)
Definition singleLined (entry : NetworkConfigEntry.t) : Prop :=
  Forall (fun v => hasNewline v = false) (entryValues entry).

(** The lines a value carries after its first line break. *)
Definition carriedLines (v : string) : list string := tail (linesOf v).

(** The directives without their line break. *)
Definition headerLines (entry : NetworkConfigEntry.t) : list string :=
  [ "[Match]";
    "MACAddress=" +:+ NetworkConfigEntry.MACAddress entry;
    "";
    "[Network]";
    "LinkLocalAddressing=yes" ].

Definition subnetLines (subnet : Subnet.t) : list string :=
  (if negb (String.eqb (Subnet.Address subnet) "")
   then ["Address=" +:+ Subnet.Address subnet] else [])
  ++ (if negb (String.eqb (Subnet.Gateway subnet) "")
      then ["Gateway=" +:+ Subnet.Gateway subnet] else [])
  ++ map (fun ns => "DNS=" +:+ ns) (Subnet.DNSNameservers subnet).

Definition dhcpLines (want : bool * bool) : list string :=
  match want with
  | (true, true) => ["DHCP=yes"]
  | (true, false) => ["DHCP=ipv4"]
  | (false, true) => ["DHCP=ipv6"]
  | (false, false) => []
  end.

Definition configLines (entry : NetworkConfigEntry.t) : list string :=
  headerLines entry
  ++ flat_map subnetLines (NetworkConfigEntry.Subnets entry)
  ++ dhcpLines (wantDHCP entry).

(** The two want-flags after [k] iterations of the subnet loop. *)
Definition flagsAfter (entry : NetworkConfigEntry.t) (k : nat) : bool * bool :=
  let '(wantDHCPv4, wantDHCPv6, _) :=
    fold_left subnetStep (take k (NetworkConfigEntry.Subnets entry))
              (false, false, configHeader entry) in
  (wantDHCPv4, wantDHCPv6).

(** The subnet sets [wantDHCPv4]. *)
Definition dhcpIpv4 (s : Subnet.t) : bool :=
  String.eqb (Subnet.Type_ s) "dhcp" && Subnet.Ipv4 s.

(** The subnet sets [wantDHCPv6]. *)
Definition dhcpIpv6 (s : Subnet.t) : bool :=
  String.eqb (Subnet.Type_ s) "dhcp" && Subnet.Ipv6 s.

(** The links the scan looks at before it stops: those before the first
    ethernet-like link that is up. *)
Fixpoint scanned (links : list Link) : list Link :=
  match links with
  | [] => []
  | link :: links =>
      if ethernetLike link && linkUp link then [] else link :: scanned links
  end.

(** ** Views of a trace *)

(** The call returned no error. *)
Definition ev_ok (ev : Event) : bool := negb (ev_err ev).

(** The calls of a trace, without their results. *)
Definition callsOf (evs : list Event) : list Call := map ev_call evs.

(** The calls of [writeConfigs] to the file system. *)
Definition isFsCall (c : Call) : bool :=
  match c with
  | CallMkdirAll _ _ | CallReadDir _ | CallRemove _ | CallWriteFile _ _ _ => true
  | _ => false
  end.

(** An [os.WriteFile]. *)
Definition isWrite (c : Call) : bool :=
  match c with CallWriteFile _ _ _ => true | _ => false end.

(** An [os.Remove]. *)
Definition isRemove (c : Call) : bool :=
  match c with CallRemove _ => true | _ => false end.

(** An [os.ReadDir]. *)
Definition isReadDir (c : Call) : bool :=
  match c with CallReadDir _ => true | _ => false end.

(** Some call selected by [P] returned an error. *)
Definition callFailed (P : Call -> bool) (evs : list Event) : bool :=
  existsb (fun ev => P (ev_call ev) && ev_err ev) evs.

(** A [log.Printf]. *)
Definition isLogCall (c : Call) : bool :=
  match c with CallPrintf _ => true | _ => false end.

(** An [os.WriteFile] of [path]. *)
Definition isWriteTo (path : string) (c : Call) : bool :=
  match c with
  | CallWriteFile p _ _ => String.eqb p path
  | _ => false
  end.

(** The log lines of a trace, in order. *)
Definition logsOf (evs : list Event) : list LogMsg :=
  omap (fun ev => match ev_call ev with CallPrintf m => Some m | _ => None end) evs.

(** [configPath] of line 70. *)
Definition childPath (name : string) : string := ConfigDir +:+ "/" +:+ name.

(** The last attempt to write [path], if any. *)
Definition lastWrite (path : string) (evs : list Event) : option Event :=
  last (List.filter (fun ev => isWriteTo path (ev_call ev)) evs).

(** The [os.WriteFile] of an entry (line 125). *)
Definition writeCall (e : NetworkConfigEntry.t) : Call :=
  CallWriteFile (entryPath e) (renderConfig e) 420.

(** The [os.Remove] of a listed name (line 71). *)
Definition removeCall (name : string) : Call := CallRemove (childPath name).

(** A computation that only ever appends to the trace. *)
Definition Traced {A : Type} (m : M A) : Prop :=
  forall w, w_trace w `prefix_of` w_trace (m w).2.

(** The removals of the cleanup loop when [names] is listed. *)
Definition removeCalls (names : list string) : list Call :=
  map removeCall (List.filter isGenerated names).

(** The writes of the write loop. *)
Definition writeCalls (entries : list NetworkConfigEntry.t) : list Call :=
  map writeCall (List.filter isPhysical entries).

(** The store after every write succeeded. *)
Definition writeAll (entries : list NetworkConfigEntry.t)
    (fs : gmap string string) : gmap string string :=
  fold_left (fun fs e => <[entryPath e := renderConfig e]> fs)
            (List.filter isPhysical entries) fs.

(** The store after every removal succeeded. *)
Definition cleanAll (names : list string) (fs : gmap string string)
  : gmap string string :=
  fold_left (fun fs name => delete (childPath name) fs)
            (List.filter isGenerated names) fs.

Section Views.
Context (h : Host).

(** The write loop (lines 80-129), started with [ok]. *)
Definition writeLoop (entries : list NetworkConfigEntry.t) (ok : bool) : M bool :=
  forRange entries (writeStep h) ok.

(** The cleanup loop (lines 67-76) over the listed names. *)
Definition removeLoop (names : list string) (ok : bool) : M bool :=
  forRange names (removeStep h) ok.

(** Whether [os.WriteFile] of [path] fails from [w]. *)
Definition writeErr (w : World) (path data : string) : bool :=
  isDirectory path (w_fs w) (w_dirs w)
  || host_err h (length (w_trace w)) (CallWriteFile path data 420).

(** Whether [os.Remove] of [path] fails from [w]. *)
Definition removeErr (w : World) (path : string) : bool :=
  nonEmptyDir path (w_fs w) (w_dirs w)
  || host_err h (length (w_trace w)) (CallRemove path).

(** [writeConfigs] up to its second loop. *)
Definition prepareDir : M bool :=
  err ← MkdirAll h ConfigDir 493;
  ok ← (if err : bool then Printf (LogCreating ConfigDir);; mret false
        else mret true);
  r ← ReadDir h ConfigDir;
  match r with
  | None => Printf (LogReadingDirectory ConfigDir);; mret false
  | Some dirEntries => forRange dirEntries (removeStep h) ok
  end.

(** The call of line 57. *)
Definition mkdirCall : Call := CallMkdirAll ConfigDir 493.

(** The call of line 63. *)
Definition readDirCall : Call := CallReadDir ConfigDir.

(** Whether [os.MkdirAll] fails from [w]. *)
Definition mkdirErr (w : World) : bool :=
  host_err h (length (w_trace w)) mkdirCall.

(** The events of lines 57-60 from [w]. *)
Definition mkdirEvents (w : World) : list Event :=
  Ev mkdirCall (mkdirErr w)
    :: (if mkdirErr w then [Ev (CallPrintf (LogCreating ConfigDir)) false]
        else []).

(** Whether [os.ReadDir] fails from [w]. *)
Definition readDirErr (w : World) : bool :=
  host_err h (length (w_trace w ++ mkdirEvents w)) readDirCall.

(** The world in which the cleanup loop starts. *)
Definition cleanupStart (w : World) : World :=
  {| w_fs := w_fs w;
     w_dirs := if mkdirErr w then w_dirs w
               else list_to_set (ConfigDir :: ancestors ConfigDir) ∪ w_dirs w;
     w_trace := w_trace w ++ mkdirEvents w ++ [Ev readDirCall false] |}.

(** The names [os.ReadDir] returns from [w]. *)
Definition listed (w : World) : list string :=
  dirEntries ConfigDir (w_fs w) (w_dirs w).

End Views.

(** Something is at [path]: a regular file or a directory. *)
Definition present (path : string) (fs : gmap string string)
    (dirs : gset string) : Prop :=
  is_Some (fs !! path) \/ path ∈ dirs.

(** The last physical entry that is written to [path], if any. *)
Definition lastEntryAt (path : string) (entries : list NetworkConfigEntry.t)
  : option NetworkConfigEntry.t :=
  last (List.filter (fun e => String.eqb (entryPath e) path)
                    (List.filter isPhysical entries)).

(** [configPath] of line 124 as a function of the entry's name. *)
Definition pathOfName (name : string) : string :=
  ConfigDir +:+ "/" +:+ ConfigPrefix +:+ name +:+ ConfigSuffix.

(** A path that the cleanup removes if it is a file: it lies directly in
    the directory and its name is one of the program's. *)
Definition isGeneratedPath (path : string) : bool :=
  match childName ConfigDir path with
  | Some name => isGenerated name
  | None => false
  end.

(** A call to the file system, or a log line. *)
Definition fsOrLog (ev : Event) : Prop :=
  isFsCall (ev_call ev) = true
  \/ (isLogCall (ev_call ev) = true /\ ev_err ev = false).

(** The calls to netlink. *)
Definition isNetlink (c : Call) : bool :=
  match c with
  | CallLinkList | CallLinkSetUp _ | CallAddrAdd _ _ | CallAddrDel _ _
  | CallLinkSetDown _ => true
  | _ => false
  end.

(** The calls that take the interface down again. *)
Definition isTeardown (c : Call) : bool :=
  match c with
  | CallAddrDel _ _ | CallLinkSetDown _ => true
  | _ => false
  end.

(** A [netlink.LinkSetDown]. *)
Definition isLinkSetDown (c : Call) : bool :=
  match c with CallLinkSetDown _ => true | _ => false end.

(** The calls of the fetch that can fail. *)
Definition isFetchCall (c : Call) : bool :=
  match c with CallGet _ | CallReadAll => true | _ => false end.

(** The links the scan runs on: none when the enumeration failed. *)
Definition listedLinks (h : Host) (w : World) : list Link :=
  if host_err h (length (w_trace w)) CallLinkList then [] else host_links h.

(** The events of lines 136-140. *)
Definition listEvents (h : Host) (w : World) : list Event :=
  Ev CallLinkList (host_err h (length (w_trace w)) CallLinkList)
    :: (if host_err h (length (w_trace w)) CallLinkList
        then [Ev (CallPrintf LogListingInterfaces) false] else []).

(** The five ways the activation of lines 168-185 can go. *)
Inductive ActivateRun (haveLink : bool) (firstEn : option Link) (name : string)
  : option Link -> list Event -> Prop :=
  | act_have_link :
      haveLink = true -> ActivateRun haveLink firstEn name firstEn []
  | act_no_interface :
      haveLink = false -> firstEn = None ->
      ActivateRun haveLink firstEn name None
        [Ev (CallPrintf LogNoEthernetInterfaces) false]
  | act_up_failed (link : Link) :
      haveLink = false -> firstEn = Some link ->
      ActivateRun haveLink firstEn name None
        [Ev (CallLinkSetUp link) true;
         Ev (CallPrintf (LogBringingUp name)) false]
  | act_addr_failed (link : Link) (e : bool) :
      haveLink = false -> firstEn = Some link ->
      ActivateRun haveLink firstEn name None
        [Ev (CallLinkSetUp link) false;
         Ev (CallAddrAdd link llAddr) true;
         Ev (CallPrintf (LogAddingAddress name)) false;
         Ev (CallLinkSetDown link) e]
  | act_done (link : Link) :
      haveLink = false -> firstEn = Some link ->
      ActivateRun haveLink firstEn name (Some link)
        [Ev (CallLinkSetUp link) false; Ev (CallAddrAdd link llAddr) false].

(** The two ways the deactivation of lines 212-216 can go. *)
Inductive DeactivateRun (haveLink : bool) (firstEn : option Link)
  : list Event -> Prop :=
  | deact_skipped :
      haveLink = true \/ firstEn = None -> DeactivateRun haveLink firstEn []
  | deact_done (link : Link) (e1 e2 : bool) :
      haveLink = false -> firstEn = Some link ->
      DeactivateRun haveLink firstEn
        [Ev (CallAddrDel link llAddr) e1; Ev (CallLinkSetDown link) e2].

(** The six ways the fetch of lines 187-210 can go, from a store [fs]:
    the result [ok], the events, and the store afterwards. *)
Inductive FetchRun (h : Host) (fs : gmap string string)
  : bool -> list Event -> gmap string string -> Prop :=
  | fetch_get_failed :
      FetchRun h fs false
        [Ev (CallGet metadataURL) true; Ev (CallPrintf LogFetching) false] fs
  | fetch_bad_status :
      Response.StatusCode (host_response h) <> 200 ->
      FetchRun h fs false
        [Ev (CallGet metadataURL) false;
         Ev (CallPrintf (LogHttpStatus (Response.StatusCode (host_response h))))
            false;
         Ev CallClose false] fs
  | fetch_read_failed :
      Response.StatusCode (host_response h) = 200 ->
      FetchRun h fs false
        [Ev (CallGet metadataURL) false; Ev CallReadAll true;
         Ev (CallPrintf LogReadError) false; Ev CallClose false] fs
  | fetch_parse_failed :
      Response.StatusCode (host_response h) = 200 ->
      host_decode h (Response.Body (host_response h)) = None ->
      FetchRun h fs false
        [Ev (CallGet metadataURL) false; Ev CallReadAll false;
         Ev (CallPrintf LogParseError) false; Ev CallClose false] fs
  | fetch_bad_version (m : Metadata.t) :
      Response.StatusCode (host_response h) = 200 ->
      host_decode h (Response.Body (host_response h)) = Some m ->
      NetworkConfig.Version (Metadata.NetworkConfig m) <> 1 ->
      FetchRun h fs false
        [Ev (CallGet metadataURL) false; Ev CallReadAll false;
         Ev (CallPrintf
               (LogUnknownVersion
                  (NetworkConfig.Version (Metadata.NetworkConfig m)))) false;
         Ev CallClose false] fs
  | fetch_synced (m : Metadata.t) (w' : World) :
      Response.StatusCode (host_response h) = 200 ->
      host_decode h (Response.Body (host_response h)) = Some m ->
      NetworkConfig.Version (Metadata.NetworkConfig m) = 1 ->
      w_fs w' = fs ->
      let sync :=
        writeConfigs h (NetworkConfig.Config (Metadata.NetworkConfig m)) in
      FetchRun h fs (sync w').1
        ([Ev (CallGet metadataURL) false; Ev CallReadAll false]
           ++ emitted sync w' ++ [Ev CallClose false])
        (w_fs (sync w').2).

(** A run of [main]: the exit status, the events and the store. *)
Inductive MainRun (h : Host) (w : World)
  : Z -> list Event -> gmap string string -> Prop :=
  | main_run haveLink firstEn name firstEn' A ok F fs' D :
      probeLinks (listedLinks h w) = (haveLink, firstEn, name) ->
      ActivateRun haveLink firstEn name firstEn' A ->
      FetchRun h (w_fs w) ok F fs' ->
      DeactivateRun haveLink firstEn' D ->
      MainRun h w (if ok then 0 else 1)
        (listEvents h w ++ A ++ F ++ D
           ++ (if ok then [] else [Ev (CallExit 1) false]))
        fs'.

(** A call that changes an interface. *)
Definition isLinkChange (c : Call) : bool :=
  match c with
  | CallLinkSetUp _ | CallAddrAdd _ _ | CallAddrDel _ _ | CallLinkSetDown _ =>
      true
  | _ => false
  end.

(** What the activation and the deactivation of one run do together. *)
Inductive LinkRun (haveLink : bool) (firstEn : option Link) (name : string)
  : list Event -> list Event -> Prop :=
  | link_have_link : haveLink = true -> LinkRun haveLink firstEn name [] []
  | link_no_interface :
      haveLink = false -> firstEn = None ->
      LinkRun haveLink firstEn name
        [Ev (CallPrintf LogNoEthernetInterfaces) false] []
  | link_up_failed (link : Link) :
      haveLink = false -> firstEn = Some link ->
      LinkRun haveLink firstEn name
        [Ev (CallLinkSetUp link) true;
         Ev (CallPrintf (LogBringingUp name)) false] []
  | link_addr_failed (link : Link) (e : bool) :
      haveLink = false -> firstEn = Some link ->
      LinkRun haveLink firstEn name
        [Ev (CallLinkSetUp link) false;
         Ev (CallAddrAdd link llAddr) true;
         Ev (CallPrintf (LogAddingAddress name)) false;
         Ev (CallLinkSetDown link) e] []
  | link_activated (link : Link) (e1 e2 : bool) :
      haveLink = false -> firstEn = Some link ->
      LinkRun haveLink firstEn name
        [Ev (CallLinkSetUp link) false; Ev (CallAddrAdd link llAddr) false]
        [Ev (CallAddrDel link llAddr) e1; Ev (CallLinkSetDown link) e2].

(** Two hosts that answer alike except, possibly, for the result of
    [netlink.AddrDel] and [netlink.LinkSetDown]. *)
Definition sameButTeardown (h h' : Host) : Prop :=
  host_links h = host_links h'
  /\ host_response h = host_response h'
  /\ (forall body, host_decode h body = host_decode h' body)
  /\ (forall t c, isTeardown c = false -> host_err h t c = host_err h' t c)
  /\ (forall t, host_short h t = host_short h' t).

(** Two events of the same call, with the same result unless the call is
    [AddrDel] or [LinkSetDown]. *)
Definition sameEvent (ev ev' : Event) : Prop :=
  ev_call ev = ev_call ev'
  /\ (isTeardown (ev_call ev) = false -> ev_err ev = ev_err ev').

(** The same store, and traces alike event by event. *)
Definition sameWorld (w w' : World) : Prop :=
  w_fs w = w_fs w' /\ w_dirs w = w_dirs w'
  /\ Forall2 sameEvent (w_trace w) (w_trace w').

(** The two computations step from like worlds to like worlds with the same
    result. *)
Definition Sim {A : Type} (m m' : M A) : Prop :=
  forall w w', sameWorld w w' ->
    (m w).1 = (m' w').1 /\ sameWorld (m w).2 (m' w').2.

(** ** Views for the further properties *)

(** The log line the program writes when a call fails; [AddrDel] and
    [LinkSetDown] have none. *)
Definition failureLog (c : Call) : option LogMsg :=
  match c with
  | CallLinkList => Some LogListingInterfaces
  | CallLinkSetUp link => Some (LogBringingUp (LinkAttrs.Name (Attrs link)))
  | CallAddrAdd link _ => Some (LogAddingAddress (LinkAttrs.Name (Attrs link)))
  | CallGet _ => Some LogFetching
  | CallReadAll => Some LogReadError
  | CallMkdirAll path _ => Some (LogCreating path)
  | CallReadDir path => Some (LogReadingDirectory path)
  | CallRemove path => Some (LogRemoving path)
  | CallWriteFile path _ _ => Some (LogWriting path)
  | _ => None
  end.

(** An event, followed by its log line when it is a failure that has one. *)
Definition withLog (ev : Event) : list Event :=
  ev :: (if ev_err ev then
           match failureLog (ev_call ev) with
           | Some msg => [Ev (CallPrintf msg) false]
           | None => []
           end
         else []).

(** The file-system events of a trace. *)
Definition fsEvents (evs : list Event) : list Event :=
  List.filter (fun ev => isFsCall (ev_call ev)) evs.

(** A trace made of file-system calls, each followed by its log line when
    it failed, and of nothing else. *)
Definition Tidy (evs : list Event) : Prop :=
  evs = flat_map withLog (fsEvents evs).

(** The file name of the unit of an entry (line 124). *)
Definition unitName (name : string) : string :=
  ConfigPrefix +:+ name +:+ ConfigSuffix.

(** What a call to the file system is given: the path lies under the
    directory with the program's prefix and suffix, with the mode of the
    source. *)
Definition wellTargeted (c : Call) : Prop :=
  match c with
  | CallMkdirAll path perm => path = ConfigDir /\ perm = 493
  | CallReadDir path => path = ConfigDir
  | CallRemove path =>
      HasPrefix path (ConfigDir +:+ "/" +:+ ConfigPrefix) = true
      /\ HasSuffix path ConfigSuffix = true
  | CallWriteFile path _ perm =>
      HasPrefix path (ConfigDir +:+ "/" +:+ ConfigPrefix) = true
      /\ HasSuffix path ConfigSuffix = true
      /\ perm = 420
  | _ => True
  end.

Definition isGet (c : Call) : bool :=
  match c with CallGet _ => true | _ => false end.

Definition isClose (c : Call) : bool :=
  match c with CallClose => true | _ => false end.

Definition isExit (c : Call) : bool :=
  match c with CallExit _ => true | _ => false end.

(** The calls of the fetch and of the sync: what happens between the
    request and the closing of the body. *)
Definition isFetchWork (c : Call) : bool :=
  isFetchCall c || isFsCall c || isClose c.

(** The interface a netlink call changes. *)
Definition linkOf (c : Call) : option Link :=
  match c with
  | CallLinkSetUp link | CallAddrAdd link _ | CallAddrDel link _
  | CallLinkSetDown link => Some link
  | _ => None
  end.

(** The address a netlink call adds or removes. *)
Definition addrOf (c : Call) : option Addr.t :=
  match c with
  | CallAddrAdd _ addr | CallAddrDel _ addr => Some addr
  | _ => None
  end.

Definition isLinkSetUp (c : Call) : bool :=
  match c with CallLinkSetUp _ => true | _ => false end.

(** Every failure of a trace that has a log line is followed at once by
    that line; [AddrDel] and [LinkSetDown] have none. *)
Fixpoint Logged (evs : list Event) : Prop :=
  match evs with
  | [] => True
  | ev :: rest =>
      (ev_err ev = true -> isTeardown (ev_call ev) = false ->
       exists msg, failureLog (ev_call ev) = Some msg
         /\ head rest = Some (Ev (CallPrintf msg) false))
      /\ Logged rest
  end.

(** ** Sample hosts *)

(** The loopback interface, up. *)
Definition lo : Link := LinkAttrs.mk 1 "lo" 1.

(** An ethernet interface that is down. *)
Definition eth0 : Link := LinkAttrs.mk 2 "eth0" 0.

(** A physical entry with a dhcp subnet and a static one. *)
Definition sampleEntry (name : string) : NetworkConfigEntry.t :=
  NetworkConfigEntry.mk name "physical" "aa:bb:cc:dd:ee:ff"
    [Subnet.mk true false "dhcp" "" "" [];
     Subnet.mk true false "static" "10.0.0.5/24" "10.0.0.1" ["8.8.8.8"]].

(** Another physical entry, with another address and no subnet. *)
Definition bareEntry (name : string) : NetworkConfigEntry.t :=
  NetworkConfigEntry.mk name "physical" "11:22:33:44:55:66" [].

(** A server whose only ethernet interface is down, answering with a
    document of the given version and entries; [err] says which calls
    fail. *)
Definition sampleHost (version : Z) (entries : list NetworkConfigEntry.t)
    (err : nat -> Call -> bool) : Host :=
  {| host_links := [lo; eth0];
     host_response := Response.mk 200 "network-config: {}";
     host_decode := fun _ => Some (Metadata.mk (NetworkConfig.mk version entries));
     host_err := err;
     host_short := fun _ => None |}.

(** No call fails. *)
Definition noError (t : nat) (c : Call) : bool := false.

(** Nothing fails. *)
Definition quietHost : Host := sampleHost 1 [sampleEntry "eth0"] noError.

(** Only the calls that take the interface down again fail. *)
Definition stuckHost : Host :=
  sampleHost 1 [sampleEntry "eth0"] (fun _ c => isTeardown c).

(** The document has a version from the future. *)
Definition futureHost : Host := sampleHost 2 [sampleEntry "eth0"] noError.

(** The directory cannot be created and the second unit cannot be
    written. *)
Definition brokenDirHost : Host :=
  sampleHost 1 [sampleEntry "eth0"; sampleEntry "eth1"; sampleEntry "eth2"]
    (fun _ c =>
       match c with
       | CallMkdirAll _ _ => true
       | CallWriteFile path _ _ =>
           String.eqb path "/run/systemd/network/80-hetzner-eth1.network"
       | _ => false
       end).

(** Nothing in the store, nothing issued yet. *)
Definition emptyWorld : World := {| w_fs := ∅; w_dirs := ∅; w_trace := [] |}.

(** A unit of an earlier boot, a unit of the administrator, and a file in a
    subdirectory. *)
Definition usedWorld : World :=
  {| w_fs := <["/run/systemd/network/80-hetzner-old.network" := "stale"]>
               (<["/run/systemd/network/10-admin.network" := "kept"]>
                  (<["/run/systemd/network/80-hetzner-d/x.network" := "deep"]> ∅));
     w_dirs := {["/run"; "/run/systemd"; "/run/systemd/network";
                 "/run/systemd/network/80-hetzner-d"]};
     w_trace := [] |}.

(** The metadata service cannot be reached. *)
Definition offlineHost : Host :=
  sampleHost 1 [sampleEntry "eth0"] (fun _ c => isGet c).



(** A directory with the name of a unit, and a file in it. *)
Definition nestedWorld : World :=
  {| w_fs := {["/run/systemd/network/80-hetzner-d.network/x" := "deep"]};
     w_dirs := {["/run"; "/run/systemd"; "/run/systemd/network";
                 "/run/systemd/network/80-hetzner-d.network"]};
     w_trace := [] |}.

(** A physical entry whose static address has a line break in it. *)
Definition injectedEntry : NetworkConfigEntry.t :=
  NetworkConfigEntry.mk "eth0" "physical" "aa:bb:cc:dd:ee:ff"
    [Subnet.mk true false "static" ("10.0.0.5/24" +:+ nl +:+ "DHCP=yes") "" []].

(** * Proofs *)

(** * Strings *)

Lemma app_assoc_s (a b c : string) : (a +:+ b) +:+ c = a +:+ (b +:+ c).
Proof.
  induction a as [|x a IH]; [done|].
  change (String x ((a +:+ b) +:+ c) = String x (a +:+ (b +:+ c))).
  by rewrite IH.
Qed.

Lemma app_nil_r_s (a : string) : a +:+ "" = a.
Proof.
  induction a as [|x a IH]; [done|].
  change (String x (a +:+ "") = String x a). by rewrite IH.
Qed.

Lemma joinAll_app (l1 l2 : list string) :
  joinAll (l1 ++ l2) = joinAll l1 +:+ joinAll l2.
Proof.
  induction l1 as [|x l1 IH]; [done|].
  cbn [List.app joinAll foldr]. unfold joinAll in IH. rewrite IH.
  symmetry. apply app_assoc_s.
Qed.

(** * The renderer *)

Lemma fold_dns (l : list string) (config : string) :
  fold_left (fun config ns => config +:+ ("DNS=" +:+ ns +:+ nl)) l config
  = config +:+ joinAll (map (fun ns => "DNS=" +:+ ns +:+ nl) l).
Proof.
  revert config. induction l as [|ns l IH]; intros config.
  - cbn. by rewrite app_nil_r_s.
  - cbn [fold_left map joinAll foldr]. rewrite IH.
    by rewrite app_assoc_s.
Qed.

Lemma subnetStep_eq (v4 v6 : bool) (config : string) (s : Subnet.t) :
  subnetStep (v4, v6, config) s
  = (v4 || dhcpIpv4 s, v6 || dhcpIpv6 s,
     config +:+ joinAll (subnetDirectives s)).
Proof.
  unfold subnetStep, dhcpIpv4, dhcpIpv6, subnetDirectives.
  rewrite fold_dns.
  destruct (String.eqb (Subnet.Type_ s) "dhcp");
    destruct (negb (String.eqb (Subnet.Address s) ""));
    destruct (negb (String.eqb (Subnet.Gateway s) ""));
    cbn [andb orb app]; rewrite ?orb_false_r, ?joinAll_app;
    cbn [joinAll foldr]; rewrite ?app_nil_r_s, ?app_assoc_s; reflexivity.
Qed.

Lemma fold_subnetStep (l : list Subnet.t) (v4 v6 : bool) (config : string) :
  fold_left subnetStep l (v4, v6, config)
  = (v4 || existsb dhcpIpv4 l, v6 || existsb dhcpIpv6 l,
     config +:+ joinAll (flat_map subnetDirectives l)).
Proof.
  revert v4 v6 config. induction l as [|s l IH]; intros v4 v6 config.
  - cbn. by rewrite !orb_false_r, app_nil_r_s.
  - cbn [fold_left existsb flat_map]. rewrite subnetStep_eq, IH.
    by rewrite joinAll_app, app_assoc_s, !orb_assoc.
Qed.

Lemma configHeader_eq (entry : NetworkConfigEntry.t) :
  configHeader entry = joinAll (headerDirectives entry).
Proof.
  unfold configHeader, headerDirectives. cbn [joinAll foldr].
  by rewrite !app_assoc_s, ?app_nil_r_s.
Qed.

Lemma wantDHCP_eq (entry : NetworkConfigEntry.t) :
  wantDHCP entry
  = (existsb dhcpIpv4 (NetworkConfigEntry.Subnets entry),
     existsb dhcpIpv6 (NetworkConfigEntry.Subnets entry)).
Proof. unfold wantDHCP, scanSubnets. by rewrite fold_subnetStep. Qed.

Lemma flagsAfter_eq (entry : NetworkConfigEntry.t) (k : nat) :
  flagsAfter entry k
  = (existsb dhcpIpv4 (take k (NetworkConfigEntry.Subnets entry)),
     existsb dhcpIpv6 (take k (NetworkConfigEntry.Subnets entry))).
Proof. unfold flagsAfter. by rewrite fold_subnetStep. Qed.

Lemma existsb_take_mono {A} (f : A -> bool) (l : list A) (j k : nat) :
  (j <= k)%nat -> existsb f (take j l) = true -> existsb f (take k l) = true.
Proof.
  intros Hjk. rewrite !existsb_exists. intros (x & Hin & Hx).
  exists x. split; [|done].
  apply list_elem_of_In. apply list_elem_of_In in Hin.
  apply elem_of_take in Hin as (i & Hi & Hlt).
  apply elem_of_take. exists i. split; [done|lia].
Qed.

Lemma renderConfig_eq (entry : NetworkConfigEntry.t) :
  renderConfig entry = joinAll (configDirectives entry).
Proof.
  unfold configDirectives. rewrite wantDHCP_eq.
  unfold renderConfig, scanSubnets. rewrite fold_subnetStep.
  rewrite !joinAll_app, configHeader_eq. cbn [orb].
  destruct (existsb dhcpIpv4 _), (existsb dhcpIpv6 _);
    cbn [dhcpDirectives joinAll foldr];
    rewrite ?app_nil_r_s, ?app_assoc_s; reflexivity.
Qed.

Lemma subnetDirectives_no_dhcp (s : Subnet.t) :
  List.filter isDHCPDirective (subnetDirectives s) = [].
Proof.
  unfold subnetDirectives. rewrite !List.filter_app.
  assert (List.filter isDHCPDirective
            (map (fun ns => "DNS=" +:+ ns +:+ nl) (Subnet.DNSNameservers s)) = [])
    as ->.
  { induction (Subnet.DNSNameservers s) as [|ns l IH]; [done|]. cbn. exact IH. }
  destruct (negb _), (negb _); reflexivity.
Qed.

Lemma flat_subnetDirectives_no_dhcp (l : list Subnet.t) :
  List.filter isDHCPDirective (flat_map subnetDirectives l) = [].
Proof.
  induction l as [|s l IH]; [done|].
  cbn [flat_map]. by rewrite List.filter_app, subnetDirectives_no_dhcp, IH.
Qed.

(** ** The lines of a rendering *)

Lemma linesOf_cons (s : string) : exists l rest, linesOf s = l :: rest.
Proof.
  induction s as [|a s (l & rest & IH)]; [by eexists _, _|].
  cbn [linesOf]. rewrite IH. destruct (Ascii.eqb a "010"); by eexists _, _.
Qed.

(** The lines of two texts joined by a line break. *)
Lemma linesOf_break (s t : string) :
  linesOf (s +:+ nl +:+ t) = linesOf s ++ linesOf t.
Proof.
  induction s as [|a s IH]; [done|].
  change (String a s +:+ nl +:+ t) with (String a (s +:+ nl +:+ t)).
  cbn [linesOf]. rewrite IH.
  destruct (Ascii.eqb a "010"); [done|].
  by destruct (linesOf_cons s) as (l & rest & ->).
Qed.

Lemma linesOf_single (s : string) : hasNewline s = false -> linesOf s = [s].
Proof.
  induction s as [|a s IH]; [done|]. cbn [hasNewline linesOf].
  intros [Ha Hs]%orb_false_iff. by rewrite Ha, IH.
Qed.

(** The lines of a text with something without a line break before it. *)
Lemma linesOf_label (p v : string) :
  hasNewline p = false ->
  linesOf (p +:+ v) = (p +:+ hd "" (linesOf v)) :: tail (linesOf v).
Proof.
  induction p as [|a p IH]; intros Hp.
  - destruct (linesOf_cons v) as (l & rest & Hl). by rewrite Hl.
  - cbn [hasNewline] in Hp. apply orb_false_iff in Hp as [Ha Hp].
    change (String a p +:+ v) with (String a (p +:+ v)).
    cbn [linesOf]. by rewrite Ha, IH.
Qed.

Lemma linesOf_joinAll (texts : list string) :
  linesOf (joinAll (map (fun t => t +:+ nl) texts))
  = flat_map linesOf texts ++ [""].
Proof.
  induction texts as [|t texts IH]; [done|].
  cbn [map joinAll foldr flat_map]. fold (joinAll (map (fun t => t +:+ nl) texts)).
  by rewrite app_assoc_s, linesOf_break, IH, app_assoc.
Qed.

Lemma configDirectives_lines (entry : NetworkConfigEntry.t) :
  configDirectives entry = map (fun t => t +:+ nl) (configLines entry).
Proof.
  unfold configDirectives, configLines. rewrite !map_app.
  assert (headerDirectives entry = map (fun t => t +:+ nl) (headerLines entry))
    as -> by (unfold headerDirectives, headerLines; cbn [map];
              by rewrite app_assoc_s).
  assert (dhcpDirectives (wantDHCP entry)
          = map (fun t => t +:+ nl) (dhcpLines (wantDHCP entry))) as ->
    by by destruct (wantDHCP entry) as [[] []].
  assert (flat_map subnetDirectives (NetworkConfigEntry.Subnets entry)
          = map (fun t => t +:+ nl)
              (flat_map subnetLines (NetworkConfigEntry.Subnets entry))) as ->;
    [|done].
  induction (NetworkConfigEntry.Subnets entry) as [|s l IH]; [done|].
  cbn [flat_map]. rewrite map_app, <- IH.
  assert (subnetDirectives s = map (fun t => t +:+ nl) (subnetLines s)) as ->;
    [|done].
  unfold subnetDirectives, subnetLines. rewrite !map_app, map_map.
  assert (map (fun ns => "DNS=" +:+ ns +:+ nl) (Subnet.DNSNameservers s)
          = map (fun x => ("DNS=" +:+ x) +:+ nl) (Subnet.DNSNameservers s))
    as -> by (apply map_ext; intros ns; by rewrite app_assoc_s).
  destruct (negb _), (negb _); cbn [map]; by rewrite ?app_assoc_s.
Qed.

(** The lines of a rendering. *)
Lemma renderConfig_lines (entry : NetworkConfigEntry.t) :
  linesOf (renderConfig entry) = flat_map linesOf (configLines entry) ++ [""].
Proof.
  by rewrite renderConfig_eq, configDirectives_lines, linesOf_joinAll.
Qed.

(** The [DHCP=] lines of a labelled value are lines the value carries. *)
Lemma labelled_dhcp (p v : string) :
  hasNewline p = false -> (forall x, isDHCPLine (p +:+ x) = false) ->
  List.filter isDHCPLine (linesOf (p +:+ v))
  = List.filter isDHCPLine (carriedLines v).
Proof.
  intros Hp Hl. rewrite linesOf_label by done. cbn [List.filter].
  by rewrite Hl.
Qed.

Lemma carriedLines_empty : carriedLines "" = [].
Proof. reflexivity. Qed.

Lemma subnetLines_dhcp (s : Subnet.t) :
  List.filter isDHCPLine (flat_map linesOf (subnetLines s))
  = List.filter isDHCPLine (flat_map carriedLines (subnetValues s)).
Proof.
  unfold subnetLines, subnetValues. cbn [flat_map].
  rewrite !flat_map_app, !List.filter_app. f_equal; [|f_equal].
  - destruct (String.eqb_spec (Subnet.Address s) "") as [->|_]; [done|].
    cbn [negb flat_map]. rewrite app_nil_r. by apply labelled_dhcp.
  - destruct (String.eqb_spec (Subnet.Gateway s) "") as [->|_]; [done|].
    cbn [negb flat_map]. rewrite app_nil_r. by apply labelled_dhcp.
  - induction (Subnet.DNSNameservers s) as [|ns l IH]; [done|].
    cbn [map flat_map]. rewrite !List.filter_app, IH. f_equal.
    by apply labelled_dhcp.
Qed.

Lemma dhcpLines_lines (want : bool * bool) :
  flat_map linesOf (dhcpLines want) = dhcpLines want.
Proof. by destruct want as [[] []]. Qed.

Lemma dhcpLines_dhcp (want : bool * bool) :
  List.filter isDHCPLine (dhcpLines want) = dhcpLines want.
Proof. by destruct want as [[] []]. Qed.

(** The [DHCP=] lines of a rendering: those the values carry, then the one
    of the flags. *)
Lemma renderConfig_dhcp_lines (entry : NetworkConfigEntry.t) :
  List.filter isDHCPLine (linesOf (renderConfig entry))
  = List.filter isDHCPLine (flat_map carriedLines (entryValues entry))
    ++ dhcpLines (wantDHCP entry).
Proof.
  assert (List.filter isDHCPLine (flat_map linesOf (headerLines entry))
          = List.filter isDHCPLine
              (carriedLines (NetworkConfigEntry.MACAddress entry))) as H1.
  { unfold headerLines. cbn [flat_map]. rewrite !List.filter_app.
    rewrite (labelled_dhcp "MACAddress=") by done.
    assert (List.filter isDHCPLine (linesOf "[Match]") = []) as ->
      by reflexivity.
    assert (List.filter isDHCPLine (linesOf "") = []) as -> by reflexivity.
    assert (List.filter isDHCPLine (linesOf "[Network]") = []) as ->
      by reflexivity.
    assert (List.filter isDHCPLine (linesOf "LinkLocalAddressing=yes") = [])
      as -> by reflexivity.
    cbn [app List.filter]. by rewrite app_nil_r. }
  assert (List.filter isDHCPLine
            (flat_map linesOf
               (flat_map subnetLines (NetworkConfigEntry.Subnets entry)))
          = List.filter isDHCPLine
              (flat_map carriedLines
                 (flat_map subnetValues (NetworkConfigEntry.Subnets entry))))
    as H2.
  { induction (NetworkConfigEntry.Subnets entry) as [|s l IH]; [done|].
    cbn [flat_map].
    by rewrite !flat_map_app, !List.filter_app, IH, subnetLines_dhcp. }
  rewrite renderConfig_lines. unfold configLines, entryValues.
  cbn [flat_map].
  rewrite !flat_map_app, !List.filter_app, H1, H2, dhcpLines_lines,
    dhcpLines_dhcp.
  cbn [List.filter isDHCPLine HasPrefix String.prefix].
  by rewrite app_nil_r, app_assoc.
Qed.

Lemma singleLined_carried (entry : NetworkConfigEntry.t) :
  singleLined entry -> flat_map carriedLines (entryValues entry) = [].
Proof.
  unfold singleLined. induction 1 as [|v l Hv _ IH]; [done|].
  cbn [flat_map]. rewrite IH. unfold carriedLines.
  by rewrite (linesOf_single v Hv).
Qed.

Lemma hasNewline_app (a b : string) :
  hasNewline (a +:+ b) = hasNewline a || hasNewline b.
Proof.
  induction a as [|x a IH]; [done|].
  change (hasNewline (String x a +:+ b))
    with (Ascii.eqb x "010" || hasNewline (a +:+ b)).
  cbn [hasNewline]. by rewrite IH, orb_assoc.
Qed.

Lemma singleLined_lines (entry : NetworkConfigEntry.t) :
  singleLined entry -> flat_map linesOf (configLines entry) = configLines entry.
Proof.
  intros Hs.
  assert (Forall (fun t => hasNewline t = false) (configLines entry)) as Hall.
  { unfold singleLined, entryValues in Hs. apply Forall_cons in Hs as [Hm Hs].
    unfold configLines. apply Forall_app. split; [|apply Forall_app; split].
    - unfold headerLines. repeat constructor. by rewrite hasNewline_app, Hm.
    - induction (NetworkConfigEntry.Subnets entry) as [|s l IH]; [constructor|].
      cbn [flat_map] in *. apply Forall_app in Hs as [Hv Hs].
      apply Forall_app. split; [|by apply IH].
      unfold subnetValues in Hv. apply Forall_cons in Hv as [Ha Hv].
      apply Forall_cons in Hv as [Hg Hv]. unfold subnetLines.
      apply Forall_app. split; [|apply Forall_app; split].
      + destruct (negb _); repeat constructor. by rewrite hasNewline_app, Ha.
      + destruct (negb _); repeat constructor. by rewrite hasNewline_app, Hg.
      + apply Forall_map. eapply Forall_impl; [exact Hv|].
        intros ns Hns. cbn beta. by rewrite hasNewline_app, Hns.
    - destruct (wantDHCP entry) as [[] []]; by repeat constructor. }
  induction Hall as [|t l Ht _ IH]; [done|].
  cbn [flat_map]. by rewrite IH, (linesOf_single t Ht).
Qed.

(** C2 (as amended): the two want-flags of an entry are the disjunction,
    over its subnets of type "dhcp", of the ipv4 and of the ipv6 flag; along
    the subnet loop a flag that is set stays set; the rendering is the header,
    then what each subnet appends, then the DHCP directive, which is
    [DHCP=yes] when both flags are set, [DHCP=ipv4] for v4 alone, [DHCP=ipv6]
    for v6 alone, and absent when neither is set.  The lines of the rendered
    text that start with [DHCP=] are those that the values of the entry carry
    after a line break, followed by the line of the flags; so when no MAC
    address, address, gateway or name server of the entry has a line break,
    the lines of the text are the directives, and the line of the flags is
    the only [DHCP=] line, or there is none when neither flag is set. *)
Theorem dhcp_directive_from_flags (entry : NetworkConfigEntry.t) :
  let subnets := NetworkConfigEntry.Subnets entry in
  wantDHCP entry = (existsb dhcpIpv4 subnets, existsb dhcpIpv6 subnets)
  /\ flagsAfter entry (length subnets) = wantDHCP entry
  /\ (forall j k : nat, (j <= k)%nat ->
        ((flagsAfter entry j).1 = true -> (flagsAfter entry k).1 = true)
        /\ ((flagsAfter entry j).2 = true -> (flagsAfter entry k).2 = true))
  /\ renderConfig entry = joinAll (configDirectives entry)
  /\ List.filter isDHCPDirective (configDirectives entry)
     = match wantDHCP entry with
       | (true, true) => ["DHCP=yes" +:+ nl]
       | (true, false) => ["DHCP=ipv4" +:+ nl]
       | (false, true) => ["DHCP=ipv6" +:+ nl]
       | (false, false) => []
       end
  /\ List.filter isDHCPLine (linesOf (renderConfig entry))
     = List.filter isDHCPLine (flat_map carriedLines (entryValues entry))
       ++ dhcpLines (wantDHCP entry)
  /\ (singleLined entry ->
      linesOf (renderConfig entry) = configLines entry ++ [""]
      /\ List.filter isDHCPLine (linesOf (renderConfig entry))
         = dhcpLines (wantDHCP entry)).
Proof.
  intros subnets. split; [apply wantDHCP_eq|].
  split. { rewrite flagsAfter_eq, wantDHCP_eq. by rewrite firstn_all. }
  split. { intros j k Hjk. rewrite !flagsAfter_eq. cbn [fst snd].
           split; by apply existsb_take_mono. }
  split; [apply renderConfig_eq|].
  split.
  { unfold configDirectives. rewrite !List.filter_app.
    rewrite flat_subnetDirectives_no_dhcp.
    assert (List.filter isDHCPDirective (headerDirectives entry) = []) as ->
      by reflexivity.
    destruct (wantDHCP entry) as [[] []]; reflexivity. }
  split; [apply renderConfig_dhcp_lines|].
  intros Hs. split.
  - by rewrite renderConfig_lines, singleLined_lines.
  - by rewrite renderConfig_dhcp_lines, singleLined_carried.
Qed.

(** * The interface scan *)

Lemma scanLinks_cons (l : Link) (links : list Link) (firstEn : option Link)
    (name : string) :
  scanLinks (l :: links) firstEn name
  = if ethernetLike l then
      if linkUp l then (true, firstEn, name)
      else match firstEn with
           | None => scanLinks links (Some l) (LinkAttrs.Name (Attrs l))
           | Some _ => scanLinks links firstEn name
           end
    else scanLinks links firstEn name.
Proof. reflexivity. Qed.

Lemma scanLinks_eq (links : list Link) (firstEn : option Link) (name : string) :
  scanLinks links firstEn name
  = (existsb (fun l => ethernetLike l && linkUp l) links,
     match firstEn with
     | Some _ => firstEn
     | None => head (List.filter ethernetLike (scanned links))
     end,
     match firstEn with
     | Some _ => name
     | None => from_option LinkAttrs.Name name
                 (head (List.filter ethernetLike (scanned links)))
     end).
Proof.
  revert firstEn name. induction links as [|l links IH]; intros firstEn name.
  - by destruct firstEn.
  - rewrite scanLinks_cons. cbn [existsb scanned List.filter].
    destruct (ethernetLike l) eqn:He, (linkUp l) eqn:Hu; cbn [andb orb].
    + by destruct firstEn.
    + cbn [List.filter]. rewrite He. destruct firstEn; rewrite IH; reflexivity.
    + cbn [List.filter]. rewrite He. rewrite IH. reflexivity.
    + cbn [List.filter]. rewrite He. rewrite IH. reflexivity.
Qed.

Lemma scanned_stop (l1 l2 : list Link) (x : Link) :
  ethernetLike x && linkUp x = true -> scanned (l1 ++ x :: l2) = scanned (l1 ++ [x]).
Proof.
  intros Hx. induction l1 as [|l l1 IH]; cbn.
  - by rewrite Hx.
  - by rewrite IH.
Qed.

(** C3: [haveLink] says whether some interface named "en..." or "eth..." is
    up; the fallback is the first such interface met before the scan stops,
    and is never replaced; the scan stops at the first such interface that is
    up, so what comes after it changes nothing; and without such an
    interface there is neither link nor fallback. *)
Theorem link_prober_scan (links : list Link) :
  let '(haveLink, firstEn, firstEnName) := probeLinks links in
  haveLink = existsb (fun l => ethernetLike l && linkUp l) links
  /\ firstEn = head (List.filter ethernetLike (scanned links))
  /\ firstEnName = from_option LinkAttrs.Name "" firstEn
  /\ (forall l1 x l2, links = l1 ++ x :: l2 ->
        ethernetLike x = true -> linkUp x = true ->
        haveLink = true /\ probeLinks links = probeLinks (l1 ++ [x]))
  /\ (Forall (fun l => ethernetLike l = false) links ->
        haveLink = false /\ firstEn = None).
Proof.
  unfold probeLinks. rewrite scanLinks_eq.
  split; [done|]. split; [done|]. split; [done|]. split.
  - intros l1 x l2 -> He Hu. split.
    + apply existsb_exists. exists x. split; [|by rewrite He, Hu].
      apply in_or_app. right. by left.
    + rewrite scanLinks_eq. rewrite (scanned_stop l1 l2 x) by (by rewrite He, Hu).
      do 2 f_equal.
      rewrite !existsb_app. cbn [existsb]. rewrite He, Hu. cbn [andb orb].
      by rewrite !orb_true_r.
  - intros Hall. split.
    + apply not_true_is_false. rewrite existsb_exists. intros (x & Hin & Hx).
      rewrite Forall_forall in Hall. apply list_elem_of_In in Hin.
      specialize (Hall x Hin). by rewrite Hall in Hx.
    + induction Hall as [|l ls Hl Hall IH]; [done|].
      cbn. rewrite Hl. cbn. rewrite Hl. exact IH.
Qed.

(** * The monad *)

Lemma run_bind {A B} (m : M A) (f : A -> M B) (w : World) :
  (m ≫= f) w = f (m w).1 (m w).2.
Proof. reflexivity. Qed.

Lemma emitted_eq {A} (m : M A) (w : World) (evs : list Event) :
  w_trace (m w).2 = w_trace w ++ evs -> emitted m w = evs.
Proof. intros H. unfold emitted. rewrite H. apply drop_app_length. Qed.

Lemma traced_eq {A} (m : M A) (w : World) :
  Traced m -> w_trace (m w).2 = w_trace w ++ emitted m w.
Proof.
  intros Hm. destruct (Hm w) as [evs Hevs].
  by rewrite (emitted_eq m w evs Hevs).
Qed.

Lemma Traced_ret {A} (a : A) : Traced (mret a : M A).
Proof. intros w. reflexivity. Qed.

Lemma Traced_bind {A B} (m : M A) (f : A -> M B) :
  Traced m -> (forall a, Traced (f a)) -> Traced (m ≫= f).
Proof.
  intros Hm Hf w. rewrite run_bind.
  etrans; [apply Hm|]. apply Hf.
Qed.

Lemma emitted_ret {A} (a : A) (w : World) : emitted (mret a : M A) w = [].
Proof. apply emitted_eq. by rewrite app_nil_r. Qed.

Lemma emitted_bind {A B} (m : M A) (f : A -> M B) (w : World) :
  Traced m -> (forall a, Traced (f a)) ->
  emitted (m ≫= f) w = emitted m w ++ emitted (f (m w).1) (m w).2.
Proof.
  intros Hm Hf. apply emitted_eq. rewrite run_bind.
  rewrite (traced_eq (f (m w).1)) by apply Hf.
  rewrite (traced_eq m w Hm). by rewrite app_assoc.
Qed.

Lemma Traced_forRange {A S} (xs : list A) (body : S -> A -> M S) (s : S) :
  (forall s x, Traced (body s x)) -> Traced (forRange xs body s).
Proof.
  intros Hbody. revert s. induction xs as [|x xs IH]; intros s.
  - apply Traced_ret.
  - cbn [forRange]. apply Traced_bind; [apply Hbody|apply IH].
Qed.

Lemma emitted_forRange_cons {A S} (x : A) (xs : list A) (body : S -> A -> M S)
    (s : S) (w : World) :
  (forall s x, Traced (body s x)) ->
  emitted (forRange (x :: xs) body s) w
  = emitted (body s x) w
    ++ emitted (forRange xs body (body s x w).1) (body s x w).2.
Proof.
  intros Hbody. cbn [forRange]. apply emitted_bind; [apply Hbody|].
  intros a. by apply Traced_forRange.
Qed.

Ltac msimpl :=
  unfold mbind, M_bind, mret, M_ret, Printf, emit, call, callUnless;
  cbn [fst snd w_fs w_dirs w_trace].

Lemma callsOf_app (l1 l2 : list Event) :
  callsOf (l1 ++ l2) = callsOf l1 ++ callsOf l2.
Proof. apply map_app. Qed.

Lemma callsOf_cons (ev : Event) (l : list Event) :
  callsOf (ev :: l) = ev_call ev :: callsOf l.
Proof. reflexivity. Qed.

Section Run.

Context (h : Host).

Lemma Traced_call (c : Call) : Traced (call h c).
Proof. intros w. by eexists. Qed.

Lemma Traced_emit (c : Call) : Traced (emit c).
Proof. intros w. by eexists. Qed.

Lemma emitted_call (c : Call) (w : World) :
  emitted (call h c) w = [Ev c (host_err h (length (w_trace w)) c)].
Proof. by apply emitted_eq. Qed.

Lemma emitted_emit (c : Call) (w : World) : emitted (emit c) w = [Ev c false].
Proof. by apply emitted_eq. Qed.

(** ** One write *)

Lemma writeStep_skip (ok : bool) (e : NetworkConfigEntry.t) (w : World) :
  isPhysical e = false -> writeStep h ok e w = (ok, w).
Proof. unfold writeStep, isPhysical. by intros ->. Qed.

Lemma writeStep_run (ok : bool) (e : NetworkConfigEntry.t) (w : World) :
  isPhysical e = true ->
  let c := CallWriteFile (entryPath e) (renderConfig e) 420 in
  let err := writeErr h w (entryPath e) (renderConfig e) in
  (writeStep h ok e w).1 = (if err then false else ok)
  /\ w_fs (writeStep h ok e w).2
     = (if err then
          if isDirectory (entryPath e) (w_fs w) (w_dirs w) then w_fs w
          else
            match host_short h (length (w_trace w)) with
            | None => w_fs w
            | Some k =>
                <[entryPath e := String.substring 0 k (renderConfig e)]> (w_fs w)
            end
        else <[entryPath e := renderConfig e]> (w_fs w))
  /\ w_dirs (writeStep h ok e w).2 = w_dirs w
  /\ w_trace (writeStep h ok e w).2
     = w_trace w ++ Ev c err
         :: (if err then [Ev (CallPrintf (LogWriting (entryPath e))) false]
             else []).
Proof.
  intros Hp c err. unfold writeStep, isPhysical in *. rewrite Hp. cbn [negb].
  rewrite run_bind. unfold WriteFile. msimpl.
  fold (entryPath e). subst c err. unfold writeErr.
  destruct (isDirectory _ _ _ || host_err h _ _); msimpl; [|done].
  by rewrite <- app_assoc.
Qed.

Lemma Traced_writeStep (ok : bool) (e : NetworkConfigEntry.t) :
  Traced (writeStep h ok e).
Proof.
  intros w. destruct (isPhysical e) eqn:Hp.
  - destruct (writeStep_run ok e w Hp) as (_ & _ & _ & ->). by eexists.
  - by rewrite writeStep_skip.
Qed.

Lemma emitted_writeStep (ok : bool) (e : NetworkConfigEntry.t) (w : World) :
  emitted (writeStep h ok e) w
  = if isPhysical e then
      let c := CallWriteFile (entryPath e) (renderConfig e) 420 in
      let err := writeErr h w (entryPath e) (renderConfig e) in
      Ev c err
        :: (if err then [Ev (CallPrintf (LogWriting (entryPath e))) false]
            else [])
    else [].
Proof.
  destruct (isPhysical e) eqn:Hp.
  - destruct (writeStep_run ok e w Hp) as (_ & _ & _ & Ht). by apply emitted_eq.
  - apply emitted_eq. rewrite writeStep_skip by done. by rewrite app_nil_r.
Qed.

(** ** One removal *)

Lemma removeStep_skip (ok : bool) (name : string) (w : World) :
  isGenerated name = false -> removeStep h ok name w = (ok, w).
Proof. unfold removeStep. by intros ->. Qed.

Lemma removeStep_run (ok : bool) (name : string) (w : World) :
  isGenerated name = true ->
  let c := CallRemove (childPath name) in
  let err := removeErr h w (childPath name) in
  (removeStep h ok name w).1 = (if err then false else ok)
  /\ w_fs (removeStep h ok name w).2
     = (if err then w_fs w else delete (childPath name) (w_fs w))
  /\ w_dirs (removeStep h ok name w).2
     = (if err then w_dirs w else w_dirs w ∖ {[childPath name]})
  /\ w_trace (removeStep h ok name w).2
     = w_trace w ++ Ev c err
         :: (if err then [Ev (CallPrintf (LogRemoving (childPath name))) false]
             else []).
Proof.
  intros Hg c err. unfold removeStep. rewrite Hg.
  rewrite run_bind. unfold Remove. msimpl.
  fold (childPath name). subst c err. unfold removeErr.
  destruct (nonEmptyDir _ _ _ || host_err h _ _); msimpl; [|done].
  by rewrite <- app_assoc.
Qed.

Lemma Traced_removeStep (ok : bool) (name : string) :
  Traced (removeStep h ok name).
Proof.
  intros w. destruct (isGenerated name) eqn:Hp.
  - destruct (removeStep_run ok name w Hp) as (_ & _ & _ & ->). by eexists.
  - by rewrite removeStep_skip.
Qed.

Lemma emitted_removeStep (ok : bool) (name : string) (w : World) :
  emitted (removeStep h ok name) w
  = if isGenerated name then
      let c := CallRemove (childPath name) in
      let err := removeErr h w (childPath name) in
      Ev c err
        :: (if err then [Ev (CallPrintf (LogRemoving (childPath name))) false]
            else [])
    else [].
Proof.
  destruct (isGenerated name) eqn:Hp.
  - destruct (removeStep_run ok name w Hp) as (_ & _ & _ & Ht). by apply emitted_eq.
  - apply emitted_eq. rewrite removeStep_skip by done. by rewrite app_nil_r.
Qed.

(** ** Loops of attempts

    Both loops of [writeConfigs] have the same shape: an element is skipped,
    or one call is attempted for it and a failure is logged and clears
    [ok]. *)

Section AttemptLoop.

Context {X : Type} (body : bool -> X -> M bool) (sel : X -> bool)
        (callOf : X -> Call) (logOf : X -> LogMsg) (errOf : World -> X -> bool).

Hypothesis body_skip :
  forall ok x w, sel x = false -> body ok x w = (ok, w).

Hypothesis body_run :
  forall ok x w, sel x = true ->
    let err := errOf w x in
    (body ok x w).1 = (if err then false else ok)
    /\ w_trace (body ok x w).2
       = w_trace w ++ Ev (callOf x) err
           :: (if err then [Ev (CallPrintf (logOf x)) false] else []).

Lemma body_traced (ok : bool) (x : X) : Traced (body ok x).
Proof.
  intros w. destruct (sel x) eqn:Hs.
  - destruct (body_run ok x w Hs) as [_ ->]. by eexists.
  - by rewrite body_skip.
Qed.

Lemma body_emitted (ok : bool) (x : X) (w : World) :
  emitted (body ok x) w
  = if sel x then
      let err := errOf w x in
      Ev (callOf x) err
        :: (if err then [Ev (CallPrintf (logOf x)) false] else [])
    else [].
Proof.
  destruct (sel x) eqn:Hs.
  - destruct (body_run ok x w Hs) as [_ Ht]. by apply emitted_eq.
  - apply emitted_eq. rewrite body_skip by done. by rewrite app_nil_r.
Qed.

Lemma loop_traced (xs : list X) (ok : bool) : Traced (forRange xs body ok).
Proof. apply Traced_forRange, body_traced. Qed.

Lemma loop_cons (x : X) (xs : list X) (ok : bool) (w : World) :
  forRange (x :: xs) body ok w = forRange xs body (body ok x w).1 (body ok x w).2.
Proof. reflexivity. Qed.

Lemma loop_emitted_nil (ok : bool) (w : World) :
  emitted (forRange [] body ok) w = [].
Proof. apply (emitted_ret ok). Qed.

Lemma loop_emitted_cons (x : X) (xs : list X) (ok : bool) (w : World) :
  emitted (forRange (x :: xs) body ok) w
  = emitted (body ok x) w
    ++ emitted (forRange xs body (body ok x w).1) (body ok x w).2.
Proof. apply emitted_forRange_cons, body_traced. Qed.

(** The loop returns [true] exactly when it started from [true] and no
    call failed. *)
Lemma loop_result (xs : list X) (ok : bool) (w : World) :
  (forRange xs body ok w).1
  = ok && forallb ev_ok (emitted (forRange xs body ok) w).
Proof.
  revert ok w. induction xs as [|x xs IH]; intros ok w.
  - rewrite loop_emitted_nil. cbn. by rewrite andb_true_r.
  - rewrite loop_cons, loop_emitted_cons, forallb_app, IH, body_emitted.
    destruct (sel x) eqn:Hs.
    + destruct (body_run ok x w Hs) as [-> _]. cbn zeta.
      destruct (errOf w x); cbn.
      * by rewrite andb_false_r.
      * done.
    + by rewrite body_skip.
Qed.

(** Every selected element gets its call, in order, whatever failed
    before. *)
Lemma loop_calls (xs : list X) (ok : bool) (w : World) :
  List.filter (fun c => negb (isLogCall c))
              (callsOf (emitted (forRange xs body ok) w))
  = List.filter (fun c => negb (isLogCall c)) (map callOf (List.filter sel xs)).
Proof.
  revert ok w. induction xs as [|x xs IH]; intros ok w.
  - by rewrite loop_emitted_nil.
  - rewrite loop_emitted_cons. unfold callsOf in *.
    rewrite map_app, List.filter_app, IH, body_emitted.
    cbn [List.filter]. destruct (sel x); [|done].
    cbn zeta. destruct (errOf w x);
      cbn; destruct (isLogCall (callOf x)); done.
Qed.

(** An event of the loop is the call of a selected element, or the log
    line of a failure. *)
Lemma loop_events (xs : list X) (ok : bool) (w : World) (ev : Event) :
  In ev (emitted (forRange xs body ok) w) ->
  exists x, In x xs /\ sel x = true
    /\ (ev_call ev = callOf x \/ ev = Ev (CallPrintf (logOf x)) false).
Proof.
  revert ok w. induction xs as [|x xs IH]; intros ok w.
  - by rewrite loop_emitted_nil.
  - rewrite loop_emitted_cons, in_app_iff, body_emitted. intros [Hin|Hin].
    + destruct (sel x) eqn:Hs; [|done]. exists x.
      split; [by left|]. split; [done|]. cbn zeta in Hin.
      destruct Hin as [<-|Hin]; [by left|].
      destruct (errOf w x); [|done].
      destruct Hin as [<-|[]]. by right.
    + destruct (IH _ _ Hin) as (y & Hy & Hrest). exists y.
      split; [by right|done].
Qed.

End AttemptLoop.

Lemma writeStep_body_run (ok : bool) (e : NetworkConfigEntry.t) (w : World) :
  isPhysical e = true ->
  let c := CallWriteFile (entryPath e) (renderConfig e) 420 in
  let err := writeErr h w (entryPath e) (renderConfig e) in
  (writeStep h ok e w).1 = (if err then false else ok)
  /\ w_trace (writeStep h ok e w).2
     = w_trace w ++ Ev c err
         :: (if err then [Ev (CallPrintf (LogWriting (entryPath e))) false]
             else []).
Proof. intros Hp. destruct (writeStep_run ok e w Hp) as (? & _ & _ & ?). done. Qed.

Lemma removeStep_body_run (ok : bool) (name : string) (w : World) :
  isGenerated name = true ->
  let c := CallRemove (childPath name) in
  let err := removeErr h w (childPath name) in
  (removeStep h ok name w).1 = (if err then false else ok)
  /\ w_trace (removeStep h ok name w).2
     = w_trace w ++ Ev c err
         :: (if err then [Ev (CallPrintf (LogRemoving (childPath name))) false]
             else []).
Proof. intros Hp. destruct (removeStep_run ok name w Hp) as (? & _ & _ & ?). done. Qed.

Lemma writeLoop_traced entries ok : Traced (writeLoop h entries ok).
Proof.
  apply (loop_traced (writeStep h) isPhysical writeCall
           (fun e => LogWriting (entryPath e))
           (fun w e => writeErr h w (entryPath e) (renderConfig e))
           writeStep_skip writeStep_body_run).
Qed.

Lemma writeLoop_emitted_cons e entries ok w :
  emitted (writeLoop h (e :: entries) ok) w
  = emitted (writeStep h ok e) w
    ++ emitted (writeLoop h entries (writeStep h ok e w).1) (writeStep h ok e w).2.
Proof.
  apply (loop_emitted_cons (writeStep h) isPhysical writeCall
           (fun e => LogWriting (entryPath e))
           (fun w e => writeErr h w (entryPath e) (renderConfig e))
           writeStep_skip writeStep_body_run).
Qed.

Lemma writeLoop_result entries ok w :
  (writeLoop h entries ok w).1 = ok && forallb ev_ok (emitted (writeLoop h entries ok) w).
Proof.
  apply (loop_result (writeStep h) isPhysical writeCall
           (fun e => LogWriting (entryPath e))
           (fun w e => writeErr h w (entryPath e) (renderConfig e))
           writeStep_skip writeStep_body_run).
Qed.

Lemma writeLoop_calls entries ok w :
  List.filter (fun c => negb (isLogCall c)) (callsOf (emitted (writeLoop h entries ok) w))
  = map writeCall (List.filter isPhysical entries).
Proof.
  unfold writeLoop.
  rewrite (loop_calls (writeStep h) isPhysical writeCall
             (fun e => LogWriting (entryPath e))
           (fun w e => writeErr h w (entryPath e) (renderConfig e))
           writeStep_skip writeStep_body_run).
  induction (List.filter isPhysical entries) as [|e l IH]; [done|].
  cbn. by rewrite IH.
Qed.

Lemma writeLoop_events entries ok w ev :
  In ev (emitted (writeLoop h entries ok) w) ->
  exists e, In e entries /\ isPhysical e = true
    /\ (ev_call ev = writeCall e \/ ev = Ev (CallPrintf (LogWriting (entryPath e))) false).
Proof.
  apply (loop_events (writeStep h) isPhysical writeCall
           (fun e => LogWriting (entryPath e))
           (fun w e => writeErr h w (entryPath e) (renderConfig e))
           writeStep_skip writeStep_body_run).
Qed.

(** When no write fails, the store is the old one with every rendered
    unit put in, in entry order. *)
Lemma writeLoop_fs_ok entries ok w :
  forallb ev_ok (emitted (writeLoop h entries ok) w) = true ->
  w_fs (writeLoop h entries ok w).2 = writeAll entries (w_fs w).
Proof.
  revert ok w. induction entries as [|e entries IH]; intros ok w; [done|].
  rewrite writeLoop_emitted_cons, forallb_app, andb_true_iff.
  intros [H1 H2]. unfold writeLoop in *. cbn [forRange]. rewrite run_bind.
  rewrite IH by done. unfold writeAll. cbn [List.filter].
  rewrite emitted_writeStep in H1.
  destruct (isPhysical e) eqn:Hp.
  - destruct (writeStep_run ok e w Hp) as (_ & -> & _). cbn zeta in H1.
    destruct (writeErr h _ _ _); [done|]. done.
  - by rewrite writeStep_skip.
Qed.

(** In general the content of a path is decided by the last attempt to
    write it: untouched when there is none, the data when it succeeded. *)
Lemma writeLoop_last entries ok w path :
  match lastWrite path (emitted (writeLoop h entries ok) w) with
  | None => w_fs (writeLoop h entries ok w).2 !! path = w_fs w !! path
  | Some ev =>
      ev_err ev = false ->
      exists data perm, ev_call ev = CallWriteFile path data perm
        /\ w_fs (writeLoop h entries ok w).2 !! path = Some data
  end.
Proof.
  revert ok w. induction entries as [|e entries IH]; intros ok w.
  - unfold writeLoop. by rewrite loop_emitted_nil.
  - rewrite writeLoop_emitted_cons. unfold lastWrite in *.
    rewrite List.filter_app, last_app.
    specialize (IH (writeStep h ok e w).1 (writeStep h ok e w).2).
    change (writeLoop h (e :: entries) ok w)
      with (writeLoop h entries (writeStep h ok e w).1 (writeStep h ok e w).2).
    destruct (last (List.filter _ (emitted (writeLoop h entries _) _))) as [ev|];
      [exact IH|].
    rewrite IH. clear IH. rewrite emitted_writeStep.
    destruct (isPhysical e) eqn:Hp; [|by rewrite writeStep_skip].
    destruct (writeStep_run ok e w Hp) as (_ & -> & _). cbn zeta.
    destruct (String.eqb (entryPath e) path) eqn:Hpath.
    + apply String.eqb_eq in Hpath as <-.
      destruct (writeErr h _ _ _); cbn; rewrite String.eqb_refl; cbn.
      * done.
      * intros _. eexists _, _. split; [done|]. by rewrite lookup_insert_eq.
    + apply String.eqb_neq in Hpath.
      destruct (writeErr h _ _ _); cbn; apply String.eqb_neq in Hpath as Hb;
        rewrite Hb; cbn.
      * destruct (isDirectory _ _ _); [done|].
        destruct (host_short h _); [|done]. by rewrite lookup_insert_ne.
      * by rewrite lookup_insert_ne.
Qed.

Lemma removeLoop_traced names ok : Traced (removeLoop h names ok).
Proof.
  apply (loop_traced (removeStep h) isGenerated removeCall
           (fun n => LogRemoving (childPath n))
           (fun w n => removeErr h w (childPath n))
           removeStep_skip removeStep_body_run).
Qed.

Lemma removeLoop_emitted_cons n names ok w :
  emitted (removeLoop h (n :: names) ok) w
  = emitted (removeStep h ok n) w
    ++ emitted (removeLoop h names (removeStep h ok n w).1) (removeStep h ok n w).2.
Proof.
  apply (loop_emitted_cons (removeStep h) isGenerated removeCall
           (fun n => LogRemoving (childPath n))
           (fun w n => removeErr h w (childPath n))
           removeStep_skip removeStep_body_run).
Qed.

Lemma removeLoop_result names ok w :
  (removeLoop h names ok w).1 = ok && forallb ev_ok (emitted (removeLoop h names ok) w).
Proof.
  apply (loop_result (removeStep h) isGenerated removeCall
           (fun n => LogRemoving (childPath n))
           (fun w n => removeErr h w (childPath n))
           removeStep_skip removeStep_body_run).
Qed.

Lemma removeLoop_calls names ok w :
  List.filter (fun c => negb (isLogCall c)) (callsOf (emitted (removeLoop h names ok) w))
  = map removeCall (List.filter isGenerated names).
Proof.
  unfold removeLoop.
  rewrite (loop_calls (removeStep h) isGenerated removeCall
             (fun n => LogRemoving (childPath n))
           (fun w n => removeErr h w (childPath n))
           removeStep_skip removeStep_body_run).
  induction (List.filter isGenerated names) as [|e l IH]; [done|].
  cbn. by rewrite IH.
Qed.

Lemma removeLoop_events names ok w ev :
  In ev (emitted (removeLoop h names ok) w) ->
  exists n, In n names /\ isGenerated n = true
    /\ (ev_call ev = removeCall n \/ ev = Ev (CallPrintf (LogRemoving (childPath n))) false).
Proof.
  apply (loop_events (removeStep h) isGenerated removeCall
           (fun n => LogRemoving (childPath n))
           (fun w n => removeErr h w (childPath n))
           removeStep_skip removeStep_body_run).
Qed.

Lemma removeLoop_fs_ok names ok w :
  forallb ev_ok (emitted (removeLoop h names ok) w) = true ->
  w_fs (removeLoop h names ok w).2 = cleanAll names (w_fs w).
Proof.
  revert ok w. induction names as [|n names IH]; intros ok w; [done|].
  rewrite removeLoop_emitted_cons, forallb_app, andb_true_iff.
  intros [H1 H2]. unfold removeLoop in *. cbn [forRange]. rewrite run_bind.
  rewrite IH by done. unfold cleanAll. cbn [List.filter].
  rewrite emitted_removeStep in H1.
  destruct (isGenerated n) eqn:Hp.
  - destruct (removeStep_run ok n w Hp) as (_ & -> & _). cbn zeta in H1.
    destruct (removeErr h _ _); [done|]. done.
  - by rewrite removeStep_skip.
Qed.

(** The cleanup only ever takes files away. *)
Lemma removeLoop_fs_sub names ok w path :
  w_fs (removeLoop h names ok w).2 !! path = None
  \/ w_fs (removeLoop h names ok w).2 !! path = w_fs w !! path.
Proof.
  revert ok w. induction names as [|n names IH]; intros ok w; [by right|].
  change (removeLoop h (n :: names) ok w)
    with (removeLoop h names (removeStep h ok n w).1 (removeStep h ok n w).2).
  destruct (IH (removeStep h ok n w).1 (removeStep h ok n w).2) as [H|H];
    [by left|]. rewrite H.
  destruct (isGenerated n) eqn:Hp; [|rewrite removeStep_skip by done; by right].
  destruct (removeStep_run ok n w Hp) as (_ & -> & _).
  destruct (removeErr h _ _); [by right|].
  destruct (decide (childPath n = path)) as [<-|Hne].
  - left. apply lookup_delete_eq.
  - right. by apply lookup_delete_ne.
Qed.

(** A file whose removal succeeded is gone when the loop is over. *)
Lemma removeLoop_removed names ok w path :
  In (Ev (CallRemove path) false) (emitted (removeLoop h names ok) w) ->
  w_fs (removeLoop h names ok w).2 !! path = None.
Proof.
  revert ok w. induction names as [|n names IH]; intros ok w.
  - unfold removeLoop. by rewrite loop_emitted_nil.
  - rewrite removeLoop_emitted_cons, in_app_iff.
    change (removeLoop h (n :: names) ok w)
      with (removeLoop h names (removeStep h ok n w).1 (removeStep h ok n w).2).
    intros [Hin|Hin]; [|by apply IH].
    destruct (removeLoop_fs_sub names (removeStep h ok n w).1
                (removeStep h ok n w).2 path) as [H|H]; [done|].
    rewrite H. rewrite emitted_removeStep in Hin.
    destruct (isGenerated n) eqn:Hp; [|done].
    destruct (removeStep_run ok n w Hp) as (_ & -> & _). cbn zeta in Hin.
    destruct (removeErr h _ _).
    + destruct Hin as [Hin|[Hin|[]]]; discriminate.
    + destruct Hin as [Hin|[]]. injection Hin as <-. apply lookup_delete_eq.
Qed.

(** ** Directory creation and cleanup (lines 57-77) *)

Lemma writeConfigs_split entries w :
  writeConfigs h entries w
  = writeLoop h entries (prepareDir h w).1 (prepareDir h w).2.
Proof.
  unfold writeConfigs, prepareDir, writeLoop. rewrite !run_bind.
  by destruct (forRange entries _ _ _).
Qed.

(** What [os.MkdirAll] creates is not in the directory. *)
Lemma mkdir_above (p : string) :
  p ∈ (list_to_set (ConfigDir :: ancestors ConfigDir) : gset string) ->
  entryName ConfigDir p = None.
Proof.
  rewrite elem_of_list_to_set.
  change (ancestors ConfigDir) with ["/run"; "/run/systemd"].
  intros H. repeat (apply elem_of_cons in H as [->|H]; [reflexivity|]).
  by apply elem_of_nil in H.
Qed.

Lemma dirEntries_mkdir (fs : gmap string string) (dirs : gset string) :
  dirEntries ConfigDir fs (list_to_set (ConfigDir :: ancestors ConfigDir) ∪ dirs)
  = dirEntries ConfigDir fs dirs.
Proof.
  unfold dirEntries. do 2 f_equal. apply set_eq. intros n.
  rewrite !elem_of_set_omap. split.
  - intros (p & Hp & Hn). exists p. split; [|done].
    apply elem_of_union in Hp as [Hp|Hp]; [apply elem_of_union; by left|].
    apply elem_of_union in Hp as [Hp|Hp]; [|apply elem_of_union; by right].
    apply mkdir_above in Hp. congruence.
  - intros (p & Hp & Hn). exists p. split; [|done].
    apply elem_of_union in Hp as [Hp|Hp]; apply elem_of_union; [by left|].
    right. apply elem_of_union. by right.
Qed.

Lemma prepareDir_run w :
  prepareDir h w
  = if readDirErr h w then
      (false,
       {| w_fs := w_fs w;
          w_dirs := w_dirs (cleanupStart h w);
          w_trace :=
            w_trace w ++ mkdirEvents h w
              ++ [Ev readDirCall true;
                  Ev (CallPrintf (LogReadingDirectory ConfigDir)) false] |})
    else (removeLoop h) (listed w) (negb (mkdirErr h w)) (cleanupStart h w).
Proof.
  unfold readDirErr, cleanupStart, mkdirEvents, mkdirErr, listed.
  unfold prepareDir. rewrite !run_bind. unfold ReadDir, MkdirAll. msimpl.
  fold mkdirCall readDirCall.
  destruct (host_err h (length (w_trace w)) mkdirCall); msimpl;
    rewrite <- ?app_assoc; cbn [app];
    destruct (host_err h _ readDirCall); msimpl;
    rewrite <- ?app_assoc, ?dirEntries_mkdir; reflexivity.
Qed.

Lemma prepareDir_emitted w :
  emitted (prepareDir h) w
  = mkdirEvents h w
    ++ (if readDirErr h w then
          [Ev readDirCall true;
           Ev (CallPrintf (LogReadingDirectory ConfigDir)) false]
        else
          Ev readDirCall false
            :: emitted (removeLoop h (listed w) (negb (mkdirErr h w)))
                       (cleanupStart h w)).
Proof.
  apply emitted_eq. rewrite prepareDir_run.
  destruct (readDirErr h w); [done|].
  rewrite (traced_eq _ _ (removeLoop_traced _ _)).
  unfold cleanupStart at 1. cbn [w_trace].
  by rewrite <- !app_assoc.
Qed.

Lemma prepareDir_traced : Traced (prepareDir h).
Proof.
  intros w. rewrite prepareDir_run. destruct (readDirErr h w).
  - by eexists.
  - etrans; [|apply removeLoop_traced]. by eexists.
Qed.

Lemma mkdirEvents_ok w : forallb ev_ok (mkdirEvents h w) = negb (mkdirErr h w).
Proof. unfold mkdirEvents. by destruct (mkdirErr h w). Qed.

Lemma prepareDir_result w :
  (prepareDir h w).1 = forallb ev_ok (emitted (prepareDir h) w).
Proof.
  rewrite prepareDir_emitted, forallb_app, mkdirEvents_ok, prepareDir_run.
  destruct (readDirErr h w).
  - cbn. by rewrite andb_false_r.
  - by rewrite removeLoop_result.
Qed.

Lemma removeLoop_fs_calls names ok w :
  List.filter isFsCall (callsOf (emitted (removeLoop h names ok) w))
  = removeCalls names.
Proof.
  unfold removeCalls. rewrite <- (removeLoop_calls names ok w).
  apply filter_ext_in. intros c Hc.
  apply in_map_iff in Hc as (ev & <- & Hev).
  apply removeLoop_events in Hev as (n & _ & _ & [-> | ->]); done.
Qed.

Lemma removeLoop_no_call (P : Call -> bool) names ok w :
  (forall path, P (CallRemove path) = false) ->
  (forall m, P (CallPrintf m) = false) ->
  forall ev, In ev (emitted (removeLoop h names ok) w) -> P (ev_call ev) = false.
Proof.
  intros Hr Hl ev Hev.
  apply removeLoop_events in Hev as (n & _ & _ & [-> | ->]);
    [apply Hr|apply Hl].
Qed.

Lemma existsb_false_in {A} (f : A -> bool) (l : list A) :
  (forall x, In x l -> f x = false) -> existsb f l = false.
Proof.
  intros H. apply not_true_is_false. rewrite existsb_exists.
  intros (x & Hin & Hx). by rewrite (H x Hin) in Hx.
Qed.

Lemma prepareDir_readDir_failed w :
  callFailed isReadDir (emitted (prepareDir h) w) = readDirErr h w.
Proof.
  unfold callFailed. rewrite prepareDir_emitted, existsb_app.
  assert (existsb (fun ev => isReadDir (ev_call ev) && ev_err ev) (mkdirEvents h w)
          = false) as ->.
  { unfold mkdirEvents. by destruct (mkdirErr h w). }
  destruct (readDirErr h w); [done|]. cbn.
  apply existsb_false_in. intros ev Hev.
  by rewrite (removeLoop_no_call isReadDir _ _ _ (fun _ => eq_refl)
                (fun _ => eq_refl) ev Hev).
Qed.

Lemma prepareDir_calls w :
  List.filter isFsCall (callsOf (emitted (prepareDir h) w))
  = mkdirCall :: readDirCall
      :: (if callFailed isReadDir (emitted (prepareDir h) w) then []
          else removeCalls (listed w)).
Proof.
  rewrite prepareDir_readDir_failed, prepareDir_emitted.
  rewrite callsOf_app, List.filter_app.
  assert (List.filter isFsCall (callsOf (mkdirEvents h w)) = [mkdirCall]) as ->.
  { unfold mkdirEvents. by destruct (mkdirErr h w). }
  destruct (readDirErr h w); [done|].
  rewrite callsOf_cons. cbn [List.filter ev_call].
  change (isFsCall readDirCall) with true. cbn iota.
  by rewrite removeLoop_fs_calls.
Qed.

Lemma prepareDir_no_write w ev :
  In ev (emitted (prepareDir h) w) -> isWrite (ev_call ev) = false.
Proof.
  rewrite prepareDir_emitted, in_app_iff. intros [Hin|Hin].
  - unfold mkdirEvents in Hin. destruct (mkdirErr h w);
      repeat (destruct Hin as [<-|Hin]; [done|]); done.
  - destruct (readDirErr h w).
    + repeat (destruct Hin as [<-|Hin]; [done|]); done.
    + destruct Hin as [<-|Hin]; [done|].
      by apply (removeLoop_no_call isWrite _ _ _ (fun _ => eq_refl)
                  (fun _ => eq_refl) ev Hin).
Qed.

Lemma prepareDir_fs_ok w :
  (prepareDir h w).1 = true ->
  w_fs (prepareDir h w).2 = cleanAll (listed w) (w_fs w).
Proof.
  rewrite prepareDir_run. destruct (readDirErr h w); [done|].
  rewrite removeLoop_result, andb_true_iff. intros [_ H].
  by rewrite removeLoop_fs_ok.
Qed.

Lemma prepareDir_fs_sub w path :
  w_fs (prepareDir h w).2 !! path = None
  \/ w_fs (prepareDir h w).2 !! path = w_fs w !! path.
Proof.
  rewrite prepareDir_run. destruct (readDirErr h w); [by right|].
  apply (removeLoop_fs_sub _ _ (cleanupStart h w)).
Qed.

Lemma prepareDir_removed w path :
  In (Ev (CallRemove path) false) (emitted (prepareDir h) w) ->
  w_fs (prepareDir h w).2 !! path = None.
Proof.
  rewrite prepareDir_emitted, prepareDir_run, in_app_iff. intros [Hin|Hin].
  - unfold mkdirEvents in Hin. destruct (mkdirErr h w);
      repeat (destruct Hin as [Hin|Hin]; [discriminate|]); done.
  - destruct (readDirErr h w).
    + repeat (destruct Hin as [Hin|Hin]; [discriminate|]); done.
    + destruct Hin as [Hin|Hin]; [discriminate|].
      by apply removeLoop_removed.
Qed.

(** ** [writeConfigs] as a whole *)

Lemma writeConfigs_traced entries : Traced (writeConfigs h entries).
Proof.
  intros w. rewrite writeConfigs_split.
  etrans; [apply prepareDir_traced|apply writeLoop_traced].
Qed.

Lemma writeConfigs_emitted entries w :
  emitted (writeConfigs h entries) w
  = emitted (prepareDir h) w
    ++ emitted (writeLoop h entries (prepareDir h w).1) (prepareDir h w).2.
Proof.
  apply emitted_eq. rewrite writeConfigs_split.
  rewrite (traced_eq _ _ (writeLoop_traced _ _)).
  rewrite (traced_eq _ _ prepareDir_traced). by rewrite app_assoc.
Qed.

Lemma writeConfigs_result entries w :
  (writeConfigs h entries w).1
  = forallb ev_ok (emitted (writeConfigs h entries) w).
Proof.
  rewrite writeConfigs_emitted, forallb_app, writeConfigs_split.
  by rewrite writeLoop_result, prepareDir_result.
Qed.

End Run.

(** * Strings, continued *)

Lemma length_app_s (a b : string) :
  String.length (a +:+ b) = (String.length a + String.length b)%nat.
Proof.
  induction a as [|x a IH]; [done|].
  change (S (String.length (a +:+ b)) = S (String.length a + String.length b)).
  by rewrite IH.
Qed.

Lemma app_inj_r_s (a b s : string) : a +:+ s = b +:+ s -> a = b.
Proof.
  revert b. induction a as [|x a IH]; intros [|y b] H.
  - done.
  - apply (f_equal String.length) in H.
    change (String.length s = S (String.length (b +:+ s))) in H.
    rewrite length_app_s in H. lia.
  - apply (f_equal String.length) in H.
    change (S (String.length (a +:+ s)) = String.length s) in H.
    rewrite length_app_s in H. lia.
  - change (String x (a +:+ s) = String y (b +:+ s)) in H.
    injection H as -> H. f_equal. by apply IH.
Qed.

Lemma stripPrefix_spec (pre s n : string) :
  stripPrefix pre s = Some n <-> s = pre +:+ n.
Proof.
  revert s. induction pre as [|a pre IH]; intros s.
  - cbn. split; [by intros [= ->]|by intros ->].
  - destruct s as [|b s]; cbn; [done|].
    change (String a pre +:+ n) with (String a (pre +:+ n)).
    destruct (Ascii.eqb a b) eqn:Hab.
    + apply Ascii.eqb_eq in Hab as ->. rewrite IH.
      split; [by intros ->|by intros [= ->]].
    + apply Ascii.eqb_neq in Hab. split; [done|]. intros [= -> _]. done.
Qed.

Lemma childName_spec (path name : string) :
  childName ConfigDir path = Some name
  <-> path = childPath name /\ hasSlash name = false.
Proof.
  unfold childName, childPath.
  destruct (stripPrefix (ConfigDir +:+ "/") path) as [n|] eqn:Hs.
  - apply stripPrefix_spec in Hs. rewrite app_assoc_s in Hs. subst path.
    destruct (hasSlash n) eqn:Hn.
    + split; [done|]. intros [H Hname].
      apply (inj (String.app ConfigDir)), (inj (String.app "/")) in H.
      subst n. congruence.
    + split; [by intros [= ->]|].
      intros [H _].
      apply (inj (String.app ConfigDir)), (inj (String.app "/")) in H.
      by subst n.
  - split; [done|]. intros [-> _].
    assert (stripPrefix (ConfigDir +:+ "/") (ConfigDir +:+ "/" +:+ name)
            = Some name) as H.
    { apply stripPrefix_spec. by rewrite app_assoc_s. }
    congruence.
Qed.

Lemma childPath_inj (n1 n2 : string) : childPath n1 = childPath n2 -> n1 = n2.
Proof.
  unfold childPath. intros H.
  by apply (inj (String.app ConfigDir)), (inj (String.app "/")) in H.
Qed.

Lemma entryPath_eq (e : NetworkConfigEntry.t) :
  entryPath e = pathOfName (NetworkConfigEntry.Name e).
Proof. reflexivity. Qed.

Lemma pathOfName_inj (n1 n2 : string) : pathOfName n1 = pathOfName n2 -> n1 = n2.
Proof.
  unfold pathOfName. intros H.
  apply (inj (String.app ConfigDir)), (inj (String.app "/")),
        (inj (String.app ConfigPrefix)) in H.
  by apply app_inj_r_s in H.
Qed.

(** * The file store *)

Lemma filter_none {A} (f : A -> bool) (l : list A) :
  (forall x, In x l -> f x = false) -> List.filter f l = [].
Proof.
  induction l as [|x l IH]; intros H; [done|].
  cbn. rewrite (H x) by by left. apply IH. intros y Hy. apply H. by right.
Qed.

Lemma NoDup_omap {A B} (f : A -> option B) (l : list A) :
  (forall x y z, f x = Some z -> f y = Some z -> x = y) ->
  NoDup l -> NoDup (omap f l).
Proof.
  intros Hinj. induction 1 as [|x l Hx Hl IH]; [constructor|].
  cbn. destruct (f x) as [z|] eqn:Hfx; [|done].
  constructor; [|done].
  rewrite list_elem_of_omap. intros (y & Hy & Hfy).
  by rewrite (Hinj x y z Hfx Hfy) in Hx.
Qed.

Lemma firstComponent_slash (s : string) : hasSlash (firstComponent s) = false.
Proof.
  induction s as [|a s IH]; [done|]. cbn [firstComponent].
  destruct (Ascii.eqb a "/") eqn:Ha; [done|]. cbn [hasSlash]. by rewrite Ha.
Qed.

Lemma firstComponent_id (n : string) :
  hasSlash n = false -> firstComponent n = n.
Proof.
  induction n as [|a n IH]; [done|]. cbn [hasSlash firstComponent].
  intros [Ha Hn]%orb_false_iff. rewrite Ha. by rewrite IH.
Qed.

Lemma firstComponent_app (n r : string) :
  hasSlash n = false -> firstComponent (n +:+ "/" +:+ r) = n.
Proof.
  induction n as [|a n IH]; [done|]. cbn [hasSlash].
  intros [Ha Hn]%orb_false_iff.
  change (firstComponent (String a (n +:+ "/" +:+ r)) = String a n).
  cbn [firstComponent]. rewrite Ha. by rewrite IH.
Qed.

(** A string is its first component, alone or followed by a slash and the
    rest. *)
Lemma firstComponent_rest (s : string) :
  s = firstComponent s \/ exists r, s = firstComponent s +:+ "/" +:+ r.
Proof.
  induction s as [|a s IH]; [by left|]. cbn [firstComponent].
  destruct (Ascii.eqb a "/") eqn:Ha.
  - apply Ascii.eqb_eq in Ha as ->. right. by exists s.
  - destruct IH as [IH|[r IH]].
    + left. by rewrite <- IH.
    + right. exists r.
      change (String a s = String a (firstComponent s +:+ "/" +:+ r)).
      by rewrite <- IH.
Qed.

Lemma entryName_spec (dir path name : string) :
  entryName dir path = Some name
  <-> exists rest, path = dir +:+ "/" +:+ rest /\ firstComponent rest = name.
Proof.
  unfold entryName.
  destruct (stripPrefix (dir +:+ "/") path) as [rest|] eqn:Hs; cbn.
  - apply stripPrefix_spec in Hs. rewrite app_assoc_s in Hs. split.
    + intros [= <-]. by exists rest.
    + intros (rest' & -> & <-).
      apply (inj (String.app dir)), (inj (String.app "/")) in Hs.
      by subst.
  - split; [done|]. intros (rest & -> & _).
    assert (stripPrefix (dir +:+ "/") (dir +:+ "/" +:+ rest) = Some rest) as H.
    { apply stripPrefix_spec. by rewrite app_assoc_s. }
    congruence.
Qed.

(** The entries of a directory: the first components of what lies beneath
    it. *)
Lemma In_dirEntries (dir : string) (fs : gmap string string)
    (dirs : gset string) (name : string) :
  In name (dirEntries dir fs dirs)
  <-> exists path, (is_Some (fs !! path) \/ path ∈ dirs)
        /\ entryName dir path = Some name.
Proof.
  unfold dirEntries. rewrite <- list_elem_of_In.
  rewrite merge_sort_Permutation, elem_of_elements, elem_of_set_omap.
  split; intros (path & Hp & Hn); exists path; (split; [|done]).
  - apply elem_of_union in Hp as [Hp|Hp]; [left|by right].
    by apply elem_of_dom.
  - apply elem_of_union. destruct Hp as [Hp|Hp]; [left|by right].
    by apply elem_of_dom.
Qed.

Lemma dirEntries_slash (dir : string) (fs : gmap string string)
    (dirs : gset string) (name : string) :
  In name (dirEntries dir fs dirs) -> hasSlash name = false.
Proof.
  intros (path & _ & Hn)%In_dirEntries.
  apply entryName_spec in Hn as (rest & _ & <-). apply firstComponent_slash.
Qed.

Lemma entryName_child (name : string) :
  hasSlash name = false -> entryName ConfigDir (childPath name) = Some name.
Proof.
  intros Hs. apply entryName_spec. exists name.
  split; [done|]. by apply firstComponent_id.
Qed.

Lemma dirEntries_file (fs : gmap string string) (dirs : gset string)
    (name : string) :
  hasSlash name = false -> is_Some (fs !! childPath name) ->
  In name (dirEntries ConfigDir fs dirs).
Proof.
  intros Hs Hf. apply In_dirEntries. exists (childPath name).
  split; [by left|]. by apply entryName_child.
Qed.

Lemma NoDup_dirEntries (dir : string) (fs : gmap string string)
    (dirs : gset string) :
  NoDup (dirEntries dir fs dirs).
Proof.
  unfold dirEntries. rewrite merge_sort_Permutation. apply NoDup_elements.
Qed.

Lemma cleanAll_lookup (names : list string) (fs : gmap string string)
    (path : string) :
  cleanAll names fs !! path
  = if existsb (fun n => String.eqb (childPath n) path)
               (List.filter isGenerated names)
    then None else fs !! path.
Proof.
  unfold cleanAll.
  induction (List.filter isGenerated names) as [|n l IH] using rev_ind;
    [done|].
  rewrite fold_left_app, existsb_app. cbn. rewrite orb_false_r.
  destruct (String.eqb (childPath n) path) eqn:Hn.
  - apply String.eqb_eq in Hn as <-. rewrite orb_true_r.
    apply lookup_delete_eq.
  - apply String.eqb_neq in Hn. rewrite orb_false_r.
    by rewrite lookup_delete_ne.
Qed.

Lemma isGeneratedPath_spec (path : string) :
  isGeneratedPath path = true
  <-> exists name, isGenerated name = true /\ hasSlash name = false
                   /\ path = childPath name.
Proof.
  unfold isGeneratedPath. split.
  - destruct (childName ConfigDir path) as [n|] eqn:Hc; [|done].
    apply childName_spec in Hc as [-> Hs]. intros Hg. by exists n.
  - intros (n & Hg & Hs & ->).
    assert (childName ConfigDir (childPath n) = Some n) as ->
      by by apply childName_spec.
    done.
Qed.

Lemma clean_lookup (fs : gmap string string) (dirs : gset string)
    (path : string) :
  cleanAll (dirEntries ConfigDir fs dirs) fs !! path
  = if isGeneratedPath path then None else fs !! path.
Proof.
  rewrite cleanAll_lookup.
  destruct (existsb _ _) eqn:Hex.
  - apply existsb_exists in Hex as (n & Hin & Hp).
    apply String.eqb_eq in Hp as <-.
    apply filter_In in Hin as [Hin Hg].
    apply dirEntries_slash in Hin as Hs.
    assert (isGeneratedPath (childPath n) = true) as ->; [|done].
    apply isGeneratedPath_spec. by exists n.
  - destruct (isGeneratedPath path) eqn:Hg; [|done].
    apply isGeneratedPath_spec in Hg as (n & Hg & Hs & ->).
    destruct (fs !! childPath n) as [v|] eqn:Hv; [|done].
    exfalso. apply not_true_iff_false in Hex. apply Hex.
    apply existsb_exists. exists n. split; [|apply String.eqb_refl].
    apply filter_In. split; [|done]. apply dirEntries_file; by eauto.
Qed.

Lemma writeAll_lookup (entries : list NetworkConfigEntry.t)
    (fs : gmap string string) (path : string) :
  writeAll entries fs !! path
  = match lastEntryAt path entries with
    | Some e => Some (renderConfig e)
    | None => fs !! path
    end.
Proof.
  unfold writeAll, lastEntryAt.
  induction (List.filter isPhysical entries) as [|e l IH] using rev_ind;
    [done|].
  rewrite fold_left_app, List.filter_app. cbn.
  destruct (String.eqb (entryPath e) path) eqn:He.
  - apply String.eqb_eq in He as <-. rewrite last_snoc.
    apply lookup_insert_eq.
  - apply String.eqb_neq in He. rewrite app_nil_r.
    by rewrite lookup_insert_ne.
Qed.

Lemma lastEntryAt_Some (path : string) (entries : list NetworkConfigEntry.t)
    (e : NetworkConfigEntry.t) :
  lastEntryAt path entries = Some e ->
  In e entries /\ isPhysical e = true /\ entryPath e = path.
Proof.
  unfold lastEntryAt. intros H.
  apply last_Some_elem_of, list_elem_of_In, filter_In in H as [H He].
  apply filter_In in H as [Hin Hp]. by apply String.eqb_eq in He.
Qed.

Lemma lastEntryAt_None (path : string) (entries : list NetworkConfigEntry.t)
    (e : NetworkConfigEntry.t) :
  lastEntryAt path entries = None ->
  In e entries -> isPhysical e = true -> entryPath e <> path.
Proof.
  unfold lastEntryAt. intros H Hin Hp Hpath.
  apply last_None in H.
  assert (In e (List.filter (fun e => String.eqb (entryPath e) path)
                  (List.filter isPhysical entries))) as Hin'.
  { apply filter_In. split; [by apply filter_In|by apply String.eqb_eq]. }
  by rewrite H in Hin'.
Qed.

Lemma lastEntryAt_split (l1 l2 : list NetworkConfigEntry.t)
    (e : NetworkConfigEntry.t) :
  isPhysical e = true ->
  (forall e', In e' l2 -> isPhysical e' = true ->
     NetworkConfigEntry.Name e' <> NetworkConfigEntry.Name e) ->
  lastEntryAt (entryPath e) (l1 ++ e :: l2) = Some e.
Proof.
  intros Hp Hl2. unfold lastEntryAt.
  rewrite !List.filter_app. cbn [List.filter]. rewrite Hp.
  cbn [List.filter]. rewrite String.eqb_refl.
  assert (List.filter (fun e0 => String.eqb (entryPath e0) (entryPath e))
            (List.filter isPhysical l2) = []) as ->.
  { apply filter_none. intros e' He'.
    apply filter_In in He' as [Hin Hp'].
    apply String.eqb_neq. intros Heq. apply (Hl2 e' Hin Hp').
    rewrite !entryPath_eq in Heq. by apply pathOfName_inj. }
  apply last_snoc.
Qed.

(** One sync after another leaves the store as the first did. *)
Lemma sync_store_idempotent (entries : list NetworkConfigEntry.t)
    (fs : gmap string string) (dirs dirs1 : gset string) :
  let fs1 := writeAll entries (cleanAll (dirEntries ConfigDir fs dirs) fs) in
  writeAll entries (cleanAll (dirEntries ConfigDir fs1 dirs1) fs1) = fs1.
Proof.
  intros fs1. apply map_eq. intros path. subst fs1.
  rewrite !writeAll_lookup.
  destruct (lastEntryAt path entries) as [e|] eqn:He; [done|].
  rewrite !clean_lookup, writeAll_lookup, He, clean_lookup.
  by destruct (isGeneratedPath path).
Qed.

(** * The events and the store of a run of [writeConfigs] *)

Section Sync.

Context (h : Host).

Lemma writeLoop_no_call (P : Call -> bool) entries ok w :
  (forall path data perm, P (CallWriteFile path data perm) = false) ->
  (forall m, P (CallPrintf m) = false) ->
  forall ev, In ev (emitted (writeLoop h entries ok) w) -> P (ev_call ev) = false.
Proof.
  intros Hr Hl ev Hev.
  apply writeLoop_events in Hev as (n & _ & _ & [-> | ->]);
    [apply Hr|apply Hl].
Qed.

Lemma writeLoop_fs_calls entries ok w :
  List.filter isFsCall (callsOf (emitted (writeLoop h entries ok) w))
  = writeCalls entries.
Proof.
  unfold writeCalls. rewrite <- (writeLoop_calls h entries ok w).
  apply filter_ext_in. intros c Hc.
  apply in_map_iff in Hc as (ev & <- & Hev).
  apply writeLoop_events in Hev as (n & _ & _ & [-> | ->]); done.
Qed.

Lemma writeLoop_write_calls entries ok w :
  List.filter isWrite (callsOf (emitted (writeLoop h entries ok) w))
  = writeCalls entries.
Proof.
  unfold writeCalls. rewrite <- (writeLoop_calls h entries ok w).
  apply filter_ext_in. intros c Hc.
  apply in_map_iff in Hc as (ev & <- & Hev).
  apply writeLoop_events in Hev as (n & _ & _ & [-> | ->]); done.
Qed.

Lemma filter_calls_none (P : Call -> bool) (evs : list Event) :
  (forall ev, In ev evs -> P (ev_call ev) = false) ->
  List.filter P (callsOf evs) = [].
Proof.
  intros H. apply filter_none. intros c Hc.
  apply in_map_iff in Hc as (ev & <- & Hev). by apply H.
Qed.

Lemma writeConfigs_fs_calls entries w :
  let evs := emitted (writeConfigs h entries) w in
  List.filter isFsCall (callsOf evs)
  = mkdirCall :: readDirCall
      :: (if callFailed isReadDir evs then []
          else removeCalls (dirEntries ConfigDir (w_fs w) (w_dirs w)))
      ++ writeCalls entries.
Proof.
  intros evs. subst evs. rewrite writeConfigs_emitted.
  rewrite callsOf_app, List.filter_app, prepareDir_calls, writeLoop_fs_calls.
  unfold callFailed at 2. rewrite existsb_app.
  fold (callFailed isReadDir (emitted (prepareDir h) w)).
  assert (existsb (fun ev => isReadDir (ev_call ev) && ev_err ev)
            (emitted (writeLoop h entries (prepareDir h w).1) (prepareDir h w).2)
          = false) as ->.
  { apply existsb_false_in. intros ev Hev.
    by rewrite (writeLoop_no_call isReadDir _ _ _ (fun _ _ _ => eq_refl)
                  (fun _ => eq_refl) ev Hev). }
  by rewrite orb_false_r.
Qed.

Lemma writeConfigs_write_calls entries w :
  List.filter isWrite (callsOf (emitted (writeConfigs h entries) w))
  = writeCalls entries.
Proof.
  rewrite writeConfigs_emitted, callsOf_app, List.filter_app.
  rewrite (filter_calls_none isWrite) by apply prepareDir_no_write.
  apply writeLoop_write_calls.
Qed.

Lemma readDir_event w (err : bool) :
  In (Ev readDirCall err) (emitted (prepareDir h) w) <-> readDirErr h w = err.
Proof.
  rewrite prepareDir_emitted, in_app_iff. split.
  - intros [Hin|Hin].
    + unfold mkdirEvents in Hin. destruct (mkdirErr h w);
        repeat (destruct Hin as [Hin|Hin]; [discriminate|]); done.
    + destruct (readDirErr h w).
      * destruct Hin as [[= ->]|[Hin|[]]]; [done|discriminate].
      * destruct Hin as [[= ->]|Hin]; [done|].
        by apply (removeLoop_no_call h isReadDir _ _ _ (fun _ => eq_refl)
                    (fun _ => eq_refl)) in Hin.
  - intros <-. right. destruct (readDirErr h w); by left.
Qed.

Lemma readDir_event_sync entries w (err : bool) :
  In (Ev readDirCall err) (emitted (writeConfigs h entries) w)
  <-> readDirErr h w = err.
Proof.
  rewrite writeConfigs_emitted, in_app_iff, readDir_event. split; [|by left].
  intros [H|H]; [done|].
  by apply (writeLoop_no_call isReadDir _ _ _ (fun _ _ _ => eq_refl)
              (fun _ => eq_refl)) in H.
Qed.


Lemma writeConfigs_fs_all_ok entries w :
  (writeConfigs h entries w).1 = true ->
  w_fs (writeConfigs h entries w).2
  = writeAll entries (cleanAll (dirEntries ConfigDir (w_fs w) (w_dirs w)) (w_fs w)).
Proof.
  rewrite writeConfigs_split, writeLoop_result, andb_true_iff. intros [H1 H2].
  rewrite writeLoop_fs_ok by done. by rewrite prepareDir_fs_ok.
Qed.

Lemma writeConfigs_writes_ok entries w :
  callFailed isWrite (emitted (writeConfigs h entries) w) = false ->
  w_fs (writeConfigs h entries w).2
  = writeAll entries (w_fs (prepareDir h w).2).
Proof.
  unfold callFailed. rewrite writeConfigs_emitted, existsb_app, orb_false_iff.
  intros [_ H]. rewrite writeConfigs_split. apply writeLoop_fs_ok.
  apply forallb_forall. intros ev Hev.
  destruct (writeLoop_events h _ _ _ _ Hev) as (e & _ & _ & [Hc | ->]); [|done].
  rewrite <- not_true_iff_false, existsb_exists in H.
  unfold ev_ok. destruct (ev_err ev) eqn:He; [|done].
  exfalso. apply H. exists ev. split; [done|]. by rewrite Hc, He.
Qed.

Lemma writeConfigs_last entries w path :
  match lastWrite path (emitted (writeConfigs h entries) w) with
  | None => w_fs (writeConfigs h entries w).2 !! path
            = w_fs (prepareDir h w).2 !! path
  | Some ev =>
      ev_err ev = false ->
      exists data perm, ev_call ev = CallWriteFile path data perm
        /\ w_fs (writeConfigs h entries w).2 !! path = Some data
  end.
Proof.
  rewrite writeConfigs_emitted, writeConfigs_split. unfold lastWrite.
  rewrite List.filter_app.
  assert (List.filter (fun ev => isWriteTo path (ev_call ev))
            (emitted (prepareDir h) w) = []) as ->.
  { apply filter_none. intros ev Hev. apply prepareDir_no_write in Hev.
    by destruct (ev_call ev). }
  apply (writeLoop_last h).
Qed.

Lemma writeConfigs_events entries w ev :
  In ev (emitted (writeConfigs h entries) w) -> fsOrLog ev.
Proof.
  rewrite writeConfigs_emitted, prepareDir_emitted, !in_app_iff.
  intros [[Hin|Hin]|Hin].
  - unfold mkdirEvents in Hin. destruct (mkdirErr h w).
    + destruct Hin as [<-|[<-|[]]]; [by left|by right].
    + destruct Hin as [<-|[]]; by left.
  - destruct (readDirErr h w).
    + destruct Hin as [<-|[<-|[]]]; [by left|by right].
    + destruct Hin as [<-|Hin]; [by left|].
      apply removeLoop_events in Hin as (n & _ & _ & [Hc | ->]);
        [left; by rewrite Hc|by right].
  - apply writeLoop_events in Hin as (n & _ & _ & [Hc | ->]);
      [left; by rewrite Hc|by right].
Qed.

End Sync.

Lemma remove_dups_fmap_inj {A B} `{EqDecision A, EqDecision B} (f : A -> B)
    (l : list A) :
  (forall x y, f x = f y -> x = y) ->
  remove_dups (map f l) = map f (remove_dups l).
Proof.
  intros Hf. induction l as [|x l IH]; [done|].
  cbn [map remove_dups].
  destruct (decide_rel elem_of x l) as [Hx|Hx],
           (decide_rel elem_of (f x) (map f l)) as [Hy|Hy].
  - exact IH.
  - exfalso. apply Hy. apply list_elem_of_fmap. by exists x.
  - exfalso. apply list_elem_of_fmap in Hy as (y & Hy & Hin).
    apply Hf in Hy. by subst y.
  - cbn [map]. by rewrite IH.
Qed.

(** * What is in the directory *)

Lemma slash_in_middle (a b : string) : hasSlash (a +:+ "/" +:+ b) = true.
Proof.
  induction a as [|x a IH]; [done|].
  change (Ascii.eqb x "/" || hasSlash (a +:+ "/" +:+ b) = true).
  by rewrite IH, orb_true_r.
Qed.

(** What is reached through the entry [name] is the entry itself or lies
    beneath it. *)
Lemma under_entry (path name : string) :
  entryName ConfigDir path = Some name ->
  path = childPath name \/ is_Some (entryName (childPath name) path).
Proof.
  intros (rest & -> & Hn)%entryName_spec.
  destruct (firstComponent_rest rest) as [Hr|[r Hr]]; rewrite Hn in Hr.
  - left. by subst rest.
  - right. exists (firstComponent r). apply entryName_spec. exists r.
    split; [|done]. subst rest. unfold childPath.
    by rewrite !app_assoc_s.
Qed.

(** An entry of the directory does not lie beneath another one. *)
Lemma entry_not_beneath (n1 n2 : string) :
  hasSlash n1 = false -> entryName (childPath n2) (childPath n1) = None.
Proof.
  intros Hs. destruct (entryName _ _) as [x|] eqn:Hx; [|done].
  apply entryName_spec in Hx as (rest & Hp & _). unfold childPath in Hp.
  rewrite !app_assoc_s in Hp.
  apply (inj (String.app ConfigDir)), (inj (String.app "/")) in Hp.
  by rewrite Hp, slash_in_middle in Hs.
Qed.

Lemma nonEmptyDir_false (path : string) (fs : gmap string string)
    (dirs : gset string) (p : string) :
  nonEmptyDir path fs dirs = false -> present p fs dirs ->
  entryName path p = None.
Proof.
  unfold nonEmptyDir. intros Hne Hp.
  destruct (entryName path p) as [n|] eqn:Hn; [|done].
  assert (In n (dirEntries path fs dirs)) as Hin
    by (apply In_dirEntries; by exists p).
  by destruct (dirEntries path fs dirs).
Qed.

Lemma listed_present (fs : gmap string string) (dirs : gset string)
    (p name : string) :
  present p fs dirs -> entryName ConfigDir p = Some name ->
  In name (dirEntries ConfigDir fs dirs).
Proof. intros Hp Hn. apply In_dirEntries. by exists p. Qed.

Section Directories.

Context (h : Host).

Lemma removeStep_shrinks ok n w p :
  present p (w_fs (removeStep h ok n w).2) (w_dirs (removeStep h ok n w).2) ->
  present p (w_fs w) (w_dirs w).
Proof.
  destruct (isGenerated n) eqn:Hg; [|by rewrite removeStep_skip].
  destruct (removeStep_run h ok n w Hg) as (_ & -> & -> & _).
  destruct (removeErr h w (childPath n)); [done|].
  intros [[v Hv]|Hd].
  - left. exists v. apply lookup_delete_Some in Hv as [_ Hv]. done.
  - right. by apply elem_of_difference in Hd as [Hd _].
Qed.

Lemma removeLoop_step n names ok w :
  removeLoop h (n :: names) ok w
  = removeLoop h names (removeStep h ok n w).1 (removeStep h ok n w).2.
Proof. reflexivity. Qed.

(** The cleanup only ever takes things away. *)
Lemma removeLoop_shrinks names ok w p :
  present p (w_fs (removeLoop h names ok w).2) (w_dirs (removeLoop h names ok w).2) ->
  present p (w_fs w) (w_dirs w).
Proof.
  revert ok w. induction names as [|n names IH]; intros ok w; [done|].
  rewrite removeLoop_step. intros Hp%IH. by apply removeStep_shrinks in Hp.
Qed.

(** After a removal that succeeded there is nothing at the path, and
    nothing beneath it. *)
Lemma removeLoop_gone names ok w path p :
  In (Ev (CallRemove path) false) (emitted (removeLoop h names ok) w) ->
  present p (w_fs (removeLoop h names ok w).2) (w_dirs (removeLoop h names ok w).2) ->
  p <> path /\ entryName path p = None.
Proof.
  revert ok w. induction names as [|n names IH]; intros ok w.
  - unfold removeLoop. cbn [forRange]. by rewrite emitted_ret.
  - rewrite removeLoop_emitted_cons, in_app_iff, removeLoop_step.
    intros [Hin|Hin]; [|by apply IH].
    intros Hp%removeLoop_shrinks. rewrite emitted_removeStep in Hin.
    destruct (isGenerated n) eqn:Hg; [|done].
    destruct (removeStep_run h ok n w Hg) as (_ & Hfs & Hd & _).
    rewrite Hfs, Hd in Hp. clear Hfs Hd. cbn zeta in Hin.
    unfold removeErr in *.
    destruct (nonEmptyDir (childPath n) (w_fs w) (w_dirs w)) eqn:Hne.
    { cbn [orb] in Hin. destruct Hin as [Hin|[Hin|[]]]; discriminate. }
    cbn [orb] in *. destruct (host_err h _ _).
    { destruct Hin as [Hin|[Hin|[]]]; discriminate. }
    destruct Hin as [Hin|[]]. injection Hin as <-. split.
    + intros ->. destruct Hp as [[v Hv]|Hp].
      * by rewrite lookup_delete_eq in Hv.
      * apply elem_of_difference in Hp as [_ Hp]. apply Hp.
        by apply elem_of_singleton.
    + apply (nonEmptyDir_false _ _ _ _ Hne). destruct Hp as [[v Hv]|Hp].
      * left. exists v. by apply lookup_delete_Some in Hv as [_ Hv].
      * right. by apply elem_of_difference in Hp as [Hp _].
Qed.

(** When no removal failed, every listed unit was removed. *)
Lemma removeLoop_all_removed names ok w n :
  forallb ev_ok (emitted (removeLoop h names ok) w) = true ->
  In n names -> isGenerated n = true ->
  In (Ev (CallRemove (childPath n)) false) (emitted (removeLoop h names ok) w).
Proof.
  intros Hok Hn Hg.
  assert (In (removeCall n)
            (List.filter (fun c => negb (isLogCall c))
               (callsOf (emitted (removeLoop h names ok) w)))) as Hin.
  { rewrite removeLoop_calls. apply in_map_iff. exists n.
    split; [done|]. by apply filter_In. }
  apply filter_In in Hin as [Hin _].
  apply in_map_iff in Hin as ([c e] & Hc & Hin). cbn in Hc. subst c.
  rewrite forallb_forall in Hok. specialize (Hok _ Hin).
  unfold ev_ok in Hok. cbn in Hok. by destruct e.
Qed.

Lemma writeStep_dirs ok e w : w_dirs (writeStep h ok e w).2 = w_dirs w.
Proof.
  destruct (isPhysical e) eqn:Hp; [|by rewrite writeStep_skip].
  by destruct (writeStep_run h ok e w Hp) as (_ & _ & -> & _).
Qed.

(** Writing creates no directory and removes none. *)
Lemma writeLoop_dirs entries ok w :
  w_dirs (writeLoop h entries ok w).2 = w_dirs w.
Proof.
  revert ok w. induction entries as [|e entries IH]; intros ok w; [done|].
  change (writeLoop h (e :: entries) ok w)
    with (writeLoop h entries (writeStep h ok e w).1 (writeStep h ok e w).2).
  by rewrite IH, writeStep_dirs.
Qed.

Lemma writeConfigs_dirs entries w :
  w_dirs (writeConfigs h entries w).2 = w_dirs (prepareDir h w).2.
Proof. by rewrite writeConfigs_split, writeLoop_dirs. Qed.

(** What there is after the cleanup was there before, or was created by
    [os.MkdirAll] and is not in the directory. *)
Lemma prepareDir_shrinks w p :
  present p (w_fs (prepareDir h w).2) (w_dirs (prepareDir h w).2) ->
  present p (w_fs w) (w_dirs w) \/ entryName ConfigDir p = None.
Proof.
  assert (present p (w_fs (cleanupStart h w)) (w_dirs (cleanupStart h w)) ->
          present p (w_fs w) (w_dirs w) \/ entryName ConfigDir p = None)
    as Hstart.
  { unfold cleanupStart. cbn [w_fs w_dirs].
    destruct (mkdirErr h w); [by left|].
    intros [Hf|Hd]; [left; by left|].
    apply elem_of_union in Hd as [Hd|Hd]; [right|left; by right].
    by apply mkdir_above. }
  rewrite prepareDir_run. destruct (readDirErr h w); [exact Hstart|].
  intros Hp%removeLoop_shrinks. by apply Hstart.
Qed.

Lemma prepareDir_gone w path p :
  In (Ev (CallRemove path) false) (emitted (prepareDir h) w) ->
  present p (w_fs (prepareDir h w).2) (w_dirs (prepareDir h w).2) ->
  p <> path /\ entryName path p = None.
Proof.
  rewrite prepareDir_emitted, prepareDir_run, in_app_iff. intros [Hin|Hin].
  - unfold mkdirEvents in Hin. destruct (mkdirErr h w);
      repeat (destruct Hin as [Hin|Hin]; [discriminate|]); done.
  - destruct (readDirErr h w).
    + repeat (destruct Hin as [Hin|Hin]; [discriminate|]); done.
    + destruct Hin as [Hin|Hin]; [discriminate|].
      by apply removeLoop_gone.
Qed.

(** When the directory was listed and no removal failed, nothing is left
    at or beneath a listed unit. *)
Lemma prepareDir_cleaned w n p :
  readDirErr h w = false ->
  callFailed isRemove (emitted (prepareDir h) w) = false ->
  In n (listed w) -> isGenerated n = true ->
  present p (w_fs (prepareDir h w).2) (w_dirs (prepareDir h w).2) ->
  p <> childPath n /\ entryName (childPath n) p = None.
Proof.
  intros Hr Hok Hn Hg. apply prepareDir_gone.
  revert Hok. unfold callFailed.
  rewrite prepareDir_emitted, Hr, existsb_app, orb_false_iff.
  intros [_ H]. cbn [existsb ev_call ev_err isRemove readDirCall andb orb] in H.
  apply in_app_iff. right. right.
  apply removeLoop_all_removed; [|done|done].
  apply forallb_forall. intros ev Hev.
  destruct (removeLoop_events h _ _ _ _ Hev) as (e & _ & _ & [Hc | ->]); [|done].
  rewrite <- not_true_iff_false, existsb_exists in H.
  unfold ev_ok. destruct (ev_err ev) eqn:He; [|done].
  exfalso. apply H. exists ev. split; [done|]. by rewrite Hc, He.
Qed.

(** So an entry that is there after such a cleanup is not a unit. *)
Lemma prepareDir_no_unit_left w p name :
  readDirErr h w = false ->
  callFailed isRemove (emitted (prepareDir h) w) = false ->
  present p (w_fs (prepareDir h w).2) (w_dirs (prepareDir h w).2) ->
  entryName ConfigDir p = Some name ->
  isGenerated name = false.
Proof.
  intros Hr Hok Hp Hn. apply not_true_iff_false. intros Hg.
  assert (In name (listed w)) as Hl.
  { destruct (prepareDir_shrinks w p Hp) as [Hw|Hw]; [|congruence].
    by apply (listed_present _ _ p). }
  destruct (prepareDir_cleaned w name p Hr Hok Hl Hg Hp) as [Hne Hb].
  destruct (under_entry _ _ Hn) as [?|[x Hx]]; [done|congruence].
Qed.

Lemma no_write_to entries w path :
  (forall e, In e entries -> isPhysical e = true -> entryPath e <> path) ->
  lastWrite path (emitted (writeConfigs h entries) w) = None.
Proof.
  intros Hne. unfold lastWrite. rewrite filter_none; [done|].
  intros ev Hev. rewrite writeConfigs_emitted, in_app_iff in Hev.
  destruct Hev as [Hev|Hev].
  - apply prepareDir_no_write in Hev. by destruct (ev_call ev).
  - apply writeLoop_events in Hev as (e & He & Hp & [-> | ->]); [|done].
    cbn. apply String.eqb_neq. by apply Hne.
Qed.

(** A run in which nothing failed: the listing succeeded, and no removal
    and no write failed. *)
Lemma writeConfigs_true entries w :
  (writeConfigs h entries w).1 = true ->
  readDirErr h w = false
  /\ callFailed isRemove (emitted (prepareDir h) w) = false
  /\ callFailed isWrite (emitted (writeConfigs h entries) w) = false
  /\ (prepareDir h w).1 = true.
Proof.
  intros Hok.
  assert (forall P, callFailed P (emitted (writeConfigs h entries) w) = false)
    as Hall.
  { intros P. rewrite writeConfigs_result in Hok.
    rewrite forallb_forall in Hok. apply existsb_false_in. intros ev Hev.
    specialize (Hok ev Hev). unfold ev_ok in Hok.
    destruct (ev_err ev); [done|]. by rewrite andb_false_r. }
  rewrite writeConfigs_split, writeLoop_result, andb_true_iff in Hok.
  destruct Hok as [Hprep _]. split; [|split; [|split; [apply Hall|done]]].
  - rewrite prepareDir_run in Hprep. by destruct (readDirErr h w).
  - specialize (Hall isRemove). unfold callFailed in *.
    rewrite writeConfigs_emitted, existsb_app, orb_false_iff in Hall.
    by destruct Hall.
Qed.

(** What there is after [writeConfigs] on a path that no entry is written
    to was there after the cleanup. *)
Lemma unwritten_present entries w p :
  (forall e, In e entries -> isPhysical e = true -> entryPath e <> p) ->
  present p (w_fs (writeConfigs h entries w).2) (w_dirs (writeConfigs h entries w).2) ->
  present p (w_fs (prepareDir h w).2) (w_dirs (prepareDir h w).2).
Proof.
  intros Hne [Hf|Hd].
  - left. pose proof (writeConfigs_last h entries w p) as Hlast.
    rewrite no_write_to in Hlast by done. by rewrite <- Hlast.
  - right. by rewrite <- (writeConfigs_dirs entries).
Qed.


(** The cleanup takes no directory away but the units it removes. *)
Lemma removeLoop_dirs_same names ok w :
  (forall n, In n names -> isGenerated n = true -> childPath n ∉ w_dirs w) ->
  w_dirs (removeLoop h names ok w).2 = w_dirs w.
Proof.
  revert ok w. induction names as [|n names IH]; intros ok w Hn; [done|].
  rewrite removeLoop_step.
  assert (w_dirs (removeStep h ok n w).2 = w_dirs w) as Hstep.
  { destruct (isGenerated n) eqn:Hg; [|by rewrite removeStep_skip].
    destruct (removeStep_run h ok n w Hg) as (_ & _ & -> & _).
    destruct (removeErr h w (childPath n)); [done|].
    apply set_eq. intros p. rewrite elem_of_difference, elem_of_singleton.
    split; [by intros [? _]|]. intros Hp. split; [done|]. intros ->.
    apply (Hn n); [by left|done|done]. }
  rewrite IH; [done|]. intros n' Hin Hg. rewrite Hstep.
  apply Hn; [by right|done].
Qed.

Lemma removeLoop_dirs_kept names ok w p :
  p ∈ w_dirs w -> (forall n, p <> childPath n) ->
  p ∈ w_dirs (removeLoop h names ok w).2.
Proof.
  revert ok w. induction names as [|n names IH]; intros ok w Hp Hne; [done|].
  rewrite removeLoop_step. apply IH; [|done].
  destruct (isGenerated n) eqn:Hg; [|by rewrite removeStep_skip].
  destruct (removeStep_run h ok n w Hg) as (_ & _ & -> & _).
  destruct (removeErr h w (childPath n)); [done|].
  apply elem_of_difference. split; [done|].
  rewrite elem_of_singleton. apply Hne.
Qed.

Lemma mkdir_not_child (p n : string) :
  p ∈ (list_to_set (ConfigDir :: ancestors ConfigDir) : gset string) ->
  p <> childPath n.
Proof.
  intros Hp%mkdir_above ->.
  assert (entryName ConfigDir (childPath n) = Some (firstComponent n)) as H
    by (apply entryName_spec; by exists n).
  congruence.
Qed.

(** The directories after a run in which nothing failed: those that
    [os.MkdirAll] makes are there, no listed unit is a directory, and a
    world of which as much holds already keeps its directories. *)
Lemma writeConfigs_dirs_true entries w :
  (writeConfigs h entries w).1 = true ->
  let w1 := (writeConfigs h entries w).2 in
  (forall p, p ∈ (list_to_set (ConfigDir :: ancestors ConfigDir) : gset string) ->
             p ∈ w_dirs w1)
  /\ (forall n, In n (listed w1) -> isGenerated n = true ->
                childPath n ∉ w_dirs w1)
  /\ ((forall p, p ∈ (list_to_set (ConfigDir :: ancestors ConfigDir)
                       : gset string) -> p ∈ w_dirs w) ->
      (forall n, In n (listed w) -> isGenerated n = true ->
                 childPath n ∉ w_dirs w) ->
      w_dirs w1 = w_dirs w).
Proof.
  intros Hok w1. subst w1.
  destruct (writeConfigs_true entries w Hok) as (Hr & Hrem & _ & Hprep).
  assert (mkdirErr h w = false) as Hmk.
  { rewrite prepareDir_result, prepareDir_emitted, forallb_app,
      mkdirEvents_ok, andb_true_iff in Hprep.
    destruct Hprep as [Hm _]. by destruct (mkdirErr h w). }
  assert (w_dirs (cleanupStart h w)
          = list_to_set (ConfigDir :: ancestors ConfigDir) ∪ w_dirs w) as Hstart
    by (unfold cleanupStart; cbn [w_dirs]; by rewrite Hmk).
  rewrite writeConfigs_dirs.
  assert (w_dirs (prepareDir h w).2
          = w_dirs (removeLoop h (listed w) (negb (mkdirErr h w))
                      (cleanupStart h w)).2) as Hd
    by (by rewrite prepareDir_run, Hr).
  split; [|split].
  - intros p Hp. rewrite Hd. apply removeLoop_dirs_kept.
    + rewrite Hstart. apply elem_of_union. by left.
    + intros n. by apply mkdir_not_child.
  - intros n Hin Hg Hdir.
    assert (isGenerated n = false); [|congruence].
    apply (prepareDir_no_unit_left w (childPath n) n Hr Hrem); [by right|].
    apply entryName_child. by apply dirEntries_slash in Hin.
  - intros Hsub Hnot. rewrite Hd, removeLoop_dirs_same.
    + rewrite Hstart. apply set_eq. intros p. rewrite elem_of_union.
      split; [intros [Hp|Hp]; [by apply Hsub|done]|by right].
    + intros n Hin Hg. rewrite Hstart, elem_of_union. intros [Hp|Hp].
      * by apply (mkdir_not_child _ n) in Hp.
      * by apply (Hnot n).
Qed.

End Directories.

(** * Properties of [writeConfigs] *)

Section SyncTheorems.

Context (h : Host).

Lemma all_ok_no_failure (evs : list Event) :
  (forall ev, In ev evs -> fsOrLog ev) ->
  forallb ev_ok evs = negb (callFailed isFsCall evs).
Proof.
  intros H. unfold callFailed. induction evs as [|ev evs IH]; [done|].
  cbn. rewrite IH by (intros ev' Hev'; apply H; by right).
  rewrite negb_orb. f_equal. unfold ev_ok.
  destruct (H ev (or_introl eq_refl)) as [-> | [Hl ->]]; [done|].
  by rewrite andb_false_r.
Qed.

Lemma prepareDir_removes_ok w :
  readDirErr h w = false ->
  callFailed isRemove (emitted (prepareDir h) w) = false ->
  w_fs (prepareDir h w).2
  = cleanAll (dirEntries ConfigDir (w_fs w) (w_dirs w)) (w_fs w).
Proof.
  intros Hr. unfold callFailed.
  rewrite prepareDir_emitted, prepareDir_run, Hr, existsb_app, orb_false_iff.
  intros [_ H]. cbn [existsb ev_call ev_err isRemove readDirCall andb orb] in H.
  apply (removeLoop_fs_ok h (listed w) _ (cleanupStart h w)).
  apply forallb_forall. intros ev Hev.
  destruct (removeLoop_events h _ _ _ _ Hev) as (e & _ & _ & [Hc | ->]); [|done].
  rewrite <- not_true_iff_false, existsb_exists in H.
  unfold ev_ok. destruct (ev_err ev) eqn:He; [|done].
  exfalso. apply H. exists ev. split; [done|]. by rewrite Hc, He.
Qed.

(** The result of [writeConfigs] says whether a file-system call failed. *)
Lemma writeConfigs_ok (entries : list NetworkConfigEntry.t) (w : World) :
  (writeConfigs h entries w).1
  = negb (callFailed isFsCall (emitted (writeConfigs h entries) w)).
Proof.
  rewrite writeConfigs_result. apply all_ok_no_failure.
  apply writeConfigs_events.
Qed.

(** C6: every failure in [writeConfigs] clears its result and stops nothing:
    the result is [true] exactly when no file-system call failed; the
    directory is always created and read, every listed unit is removed when
    the listing succeeded, and every physical entry is written, whatever
    failed before; a path holds the data of the last write to it when that
    write succeeded. *)
Theorem sync_best_effort (entries : list NetworkConfigEntry.t) (w : World) :
  let r := writeConfigs h entries w in
  let evs := emitted (writeConfigs h entries) w in
  r.1 = negb (callFailed isFsCall evs)
  /\ (forall ev, In ev evs -> fsOrLog ev)
  /\ List.filter isFsCall (callsOf evs)
     = CallMkdirAll ConfigDir 493 :: CallReadDir ConfigDir
         :: (if callFailed isReadDir evs then []
             else removeCalls (dirEntries ConfigDir (w_fs w) (w_dirs w)))
         ++ writeCalls entries
  /\ (forall path,
        match lastWrite path evs with
        | Some ev =>
            ev_err ev = false ->
            exists data perm, ev_call ev = CallWriteFile path data perm
              /\ w_fs r.2 !! path = Some data
        | None => True
        end).
Proof.
  intros r evs. subst r evs. split; [apply writeConfigs_ok|].
  split; [apply writeConfigs_events|].
  split; [apply writeConfigs_fs_calls|].
  intros path. pose proof (writeConfigs_last h entries w path) as H.
  by destruct (lastWrite _ _).
Qed.


(** C10: the path of a unit is a function of the entry's name alone, and an
    injective one; every physical entry is written, in entry order; the
    distinct paths are as many as the distinct names; and when no write
    failed the file of a name holds the rendering of the last physical
    entry with that name. *)
Theorem same_name_last_write_wins (entries : list NetworkConfigEntry.t)
    (w : World) :
  let r := writeConfigs h entries w in
  let evs := emitted (writeConfigs h entries) w in
  let physical := List.filter isPhysical entries in
  (forall e1 e2,
     entryPath e1 = entryPath e2
     <-> NetworkConfigEntry.Name e1 = NetworkConfigEntry.Name e2)
  /\ List.filter isWrite (callsOf evs) = map writeCall physical
  /\ remove_dups (map entryPath physical)
     = map pathOfName (remove_dups (map NetworkConfigEntry.Name physical))
  /\ (callFailed isWrite evs = false ->
      forall l1 e l2, entries = l1 ++ e :: l2 -> isPhysical e = true ->
        (forall e', In e' l2 -> isPhysical e' = true ->
           NetworkConfigEntry.Name e' <> NetworkConfigEntry.Name e) ->
        w_fs r.2 !! entryPath e = Some (renderConfig e)).
Proof.
  intros r evs physical. subst r evs physical. split.
  { intros e1 e2. rewrite !entryPath_eq. split; [apply pathOfName_inj|].
    by intros ->. }
  split; [apply writeConfigs_write_calls|]. split.
  { rewrite <- (remove_dups_fmap_inj pathOfName) by apply pathOfName_inj.
    by rewrite map_map. }
  intros Hok l1 e l2 -> Hp Hl2.
  rewrite writeConfigs_writes_ok by done.
  by rewrite writeAll_lookup, lastEntryAt_split.
Qed.

End SyncTheorems.

(** C7: two runs of [writeConfigs] on the same entries in which every step
    succeeds leave the store as the first run left it, files and directories,
    with every listed name once, and with every listed unit holding the
    rendering of a current entry. *)
Theorem sync_idempotent (h1 h2 : Host) (entries : list NetworkConfigEntry.t)
    (w : World) :
  let r1 := writeConfigs h1 entries w in
  let r2 := writeConfigs h2 entries r1.2 in
  r1.1 = true -> r2.1 = true ->
  w_fs r2.2 = w_fs r1.2
  /\ w_dirs r2.2 = w_dirs r1.2
  /\ NoDup (dirEntries ConfigDir (w_fs r2.2) (w_dirs r2.2))
  /\ (forall name, In name (dirEntries ConfigDir (w_fs r2.2) (w_dirs r2.2)) ->
        isGenerated name = true ->
        exists e, lastEntryAt (childPath name) entries = Some e
          /\ w_fs r2.2 !! childPath name = Some (renderConfig e)).
Proof.
  intros r1 r2 H1 H2. subst r1 r2.
  set (w1 := (writeConfigs h1 entries w).2) in *.
  assert (w_fs w1
          = writeAll entries
              (cleanAll (dirEntries ConfigDir (w_fs w) (w_dirs w)) (w_fs w)))
    as Hfs1 by by apply writeConfigs_fs_all_ok.
  assert (w_fs (writeConfigs h2 entries w1).2 = w_fs w1) as Heq.
  { rewrite (writeConfigs_fs_all_ok h2) by done. rewrite Hfs1.
    apply sync_store_idempotent. }
  split; [done|]. split.
  { destruct (writeConfigs_dirs_true h1 entries w H1) as (Hmk & Hnot & _).
    destruct (writeConfigs_dirs_true h2 entries w1 H2) as (_ & _ & Hsame).
    by apply Hsame. }
  split; [apply NoDup_dirEntries|].
  intros name (p & Hp & Hn)%In_dirEntries Hg.
  destruct (writeConfigs_true h2 entries w1 H2) as (Hr & Hrem & Hwr & Hprep).
  destruct (lastEntryAt p entries) as [e|] eqn:He.
  - destruct (under_entry _ _ Hn) as [->|Hb].
    + exists e. split; [done|]. by rewrite Heq, Hfs1, writeAll_lookup, He.
    + exfalso.
      assert (w_fs w1 !! p = Some (renderConfig e)) as Hf1
        by by rewrite Hfs1, writeAll_lookup, He.
      assert (In name (listed w1)) as Hl.
      { apply (listed_present _ _ p); [|done]. left. by eexists. }
      assert (present p (w_fs (prepareDir h2 w1).2) (w_dirs (prepareDir h2 w1).2))
        as Hpp.
      { left. rewrite (prepareDir_fs_ok h2 w1 Hprep), cleanAll_lookup.
        destruct (existsb _ _) eqn:Hex; [|by eexists].
        apply existsb_exists in Hex as (n & Hin & Hnp).
        apply String.eqb_eq in Hnp as <-.
        apply filter_In in Hin as [Hin _]. apply dirEntries_slash in Hin.
        rewrite (entry_not_beneath n name Hin) in Hb. by destruct Hb. }
      destruct (prepareDir_cleaned h2 w1 name p Hr Hrem Hl Hg Hpp) as [_ Hnone].
      rewrite Hnone in Hb. by destruct Hb.
  - exfalso.
    apply (unwritten_present h2 entries w1) in Hp.
    2:{ intros e' He' Hphys. by apply (lastEntryAt_None p entries). }
    pose proof (prepareDir_no_unit_left h2 w1 p name Hr Hrem Hp Hn) as Hng.
    congruence.
Qed.

(** * The shapes of a run of [main] *)

Section MainRuns.

Context (h : Host).

Lemma listLinks_run w :
  (listLinks h w).1 = listedLinks h w
  /\ w_fs (listLinks h w).2 = w_fs w
  /\ w_trace (listLinks h w).2 = w_trace w ++ listEvents h w.
Proof.
  unfold listLinks, listedLinks, listEvents. rewrite run_bind. msimpl.
  destruct (host_err h (length (w_trace w)) CallLinkList); msimpl;
    rewrite <- ?app_assoc; done.
Qed.

Lemma activate_run haveLink firstEn name w :
  exists A,
    ActivateRun haveLink firstEn name (activate h haveLink firstEn name w).1 A
    /\ w_fs (activate h haveLink firstEn name w).2 = w_fs w
    /\ w_trace (activate h haveLink firstEn name w).2 = w_trace w ++ A.
Proof.
  unfold activate. destruct haveLink; cbn [negb].
  { exists []. split; [by apply act_have_link|]. by rewrite app_nil_r. }
  destruct firstEn as [link|]; rewrite !run_bind; msimpl.
  - destruct (host_err h (length (w_trace w)) (CallLinkSetUp link)) eqn:E1;
      msimpl.
    + eexists. split; [by apply act_up_failed|].
      split; [done|]. by rewrite <- !app_assoc.
    + destruct (host_err h _ (CallAddrAdd link llAddr)) eqn:E2; msimpl.
      * eexists. split; [by apply act_addr_failed|].
        split; [done|]. by rewrite <- !app_assoc.
      * eexists. split; [by apply act_done|].
        split; [done|]. by rewrite <- !app_assoc.
  - eexists. split; [by apply act_no_interface|]. done.
Qed.

Lemma deactivate_run haveLink firstEn w :
  exists D,
    DeactivateRun haveLink firstEn D
    /\ w_fs (deactivate h haveLink firstEn w).2 = w_fs w
    /\ w_trace (deactivate h haveLink firstEn w).2 = w_trace w ++ D.
Proof.
  unfold deactivate. destruct firstEn as [link|].
  - destruct haveLink; cbn [negb].
    + exists []. split; [apply deact_skipped; by left|]. by rewrite app_nil_r.
    + rewrite !run_bind. msimpl. eexists.
      split; [by apply deact_done|]. split; [done|].
      by rewrite <- !app_assoc.
  - exists []. split; [apply deact_skipped; by right|]. by rewrite app_nil_r.
Qed.

Lemma fetch_run w :
  exists F,
    FetchRun h (w_fs w) (fetch h w).1 F (w_fs (fetch h w).2)
    /\ w_trace (fetch h w).2 = w_trace w ++ F.
Proof.
  unfold fetch. rewrite run_bind. msimpl.
  destruct (host_err h (length (w_trace w)) (CallGet metadataURL)); msimpl.
  { eexists. split; [apply fetch_get_failed|]. by rewrite <- !app_assoc. }
  destruct (Response.StatusCode (host_response h) =? 200) eqn:Hs; cbn [negb];
    msimpl.
  2: { apply Z.eqb_neq in Hs. eexists. split; [by apply fetch_bad_status|].
       by rewrite <- !app_assoc. }
  apply Z.eqb_eq in Hs.
  destruct (host_err h _ CallReadAll); msimpl.
  { eexists. split; [by apply fetch_read_failed|]. by rewrite <- !app_assoc. }
  destruct (host_decode h (Response.Body (host_response h))) as [m|] eqn:Hd;
    msimpl.
  2: { eexists. split; [by apply fetch_parse_failed|].
       by rewrite <- !app_assoc. }
  destruct (NetworkConfig.Version (Metadata.NetworkConfig m) =? 1) eqn:Hv;
    cbn [negb]; msimpl.
  2: { apply Z.eqb_neq in Hv. eexists. split; [by eapply fetch_bad_version|].
       by rewrite <- !app_assoc. }
  apply Z.eqb_eq in Hv.
  set (w' := {| w_fs := w_fs w; w_dirs := w_dirs w;
                w_trace := (w_trace w ++ [Ev (CallGet metadataURL) false])
                             ++ [Ev CallReadAll false] |}).
  eexists. split.
  - by apply (fetch_synced h (w_fs w) m w').
  - rewrite (traced_eq _ _ (writeConfigs_traced h _)).
    subst w'. cbn [w_trace]. by rewrite <- !app_assoc.
Qed.

Lemma main_runs w :
  MainRun h w (main h w).1 (emitted (main h) w) (w_fs (main h w).2).
Proof.
  destruct (listLinks_run w) as (Hl1 & Hl2 & Hl3).
  destruct (probeLinks (listedLinks h w)) as [[haveLink firstEn] name] eqn:Hp.
  set (w1 := (listLinks h w).2) in *.
  destruct (activate_run haveLink firstEn name w1) as (A & HA & Ha2 & Ha3).
  set (w2 := (activate h haveLink firstEn name w1).2) in *.
  set (firstEn' := (activate h haveLink firstEn name w1).1) in *.
  destruct (fetch_run w2) as (F & HF & Hf3).
  set (w3 := (fetch h w2).2) in *.
  set (ok := (fetch h w2).1) in *.
  destruct (deactivate_run haveLink firstEn' w3) as (D & HD & Hd2 & Hd3).
  set (w4 := (deactivate h haveLink firstEn' w3).2) in *.
  assert (main h w
          = if ok then (0, w4)
            else (1, {| w_fs := w_fs w4; w_dirs := w_dirs w4;
                        w_trace := w_trace w4 ++ [Ev (CallExit 1) false] |}))
    as Hmain.
  { unfold main. rewrite run_bind. rewrite Hl1, Hp. fold w1.
    rewrite run_bind. fold firstEn' w2. rewrite run_bind. fold ok w3.
    rewrite run_bind. fold w4. by destruct ok. }
  assert (w_trace w4 = w_trace w ++ listEvents h w ++ A ++ F ++ D) as Ht.
  { rewrite Hd3, Hf3, Ha3, Hl3. by rewrite <- !app_assoc. }
  assert (emitted (main h) w
          = listEvents h w ++ A ++ F ++ D
              ++ (if ok then [] else [Ev (CallExit 1) false])) as ->.
  { apply emitted_eq. rewrite Hmain. destruct ok; cbn [snd w_trace];
      rewrite Ht, <- ?app_assoc; by rewrite ?app_nil_r. }
  assert ((main h w).1 = if ok then 0 else 1) as -> by (rewrite Hmain; by destruct ok).
  assert (w_fs (main h w).2 = w_fs w3) as ->.
  { rewrite Hmain. destruct ok; cbn [snd w_fs]; by rewrite Hd2. }
  econstructor; [exact Hp|exact HA| |exact HD].
  replace (w_fs w) with (w_fs w2); [exact HF|]. by rewrite Ha2, Hl2.
Qed.

End MainRuns.

Lemma callFailed_app (P : Call -> bool) (l1 l2 : list Event) :
  callFailed P (l1 ++ l2) = callFailed P l1 || callFailed P l2.
Proof. apply existsb_app. Qed.

Lemma callFailed_none (P : Call -> bool) (evs : list Event) :
  (forall ev, In ev evs -> P (ev_call ev) = false) -> callFailed P evs = false.
Proof.
  intros H. apply existsb_false_in. intros ev Hev. by rewrite (H ev Hev).
Qed.

Lemma callFailed_false (P : Call -> bool) (evs : list Event) (ev : Event) :
  callFailed P evs = false -> In ev evs -> P (ev_call ev) = true ->
  ev_err ev = false.
Proof.
  intros H Hin HP. apply not_true_iff_false. intros He.
  apply not_true_iff_false in H. apply H. apply existsb_exists.
  exists ev. by rewrite HP, He.
Qed.

Lemma existsb_ext_in {A} (f g : A -> bool) (l : list A) :
  (forall x, In x l -> f x = g x) -> existsb f l = existsb g l.
Proof.
  induction l as [|x l IH]; intros H; [done|].
  cbn. rewrite (H x) by by left. rewrite IH; [done|].
  intros y Hy. apply H. by right.
Qed.

(** * The calls of each phase *)

Section Shapes.

Context (h : Host).

Lemma listEvents_calls (P : Call -> bool) w ev :
  P CallLinkList = false -> (forall m, P (CallPrintf m) = false) ->
  In ev (listEvents h w) -> P (ev_call ev) = false.
Proof.
  intros H1 H2. unfold listEvents.
  destruct (host_err h _ _); intros Hin;
    repeat (destruct Hin as [<-|Hin]; [cbn; by auto|]); done.
Qed.

Lemma activate_calls (P : Call -> bool) haveLink firstEn name firstEn' A ev :
  ActivateRun haveLink firstEn name firstEn' A ->
  (forall c, isNetlink c = true -> P c = false) ->
  (forall m, P (CallPrintf m) = false) ->
  In ev A -> P (ev_call ev) = false.
Proof.
  intros HA H1 H2 Hin. destruct HA;
    repeat (destruct Hin as [<-|Hin]; [cbn; by auto|]); done.
Qed.

Lemma deactivate_calls (P : Call -> bool) haveLink firstEn D ev :
  DeactivateRun haveLink firstEn D ->
  (forall c, isNetlink c = true -> P c = false) ->
  In ev D -> P (ev_call ev) = false.
Proof.
  intros HD H1 Hin. destruct HD;
    repeat (destruct Hin as [<-|Hin]; [cbn; by auto|]); done.
Qed.

Lemma sync_calls (P : Call -> bool) entries w ev :
  (forall c, isFsCall c = true -> P c = false) ->
  (forall m, P (CallPrintf m) = false) ->
  In ev (emitted (writeConfigs h entries) w) -> P (ev_call ev) = false.
Proof.
  intros H1 H2 Hin. apply writeConfigs_events in Hin as [Hf|[Hl _]].
  - by apply H1.
  - destruct (ev_call ev); first [done | apply H2].
Qed.

Lemma fetch_calls (P : Call -> bool) fs ok F fs' ev :
  FetchRun h fs ok F fs' ->
  (forall c, isFetchCall c = true -> P c = false) ->
  (forall c, isFsCall c = true -> P c = false) ->
  (forall m, P (CallPrintf m) = false) ->
  P CallClose = false ->
  In ev F -> P (ev_call ev) = false.
Proof.
  intros HF H1 H2 H3 H4 Hin. destruct HF.
  1-5: repeat (destruct Hin as [<-|Hin]; [cbn; by auto|]); done.
  rewrite !in_app_iff in Hin. destruct Hin as [Hin|[Hin|Hin]].
  - repeat (destruct Hin as [<-|Hin]; [cbn; by auto|]); done.
  - by apply (sync_calls P _ _ _ H2 H3 Hin).
  - destruct Hin as [<-|[]]. done.
Qed.

(** The fetch succeeds exactly when none of its calls fails, the status is
    200 and the document decodes with version 1. *)
Lemma fetch_ok_iff fs ok F fs' :
  FetchRun h fs ok F fs' ->
  ok = true
  <-> callFailed (fun c => isFetchCall c || isFsCall c) F = false
      /\ Response.StatusCode (host_response h) = 200
      /\ exists m, host_decode h (Response.Body (host_response h)) = Some m
           /\ NetworkConfig.Version (Metadata.NetworkConfig m) = 1.
Proof.
  intros HF. destruct HF as [|Hs|Hs|Hs Hd|m Hs Hd Hv|m w' Hs Hd Hv Hw sync].
  - split; [done|]. by intros [H _].
  - split; [done|]. by intros (_ & H & _).
  - split; [done|]. by intros [H _].
  - split; [done|]. intros (_ & _ & m & Hm & _). congruence.
  - split; [done|]. intros (_ & _ & m' & Hm & Hv'). congruence.
  - pose proof (writeConfigs_ok h (NetworkConfig.Config (Metadata.NetworkConfig m)) w')
      as Hres.
    pose proof (writeConfigs_events h (NetworkConfig.Config (Metadata.NetworkConfig m)) w')
      as Hev.
    fold sync in Hres, Hev.
    assert (callFailed (fun c => isFetchCall c || isFsCall c)
              ([Ev (CallGet metadataURL) false; Ev CallReadAll false]
                 ++ emitted sync w' ++ [Ev CallClose false])
            = callFailed isFsCall (emitted sync w')) as ->.
    { rewrite !callFailed_app.
      change (callFailed (fun c => isFetchCall c || isFsCall c)
                [Ev (CallGet metadataURL) false; Ev CallReadAll false])
        with false.
      change (callFailed (fun c => isFetchCall c || isFsCall c)
                [Ev CallClose false]) with false.
      rewrite orb_false_r. cbn [orb].
      unfold callFailed. apply existsb_ext_in. intros ev Hin.
      destruct (Hev ev Hin) as [Hf|[Hl _]]; destruct (ev_call ev); done. }
    rewrite Hres. split.
    + intros H%negb_true_iff. eauto.
    + intros [H _]. by rewrite H.
Qed.

Lemma fetch_ok_synced fs F fs' :
  FetchRun h fs true F fs' ->
  exists m w',
    let sync :=
      writeConfigs h (NetworkConfig.Config (Metadata.NetworkConfig m)) in
    (sync w').1 = true
    /\ F = [Ev (CallGet metadataURL) false; Ev CallReadAll false]
           ++ emitted sync w' ++ [Ev CallClose false].
Proof.
  intros HF. remember true as ok eqn:Hok.
  destruct HF; try discriminate. by exists m, w'.
Qed.

End Shapes.

(** C5: a document whose version is not 1 makes the run fail without any
    call to the file system, and leaves the store as it was. *)
Theorem unknown_version_rejected (h : Host) (w : World) (m : Metadata.t) :
  host_decode h (Response.Body (host_response h)) = Some m ->
  NetworkConfig.Version (Metadata.NetworkConfig m) <> 1 ->
  let r := main h w in
  let evs := emitted (main h) w in
  r.1 = 1
  /\ (forall ev, In ev evs -> isFsCall (ev_call ev) = false)
  /\ w_fs r.2 = w_fs w
  /\ In (Ev (CallExit 1) false) evs
  /\ (In (Ev CallReadAll false) evs ->
      In (Ev (CallPrintf
                (LogUnknownVersion
                   (NetworkConfig.Version (Metadata.NetworkConfig m)))) false)
         evs).
Proof.
  intros Hd Hv r evs. subst r evs.
  destruct (main_runs h w) as [haveLink firstEn name firstEn' A ok F fs' D Hp HA HF HD].
  assert (ok = false /\ fs' = w_fs w
          /\ (forall ev, In ev F -> isFsCall (ev_call ev) = false)
          /\ (In (Ev CallReadAll false) F ->
              In (Ev (CallPrintf
                        (LogUnknownVersion
                           (NetworkConfig.Version (Metadata.NetworkConfig m))))
                     false) F))
    as (-> & -> & HnoF & Hlog).
  { destruct HF as [|Hs|Hs|Hs Hd'|m' Hs Hd' Hv'|m' w' Hs Hd' Hv' Hw sync];
      try congruence.
    - repeat split; [|intros [|[|[]]]; done].
      intros ev Hin. repeat (destruct Hin as [<-|Hin]; [done|]); done.
    - repeat split; [|intros [|[|[|[]]]]; done].
      intros ev Hin. repeat (destruct Hin as [<-|Hin]; [done|]); done.
    - repeat split; [|intros [|[|[|[|[]]]]]; done].
      intros ev Hin. repeat (destruct Hin as [<-|Hin]; [done|]); done.
    - assert (m' = m) as -> by congruence.
      repeat split; [|intros _; right; right; by left].
      intros ev Hin. repeat (destruct Hin as [<-|Hin]; [done|]); done. }
  split; [done|]. split; [|split; [done|split]].
  - intros ev. rewrite !in_app_iff. intros [Hin|[Hin|[Hin|[Hin|Hin]]]].
    + by apply (listEvents_calls h isFsCall w ev).
    + by apply (activate_calls isFsCall _ _ _ _ _ ev HA);
        [intros []|..].
    + by apply HnoF.
    + by apply (deactivate_calls isFsCall _ _ _ ev HD); [intros []|].
    + destruct Hin as [<-|[]]. done.
  - rewrite !in_app_iff. do 4 right. by left.
  - rewrite !in_app_iff. intros [Hin|[Hin|[Hin|[Hin|Hin]]]].
    + by apply (listEvents_calls h isFetchCall w) in Hin.
    + by apply (activate_calls isFetchCall _ _ _ _ _ _ HA) in Hin;
        [|intros []|].
    + right. right. left. by apply Hlog.
    + by apply (deactivate_calls isFetchCall _ _ _ _ HD) in Hin; [|intros []].
    + destruct Hin as [|[]]; done.
Qed.

(** C1: the exit status is 0 or 1; it is 0 exactly when no call of the
    fetch or of the sync failed, the status was 200 and the document decoded
    with version 1, and then the fetch and the sync did take place; it is 1
    exactly when the program called [os.Exit(1)]. *)
Theorem exit_status (h : Host) (w : World) :
  let r := main h w in
  let evs := emitted (main h) w in
  (r.1 = 0 \/ r.1 = 1)
  /\ (r.1 = 0
      <-> callFailed (fun c => isFetchCall c || isFsCall c) evs = false
          /\ Response.StatusCode (host_response h) = 200
          /\ exists m, host_decode h (Response.Body (host_response h)) = Some m
               /\ NetworkConfig.Version (Metadata.NetworkConfig m) = 1)
  /\ (r.1 = 0 ->
      In (Ev (CallGet metadataURL) false) evs
      /\ In (Ev CallReadAll false) evs
      /\ In (Ev (CallMkdirAll ConfigDir 493) false) evs
      /\ In (Ev (CallReadDir ConfigDir) false) evs)
  /\ (r.1 = 1 <-> In (Ev (CallExit 1) false) evs).
Proof.
  intros r evs. subst r evs.
  destruct (main_runs h w) as [haveLink firstEn name firstEn' A ok F fs' D Hp HA HF HD].
  set (P := fun c => isFetchCall c || isFsCall c).
  assert (callFailed P
            (listEvents h w ++ A ++ F ++ D
               ++ (if ok then [] else [Ev (CallExit 1) false]))
          = callFailed P F) as HP.
  { assert (forall c, isNetlink c = true -> P c = false) as HPn
      by (by intros []).
    assert (forall m, P (CallPrintf m) = false) as HPl by done.
    rewrite !callFailed_app.
    rewrite (callFailed_none P (listEvents h w))
      by (intros ev; by apply listEvents_calls).
    rewrite (callFailed_none P A)
      by (intros ev; apply (activate_calls P _ _ _ _ _ _ HA HPn HPl)).
    rewrite (callFailed_none P D)
      by (intros ev; apply (deactivate_calls P _ _ _ _ HD HPn)).
    rewrite (callFailed_none P (if ok then [] else _))
      by (intros ev; destruct ok; [done|]; by intros [<-|[]]).
    cbn [orb]. by rewrite !orb_false_r. }
  split; [destruct ok; by eauto|]. split; [|split].
  - rewrite HP. unfold P. etrans; [|apply (fetch_ok_iff h _ _ _ _ HF)].
    by destruct ok.
  - intros Hok. assert (ok = true) as -> by by destruct ok.
    apply fetch_ok_synced in HF as (m' & w' & H & ->). cbn zeta in H.
    set (sync := writeConfigs h
                   (NetworkConfig.Config (Metadata.NetworkConfig m'))) in *.
    pose proof (writeConfigs_ok h (NetworkConfig.Config (Metadata.NetworkConfig m')) w')
      as Hres.
    pose proof (writeConfigs_fs_calls h (NetworkConfig.Config (Metadata.NetworkConfig m')) w')
      as Hcalls.
    fold sync in Hres, Hcalls.
    assert (forall c, In c (List.filter isFsCall (callsOf (emitted sync w'))) ->
                      In (Ev c false) (emitted sync w')) as Hin.
    { intros c Hc. apply filter_In in Hc as [Hc Hfs].
      apply in_map_iff in Hc as ([c' e] & <- & Hev).
      assert (e = false) as ->; [|done].
      rewrite H in Hres. symmetry in Hres. apply negb_true_iff in Hres.
      by apply (callFailed_false isFsCall _ _ Hres Hev). }
    rewrite Hcalls in Hin.
    repeat split; rewrite !in_app_iff.
    + right. right. left. left. by left.
    + right. right. left. left. right. by left.
    + right. right. left. right. left. apply Hin. by left.
    + right. right. left. right. left. apply Hin. right. by left.
  - split.
    + destruct ok; [done|]. intros _. rewrite !in_app_iff.
      do 4 right. by left.
    + destruct ok; [|done]. rewrite !in_app_iff.
      set (Q := fun c => match c with CallExit _ => true | _ => false end).
      assert (forall c, isNetlink c = true -> Q c = false) as HQn
        by (by intros []).
      assert (forall c, isFetchCall c = true -> Q c = false) as HQf
        by (by intros []).
      assert (forall c, isFsCall c = true -> Q c = false) as HQs
        by (by intros []).
      assert (forall m, Q (CallPrintf m) = false) as HQl by done.
      intros [Hin|[Hin|[Hin|[Hin|[]]]]]; exfalso.
      * by apply (listEvents_calls h Q w _ eq_refl HQl) in Hin.
      * by apply (activate_calls Q _ _ _ _ _ _ HA HQn HQl) in Hin.
      * by apply (fetch_calls h Q _ _ _ _ _ HF HQf HQs HQl eq_refl) in Hin.
      * by apply (deactivate_calls Q _ _ _ _ HD HQn) in Hin.
Qed.

Lemma link_runs haveLink firstEn name firstEn' A D :
  ActivateRun haveLink firstEn name firstEn' A ->
  DeactivateRun haveLink firstEn' D ->
  LinkRun haveLink firstEn name A D.
Proof.
  intros HA HD.
  destruct HA as [Hl|Hl Hf|link Hl Hf|link e Hl Hf|link Hl Hf];
    destruct HD as [[Hs|Hs]|link' e1 e2 Hl' Hf']; try congruence;
    first [ by apply link_have_link
          | by apply link_no_interface
          | by apply link_up_failed
          | by apply link_addr_failed
          | idtac ].
  assert (link' = link) as -> by congruence. by apply link_activated.
Qed.

(** Case analysis on membership in a list given element by element. *)
Ltac in_cases H :=
  cbn [app In] in H;
  repeat (destruct H as [H|H];
          [try discriminate H; try (injection H as ?; subst)|]);
  try contradiction.

(** * Activation and deactivation *)

Section Teardown.

Context (h : Host).

Lemma fetch_no_netlink fs ok F fs' ev :
  FetchRun h fs ok F fs' -> In ev F -> isNetlink (ev_call ev) = false.
Proof.
  intros HF. apply (fetch_calls h isNetlink _ _ _ _ _ HF); try done;
    by intros [].
Qed.

Lemma isLinkChange_netlink c : isLinkChange c = true -> isNetlink c = true.
Proof. by destruct c. Qed.

Lemma isTeardown_change c : isTeardown c = true -> isLinkChange c = true.
Proof. by destruct c. Qed.

(** Interfaces are only changed by the activation and the deactivation. *)
Lemma link_change_in w fs ok F fs' A D (X : list Event) ev :
  FetchRun h fs ok F fs' ->
  (forall x, In x X -> ev_call x = CallExit 1) ->
  isLinkChange (ev_call ev) = true ->
  In ev (listEvents h w ++ A ++ F ++ D ++ X) <-> In ev (A ++ D).
Proof.
  intros HF HX Hc. rewrite !in_app_iff. split; [|tauto].
  intros [Hin|[Hin|[Hin|[Hin|Hin]]]]; [exfalso|tauto|exfalso|tauto|exfalso].
  - apply (listEvents_calls h isLinkChange w ev eq_refl (fun _ => eq_refl)) in Hin.
    congruence.
  - apply (fetch_no_netlink _ _ _ _ _ HF) in Hin.
    apply isLinkChange_netlink in Hc. congruence.
  - apply HX in Hin. by rewrite Hin in Hc.
Qed.

Lemma exit_only (ok : bool) x :
  In x (if ok then [] else [Ev (CallExit 1) false]) -> ev_call x = CallExit 1.
Proof. destruct ok; [done|]. by intros [<-|[]]. Qed.

End Teardown.

(** C4: the address is removed and the interface set down at the end of the
    run exactly when there was no link and the activation went through; a
    failed address assignment is followed at once by setting the interface
    down, and then nothing is torn down later; after a failed [LinkSetUp]
    nothing is torn down at all; no run sets the interface down twice. *)
Theorem deactivation_iff_activated (h : Host) (w : World) :
  let evs := emitted (main h) w in
  let '(haveLink, firstEn, name) := probeLinks (listedLinks h w) in
  (forall link,
     (exists e, In (Ev (CallAddrDel link llAddr) e) evs)
     <-> haveLink = false /\ firstEn = Some link
         /\ In (Ev (CallLinkSetUp link) false) evs
         /\ In (Ev (CallAddrAdd link llAddr) false) evs)
  /\ (forall link e, In (Ev (CallAddrDel link llAddr) e) evs ->
        exists pre e2 post,
          evs = pre ++ [Ev (CallAddrDel link llAddr) e;
                        Ev (CallLinkSetDown link) e2] ++ post
          /\ (forall ev, In ev pre -> isTeardown (ev_call ev) = false)
          /\ (post = [] \/ post = [Ev (CallExit 1) false]))
  /\ (forall link, In (Ev (CallAddrAdd link llAddr) true) evs ->
        exists pre e post,
          evs = pre ++ [Ev (CallAddrAdd link llAddr) true;
                        Ev (CallPrintf (LogAddingAddress name)) false;
                        Ev (CallLinkSetDown link) e] ++ post
          /\ (forall ev, In ev (pre ++ post) -> isTeardown (ev_call ev) = false))
  /\ (forall link, In (Ev (CallLinkSetUp link) true) evs ->
        forall ev, In ev evs -> isTeardown (ev_call ev) = false)
  /\ (length (List.filter isLinkSetDown (callsOf evs)) <= 1)%nat.
Proof.
  intros evs. subst evs.
  destruct (main_runs h w)
    as [haveLink firstEn name firstEn' A ok F fs' D Hp HA HF HD].
  rewrite Hp.
  set (X := if ok then [] else [Ev (CallExit 1) false]).
  pose proof (exit_only ok : forall x, In x X -> _) as HX.
  pose proof (fun ev => link_change_in h w _ _ _ _ A D X ev HF HX) as Hin.
  assert (forall ev, In ev (listEvents h w) -> isTeardown (ev_call ev) = false)
    as HL by (intros ev; by apply listEvents_calls).
  assert (forall ev, In ev F -> isTeardown (ev_call ev) = false) as HFt.
  { intros ev Hev. apply (fetch_no_netlink _ _ _ _ _ _ HF) in Hev.
    by destruct (ev_call ev). }
  assert (forall ev, In ev X -> isTeardown (ev_call ev) = false) as HXt.
  { intros ev Hev. by rewrite (HX ev Hev). }
  assert (List.filter isLinkSetDown
            (callsOf (listEvents h w ++ A ++ F ++ D ++ X))
          = List.filter isLinkSetDown (callsOf A)
              ++ List.filter isLinkSetDown (callsOf D)) as Hdown.
  { rewrite !callsOf_app, !List.filter_app.
    rewrite (filter_calls_none isLinkSetDown (listEvents h w))
      by (intros ev; by apply listEvents_calls).
    rewrite (filter_calls_none isLinkSetDown F).
    2: { intros ev Hev. apply (fetch_no_netlink _ _ _ _ _ _ HF) in Hev.
         by destruct (ev_call ev). }
    rewrite (filter_calls_none isLinkSetDown X)
      by (intros ev Hev; by rewrite (HX ev Hev)).
    by rewrite app_nil_r. }
  rewrite Hdown. clear Hdown.
  destruct (link_runs _ _ _ _ _ _ HA HD)
    as [Hl|Hl Hf|link0 Hl Hf|link0 e0 Hl Hf|link0 e1 e2 Hl Hf].
  - (* a link is up: nothing is activated, nothing is torn down *)
    split; [|split; [|split; [|split]]].
    + intros link. rewrite !Hin by done. split.
      * intros [e Hev]. apply Hin in Hev; [|done]. in_cases Hev.
      * intros [Hn _]. congruence.
    + intros link e Hev. apply Hin in Hev; [|done]. in_cases Hev.
    + intros link Hev. apply Hin in Hev; [|done]. in_cases Hev.
    + intros link Hev. apply Hin in Hev; [|done]. in_cases Hev.
    + cbn. lia.
  - (* no ethernet interface *)
    split; [|split; [|split; [|split]]].
    + intros link. rewrite !Hin by done. split.
      * intros [e Hev]. apply Hin in Hev; [|done]. in_cases Hev.
      * intros (_ & Hn & _). congruence.
    + intros link e Hev. apply Hin in Hev; [|done]. in_cases Hev.
    + intros link Hev. apply Hin in Hev; [|done]. in_cases Hev.
    + intros link Hev. apply Hin in Hev; [|done]. in_cases Hev.
    + cbn. lia.
  - (* LinkSetUp failed *)
    split; [|split; [|split; [|split]]].
    + intros link. rewrite !Hin by done. split.
      * intros [e Hev]. apply Hin in Hev; [|done]. in_cases Hev.
      * intros (_ & _ & Hev & _). in_cases Hev.
    + intros link e Hev. apply Hin in Hev; [|done]. in_cases Hev.
    + intros link Hev. apply Hin in Hev; [|done]. in_cases Hev.
    + intros link _ ev. rewrite !in_app_iff.
      intros [Hev|[Hev|[Hev|[Hev|Hev]]]]; [by apply HL| |by apply HFt| |by apply HXt].
      * in_cases Hev; by subst.
      * destruct Hev.
    + cbn. lia.
  - (* AddrAdd failed: the interface is set down at once *)
    split; [|split; [|split; [|split]]].
    + intros link. rewrite !Hin by done. split.
      * intros [e Hev]. apply Hin in Hev; [|done]. in_cases Hev.
      * intros (_ & _ & _ & Hev). in_cases Hev.
    + intros link e Hev. apply Hin in Hev; [|done]. in_cases Hev.
    + intros link Hev. apply Hin in Hev; [|done]. in_cases Hev.
      exists (listEvents h w ++ [Ev (CallLinkSetUp link) false]), e0, (F ++ X).
      split; [by rewrite <- !app_assoc|].
      intros ev. rewrite !in_app_iff.
      intros [[Hev|Hev]|[Hev|Hev]]; [by apply HL| |by apply HFt|by apply HXt].
      in_cases Hev; by subst.
    + intros link Hev. apply Hin in Hev; [|done]. in_cases Hev.
    + cbn. lia.
  - (* activated: torn down at the end *)
    split; [|split; [|split; [|split]]].
    + intros link. rewrite !Hin by done. split.
      * intros [e Hev]. apply Hin in Hev; [|done]. in_cases Hev.
        split; [done|split; [done|split; [by left|right; by left]]].
      * intros (_ & Hn & _). assert (link = link0) as -> by congruence.
        exists e1. apply Hin; [done|]. right. right. by left.
    + intros link e Hev. apply Hin in Hev; [|done]. in_cases Hev.
      exists (listEvents h w ++ [Ev (CallLinkSetUp link) false;
                                 Ev (CallAddrAdd link llAddr) false] ++ F),
             e2, X.
      split; [by rewrite <- !app_assoc|]. split.
      * intros ev. rewrite !in_app_iff.
        intros [Hev|[Hev|Hev]]; [by apply HL| |by apply HFt].
        in_cases Hev; by subst.
      * unfold X. destruct ok; by eauto.
    + intros link Hev. apply Hin in Hev; [|done]. in_cases Hev.
    + intros link Hev. apply Hin in Hev; [|done]. in_cases Hev.
    + cbn. lia.
Qed.

Lemma Sim_ret {A} (a : A) : Sim (mret a : M A) (mret a).
Proof. by intros w w' Hw. Qed.

Lemma Sim_bind {A B} (m m' : M A) (f f' : A -> M B) :
  Sim m m' -> (forall a, Sim (f a) (f' a)) -> Sim (m ≫= f) (m' ≫= f').
Proof.
  intros Hm Hf w w' Hw. rewrite !run_bind.
  destruct (Hm w w' Hw) as [Ha Hw2]. rewrite Ha. by apply Hf.
Qed.

Lemma Sim_forRange {A S} (xs : list A) (body body' : S -> A -> M S) (s : S) :
  (forall s x, Sim (body s x) (body' s x)) ->
  Sim (forRange xs body s) (forRange xs body' s).
Proof.
  intros Hbody. revert s. induction xs as [|x xs IH]; intros s.
  - apply Sim_ret.
  - cbn [forRange]. apply Sim_bind; [apply Hbody|apply IH].
Qed.

Lemma sameEvent_calls (l l' : list Event) :
  Forall2 sameEvent l l' -> callsOf l = callsOf l'.
Proof.
  induction 1 as [|ev ev' l l' [Hc _] _ IH]; [done|].
  unfold callsOf in *. cbn [map]. by rewrite Hc, IH.
Qed.

(** * Two hosts that differ in the results of the deactivation only *)

Section Simulation.

Context (h h' : Host) (Hh : sameButTeardown h h').

(** The world after a call, whatever the call and whatever becomes of its
    result. *)
Lemma call_world (c : Call) w w' :
  sameWorld w w' -> sameWorld (call h c w).2 (call h' c w').2.
Proof.
  intros (Hfs & Hd & Htr). split; [done|]. split; [done|].
  cbn [call snd w_trace].
  apply Forall2_app; [done|]. constructor; [|constructor].
  split; [done|]. cbn [ev_call ev_err]. intros Hc.
  rewrite (Forall2_length _ _ _ Htr).
  destruct Hh as (_ & _ & _ & Herr & _). by apply Herr.
Qed.

Lemma call_result (c : Call) w w' :
  isTeardown c = false -> sameWorld w w' ->
  (call h c w).1 = (call h' c w').1.
Proof.
  intros Hc (Hfs & Hd & Htr). cbn [call fst].
  rewrite (Forall2_length _ _ _ Htr).
  destruct Hh as (_ & _ & _ & Herr & _). by apply Herr.
Qed.

Lemma Sim_call (c : Call) : isTeardown c = false -> Sim (call h c) (call h' c).
Proof.
  intros Hc w w' Hw. split; [by apply call_result|by apply call_world].
Qed.

Lemma Sim_callUnless (refused : bool) (c : Call) :
  isTeardown c = false -> Sim (callUnless h refused c) (callUnless h' refused c).
Proof.
  intros Hc w w' (Hfs & Hd & Htr).
  assert (host_err h (length (w_trace w)) c
          = host_err h' (length (w_trace w')) c) as He.
  { rewrite (Forall2_length _ _ _ Htr).
    destruct Hh as (_ & _ & _ & Herr & _). by apply Herr. }
  unfold callUnless. cbn [fst snd]. rewrite He.
  split; [done|]. split; [done|]. split; [done|]. cbn [w_trace].
  apply Forall2_app; [done|]. by constructor; [|constructor].
Qed.

(** A call whose result is dropped. *)
Lemma Sim_call_dropped {A} (c : Call) (k k' : M A) :
  Sim k k' -> Sim (call h c ≫= fun _ => k) (call h' c ≫= fun _ => k').
Proof.
  intros Hk w w' Hw. rewrite !run_bind. apply Hk. by apply call_world.
Qed.

Lemma Sim_emit (c : Call) : Sim (emit c) (emit c).
Proof.
  intros w w' (Hfs & Hd & Htr). split; [done|]. split; [done|].
  split; [done|].
  cbn [emit snd w_trace]. apply Forall2_app; [done|].
  by constructor; [|constructor].
Qed.

Lemma Sim_Printf (msg : LogMsg) : Sim (Printf msg) (Printf msg).
Proof. apply Sim_emit. Qed.

Lemma Sim_MkdirAll path perm : Sim (MkdirAll h path perm) (MkdirAll h' path perm).
Proof.
  intros w w' Hw. unfold MkdirAll. cbv zeta.
  destruct (Sim_call (CallMkdirAll path perm) eq_refl w w' Hw)
    as [Hr (Hfs & Hd & Htr)].
  rewrite <- Hr.
  destruct (call h (CallMkdirAll path perm) w).1 eqn:He; cbn [fst snd].
  - by rewrite He, <- Hr.
  - split; [done|]. split; [done|]. split; cbn [w_dirs w_trace]; [|done].
    by rewrite Hd.
Qed.

Lemma Sim_ReadDir path : Sim (ReadDir h path) (ReadDir h' path).
Proof.
  intros w w' Hw. unfold ReadDir. cbv zeta.
  pose proof (call_result (CallReadDir path) w w' eq_refl Hw) as Hr.
  pose proof (call_world (CallReadDir path) w w' Hw) as Hw2.
  rewrite <- Hr. destruct Hw as (Hfs & Hd & _).
  destruct (call h (CallReadDir path) w).1; cbn [fst snd]; [done|].
  by rewrite Hfs, Hd.
Qed.

Lemma Sim_Remove path : Sim (Remove h path) (Remove h' path).
Proof.
  intros w w' Hw. unfold Remove. cbv zeta.
  destruct Hw as (Hfs0 & Hd0 & Htr0) eqn:Hweq. clear Hweq.
  rewrite <- Hfs0, <- Hd0.
  destruct (Sim_callUnless (nonEmptyDir path (w_fs w) (w_dirs w))
              (CallRemove path) eq_refl w w' (conj Hfs0 (conj Hd0 Htr0)))
    as [Hr (Hfs & Hd & Htr)].
  rewrite <- Hr.
  destruct (callUnless h _ (CallRemove path) w).1 eqn:He; cbn [fst snd].
  - by rewrite He, <- Hr.
  - split; [done|]. split; cbn [w_fs w_dirs w_trace]; [by rewrite Hfs|].
    split; [by rewrite Hd|done].
Qed.

Lemma Sim_WriteFile path data perm :
  Sim (WriteFile h path data perm) (WriteFile h' path data perm).
Proof.
  intros w w' Hw. unfold WriteFile. cbv zeta.
  destruct Hw as (Hfs0 & Hd0 & Htr0) eqn:Hweq. clear Hweq.
  rewrite <- Hfs0, <- Hd0.
  destruct (Sim_callUnless (isDirectory path (w_fs w) (w_dirs w))
              (CallWriteFile path data perm) eq_refl w w'
              (conj Hfs0 (conj Hd0 Htr0)))
    as [Hr (Hfs & Hd & Htr)].
  rewrite <- Hr. cbn [fst snd].
  split; [done|]. split; cbn [w_fs w_dirs w_trace]; [|by split].
  rewrite (Forall2_length _ _ _ Htr0).
  destruct Hh as (_ & _ & _ & _ & Hshort). by rewrite Hshort.
Qed.

Lemma Sim_removeStep ok name : Sim (removeStep h ok name) (removeStep h' ok name).
Proof.
  unfold removeStep. destruct (isGenerated name); [|apply Sim_ret].
  apply Sim_bind; [apply Sim_Remove|]. intros [|].
  - apply Sim_bind; [apply Sim_Printf|]. intros _. apply Sim_ret.
  - apply Sim_ret.
Qed.

Lemma Sim_writeStep ok entry : Sim (writeStep h ok entry) (writeStep h' ok entry).
Proof.
  unfold writeStep. destruct (negb _); [apply Sim_ret|].
  apply Sim_bind; [apply Sim_WriteFile|]. intros [|].
  - apply Sim_bind; [apply Sim_Printf|]. intros _. apply Sim_ret.
  - apply Sim_ret.
Qed.

Lemma Sim_writeConfigs entries :
  Sim (writeConfigs h entries) (writeConfigs h' entries).
Proof.
  unfold writeConfigs.
  apply Sim_bind; [by apply Sim_MkdirAll|]. intros err.
  apply Sim_bind.
  { destruct err; [|apply Sim_ret].
    apply Sim_bind; [apply Sim_Printf|]. intros _. apply Sim_ret. }
  intros ok. apply Sim_bind; [apply Sim_ReadDir|]. intros r.
  apply Sim_bind.
  { destruct r as [names|].
    - apply Sim_forRange. apply Sim_removeStep.
    - apply Sim_bind; [apply Sim_Printf|]. intros _. apply Sim_ret. }
  intros ok2. apply Sim_bind; [|intros; apply Sim_ret].
  apply Sim_forRange. apply Sim_writeStep.
Qed.

Lemma Sim_listLinks : Sim (listLinks h) (listLinks h').
Proof.
  unfold listLinks. apply Sim_bind; [by apply Sim_call|]. intros [|].
  - apply Sim_bind; [apply Sim_Printf|]. intros _. apply Sim_ret.
  - destruct Hh as (-> & _). apply Sim_ret.
Qed.

Lemma Sim_activate haveLink firstEn name :
  Sim (activate h haveLink firstEn name) (activate h' haveLink firstEn name).
Proof.
  unfold activate. destruct (negb haveLink); [|apply Sim_ret].
  apply Sim_bind.
  { destruct firstEn; [apply Sim_ret|apply Sim_Printf]. }
  intros _. apply Sim_bind.
  { destruct firstEn as [link|]; [|apply Sim_ret].
    apply Sim_bind; [by apply Sim_call|]. intros [|]; [|apply Sim_ret].
    apply Sim_bind; [apply Sim_Printf|]. intros _. apply Sim_ret. }
  intros firstEn1. apply Sim_bind; [|intros; apply Sim_ret].
  destruct firstEn1 as [link|]; [|apply Sim_ret].
  apply Sim_bind; [by apply Sim_call|]. intros [|]; [|apply Sim_ret].
  apply Sim_bind; [apply Sim_Printf|]. intros _.
  apply Sim_call_dropped. apply Sim_ret.
Qed.

Lemma Sim_fetch : Sim (fetch h) (fetch h').
Proof.
  unfold fetch. cbv zeta.
  destruct Hh as (_ & <- & Hdec & _).
  apply Sim_bind; [by apply Sim_call|]. intros [|].
  { apply Sim_bind; [apply Sim_Printf|]. intros _. apply Sim_ret. }
  apply Sim_bind.
  2:{ intros ok. apply Sim_bind; [apply Sim_emit|]. intros _. apply Sim_ret. }
  destruct (negb _).
  { apply Sim_bind; [apply Sim_Printf|]. intros _. apply Sim_ret. }
  apply Sim_bind; [by apply Sim_call|]. intros [|].
  { apply Sim_bind; [apply Sim_Printf|]. intros _. apply Sim_ret. }
  rewrite <- Hdec. destruct (host_decode h _) as [m|].
  2:{ apply Sim_bind; [apply Sim_Printf|]. intros _. apply Sim_ret. }
  destruct (negb _).
  { apply Sim_bind; [apply Sim_Printf|]. intros _. apply Sim_ret. }
  apply Sim_writeConfigs.
Qed.

Lemma Sim_deactivate haveLink firstEn :
  Sim (deactivate h haveLink firstEn) (deactivate h' haveLink firstEn).
Proof.
  unfold deactivate. destruct firstEn as [link|]; [|apply Sim_ret].
  destruct (negb haveLink); [|apply Sim_ret].
  apply Sim_call_dropped. apply Sim_call_dropped. apply Sim_ret.
Qed.

Lemma Sim_main : Sim (main h) (main h').
Proof.
  unfold main. apply Sim_bind; [apply Sim_listLinks|]. intros links.
  destruct (probeLinks links) as [[haveLink firstEn] name].
  apply Sim_bind; [apply Sim_activate|]. intros firstEn1.
  apply Sim_bind; [apply Sim_fetch|]. intros ok.
  apply Sim_bind; [apply Sim_deactivate|]. intros _.
  destruct (negb ok); [|apply Sim_ret].
  apply Sim_bind; [apply Sim_emit|]. intros _. apply Sim_ret.
Qed.

End Simulation.

Lemma sameWorld_refl (w : World) : sameWorld w w.
Proof.
  split; [done|]. split; [done|].
  apply Forall_Forall2_diag, Forall_forall. by intros ev _.
Qed.

Lemma logsOf_calls (l l' : list Event) :
  callsOf l = callsOf l' -> logsOf l = logsOf l'.
Proof.
  revert l'. induction l as [|ev l IH]; intros [|ev' l'] Hc; try done.
  injection Hc as Hc1 Hc2. unfold logsOf in *. cbn [omap list_omap].
  rewrite Hc1. by rewrite (IH l' Hc2).
Qed.

(** C9 (as amended): whether [AddrDel] and [LinkSetDown] fail makes no
    difference to the run.  On two hosts that differ in nothing but the
    results of these two calls, the program exits with the same status, makes
    the same calls in the same order, so writes the same log lines (a failed
    deactivation adds none), gets the same results from every other call, and
    leaves the same files and directories; and the failing calls themselves
    are issued all the same. *)
Theorem teardown_failure_ignored (h h' : Host) (w : World) :
  sameButTeardown h h' ->
  let evs := emitted (main h) w in
  let evs' := emitted (main h') w in
  (main h w).1 = (main h' w).1
  /\ callsOf evs = callsOf evs'
  /\ logsOf evs = logsOf evs'
  /\ Forall2 sameEvent evs evs'
  /\ w_fs (main h w).2 = w_fs (main h' w).2
  /\ w_dirs (main h w).2 = w_dirs (main h' w).2.
Proof.
  intros Hh evs evs'.
  destruct (Sim_main h h' Hh w w (sameWorld_refl w)) as (Hr & Hfs & Hd & Htr).
  assert (Forall2 sameEvent evs evs') as Hev by by apply Forall2_drop.
  pose proof (sameEvent_calls _ _ Hev) as Hc.
  repeat split; try done. by apply logsOf_calls.
Qed.

(** * Sample runs *)

Example quiet_run :
  (main quietHost emptyWorld).1 = 0
  /\ callsOf (emitted (main quietHost) emptyWorld)
     = [CallLinkList; CallLinkSetUp eth0; CallAddrAdd eth0 llAddr;
        CallGet metadataURL; CallReadAll;
        CallMkdirAll ConfigDir 493; CallReadDir ConfigDir;
        CallWriteFile "/run/systemd/network/80-hetzner-eth0.network"
          (renderConfig (sampleEntry "eth0")) 420;
        CallClose; CallAddrDel eth0 llAddr; CallLinkSetDown eth0].
Proof. by vm_compute. Qed.

(** The directory cannot be created and one of three writes fails: the run
    fails and the two other units are there. *)
Example broken_dir_run :
  (main brokenDirHost emptyWorld).1 = 1
  /\ map_to_list (w_fs (main brokenDirHost emptyWorld).2)
     ≡ₚ [("/run/systemd/network/80-hetzner-eth0.network",
          renderConfig (sampleEntry "eth0"));
         ("/run/systemd/network/80-hetzner-eth2.network",
          renderConfig (sampleEntry "eth2"))].
Proof.
  split; [by vm_compute|]. vm_compute.
  repeat first [ reflexivity | apply perm_swap | apply perm_skip ].
Qed.

(** Two entries of one name: one file, with the rendering of the second. *)
Example same_name_run :
  map_to_list
    (w_fs (writeConfigs quietHost [sampleEntry "eth0"; bareEntry "eth0"]
             emptyWorld).2)
  = [("/run/systemd/network/80-hetzner-eth0.network",
      renderConfig (bareEntry "eth0"))].
Proof. by vm_compute. Qed.

(** A directory that has the name of a unit and is not empty: the removal is
    attempted, fails, and the run fails. *)
Example nested_unit_run :
  dirEntries ConfigDir (w_fs nestedWorld) (w_dirs nestedWorld)
  = ["80-hetzner-d.network"]
  /\ emitted (writeConfigs quietHost []) nestedWorld
     = [Ev (CallMkdirAll ConfigDir 493) false; Ev (CallReadDir ConfigDir) false;
        Ev (CallRemove "/run/systemd/network/80-hetzner-d.network") true;
        Ev (CallPrintf
              (LogRemoving "/run/systemd/network/80-hetzner-d.network")) false]
  /\ (writeConfigs quietHost [] nestedWorld).1 = false
  /\ (main quietHost nestedWorld).1 = 1.
Proof. by vm_compute. Qed.

(** The sample entry has no line break in its values: its only [DHCP=] line
    is the one of its flags. *)
Lemma dhcp_directive_from_flags_witness :
  singleLined (sampleEntry "eth0")
  /\ wantDHCP (sampleEntry "eth0") = (true, false)
  /\ List.filter isDHCPLine (linesOf (renderConfig (sampleEntry "eth0")))
     = ["DHCP=ipv4"].
Proof.
  assert (singleLined (sampleEntry "eth0")) as Hs by (by repeat constructor).
  pose proof (dhcp_directive_from_flags (sampleEntry "eth0")) as H.
  cbv zeta in H. destruct H as (_ & _ & _ & _ & _ & _ & H).
  split; [exact Hs|]. split; [reflexivity|].
  destruct (H Hs) as [_ Hd]. exact Hd.
Defined.

(** C2 as stated fails: [injectedEntry] is physical and sets neither flag,
    and its rendering has the line [DHCP=yes], which its address carries
    after a line break. *)
Lemma dhcp_line_injected :
  isPhysical injectedEntry = true
  /\ wantDHCP injectedEntry = (false, false)
  /\ linesOf (renderConfig injectedEntry)
     = ["[Match]"; "MACAddress=aa:bb:cc:dd:ee:ff"; ""; "[Network]";
        "LinkLocalAddressing=yes"; "Address=10.0.0.5/24"; "DHCP=yes"; ""]
  /\ List.filter isDHCPLine (linesOf (renderConfig injectedEntry))
     = ["DHCP=yes"].
Proof. by vm_compute. Qed.


(** On [futureHost] the run fails and the store is untouched. *)
Lemma unknown_version_rejected_witness :
  (main futureHost usedWorld).1 = 1
  /\ w_fs (main futureHost usedWorld).2 = w_fs usedWorld.
Proof.
  assert (host_decode futureHost (Response.Body (host_response futureHost))
          = Some (Metadata.mk (NetworkConfig.mk 2 [sampleEntry "eth0"]))) as Hd
    by reflexivity.
  assert (NetworkConfig.Version
            (Metadata.NetworkConfig
               (Metadata.mk (NetworkConfig.mk 2 [sampleEntry "eth0"]))) <> 1)
    as Hv by (cbn; lia).
  pose proof (unknown_version_rejected futureHost usedWorld _ Hd Hv) as H.
  cbv zeta in H. destruct H as (H1 & _ & H3 & _). by split.
Defined.

(** On [quietHost] a second sync changes nothing. *)
Lemma sync_idempotent_witness :
  w_fs (writeConfigs quietHost [sampleEntry "eth0"; sampleEntry "eth0"]
          (writeConfigs quietHost [sampleEntry "eth0"; sampleEntry "eth0"]
             usedWorld).2).2
  = w_fs (writeConfigs quietHost [sampleEntry "eth0"; sampleEntry "eth0"]
            usedWorld).2.
Proof.
  apply (sync_idempotent quietHost quietHost
           [sampleEntry "eth0"; sampleEntry "eth0"] usedWorld);
    by vm_compute.
Defined.


(** [stuckHost] is [quietHost] but for the deactivation. *)
Lemma stuck_like_quiet : sameButTeardown stuckHost quietHost.
Proof. by repeat split. Qed.

(** The two hosts exit alike and log alike. *)
Lemma teardown_failure_ignored_witness :
  (main stuckHost usedWorld).1 = (main quietHost usedWorld).1
  /\ logsOf (emitted (main stuckHost) usedWorld)
     = logsOf (emitted (main quietHost) usedWorld).
Proof.
  pose proof (teardown_failure_ignored stuckHost quietHost usedWorld
                stuck_like_quiet) as H.
  cbv zeta in H. destruct H as (H1 & _ & H3 & _). by split.
Defined.

(** C9 as stated fails: on [stuckHost] both [AddrDel] and [LinkSetDown]
    fail at the end of the run, the run exits with status 0, and it is not
    the case that a failed deactivation call comes with a log line: the run
    logs nothing at all. *)
Lemma teardown_failure_not_logged :
  emitted (main stuckHost) emptyWorld
  = [Ev CallLinkList false; Ev (CallLinkSetUp eth0) false;
     Ev (CallAddrAdd eth0 llAddr) false;
     Ev (CallGet metadataURL) false; Ev CallReadAll false;
     Ev (CallMkdirAll ConfigDir 493) false; Ev (CallReadDir ConfigDir) false;
     Ev (CallWriteFile "/run/systemd/network/80-hetzner-eth0.network"
           (renderConfig (sampleEntry "eth0")) 420) false;
     Ev CallClose false;
     Ev (CallAddrDel eth0 llAddr) true; Ev (CallLinkSetDown eth0) true]
  /\ (main stuckHost emptyWorld).1 = 0
  /\ ~ (forall c, isTeardown c = true ->
          In (Ev c true) (emitted (main stuckHost) emptyWorld) ->
          exists msg,
            In (Ev (CallPrintf msg) false)
               (emitted (main stuckHost) emptyWorld)).
Proof.
  assert (emitted (main stuckHost) emptyWorld
          = [Ev CallLinkList false; Ev (CallLinkSetUp eth0) false;
             Ev (CallAddrAdd eth0 llAddr) false;
             Ev (CallGet metadataURL) false; Ev CallReadAll false;
             Ev (CallMkdirAll ConfigDir 493) false;
             Ev (CallReadDir ConfigDir) false;
             Ev (CallWriteFile "/run/systemd/network/80-hetzner-eth0.network"
                   (renderConfig (sampleEntry "eth0")) 420) false;
             Ev CallClose false;
             Ev (CallAddrDel eth0 llAddr) true;
             Ev (CallLinkSetDown eth0) true]) as Hev by by vm_compute.
  split; [exact Hev|]. split; [by vm_compute|].
  intros Hlog. rewrite Hev in Hlog.
  destruct (Hlog (CallAddrDel eth0 llAddr) eq_refl) as [msg Hmsg].
  - do 9 right. by left.
  - in_cases Hmsg.
Qed.

(** * Further properties *)

Lemma Tidy_nil : Tidy [].
Proof. reflexivity. Qed.

Lemma Tidy_app (l1 l2 : list Event) : Tidy l1 -> Tidy l2 -> Tidy (l1 ++ l2).
Proof.
  unfold Tidy, fsEvents. intros H1 H2.
  rewrite List.filter_app, flat_map_app. by rewrite <- H1, <- H2.
Qed.

Lemma Tidy_call (c : Call) (err : bool) :
  isFsCall c = true -> Tidy (withLog (Ev c err)).
Proof.
  intros Hc. unfold Tidy, fsEvents, withLog. cbn [ev_err ev_call].
  destruct err; [destruct (failureLog c) as [msg|] eqn:Hm|];
    cbn [List.filter ev_call isFsCall]; rewrite Hc; cbn [flat_map app];
    unfold withLog; cbn [ev_err ev_call]; rewrite ?Hm; try reflexivity.
  all: by destruct c.
Qed.

Section SyncLog.

Context (h : Host).

Lemma removeLoop_tidy names ok w : Tidy (emitted (removeLoop h names ok) w).
Proof.
  revert ok w. induction names as [|n names IH]; intros ok w.
  - unfold removeLoop. cbn [forRange]. rewrite emitted_ret. apply Tidy_nil.
  - rewrite removeLoop_emitted_cons. apply Tidy_app; [|apply IH].
    rewrite emitted_removeStep. destruct (isGenerated n); [|apply Tidy_nil].
    cbv zeta.
    apply (Tidy_call (CallRemove (childPath n)) _ eq_refl).
Qed.

Lemma writeLoop_tidy entries ok w : Tidy (emitted (writeLoop h entries ok) w).
Proof.
  revert ok w. induction entries as [|e entries IH]; intros ok w.
  - unfold writeLoop. cbn [forRange]. rewrite emitted_ret. apply Tidy_nil.
  - rewrite writeLoop_emitted_cons. apply Tidy_app; [|apply IH].
    rewrite emitted_writeStep. destruct (isPhysical e); [|apply Tidy_nil].
    cbv zeta.
    apply (Tidy_call (CallWriteFile (entryPath e) (renderConfig e) 420) _ eq_refl).
Qed.

Lemma prepareDir_tidy w : Tidy (emitted (prepareDir h) w).
Proof.
  rewrite prepareDir_emitted. apply Tidy_app.
  - apply (Tidy_call mkdirCall (mkdirErr h w) eq_refl).
  - destruct (readDirErr h w).
    + apply (Tidy_call readDirCall true eq_refl).
    + apply (Tidy_app [Ev readDirCall false]);
        [apply (Tidy_call readDirCall false eq_refl)|apply removeLoop_tidy].
Qed.

Lemma logsOf_app (l1 l2 : list Event) : logsOf (l1 ++ l2) = logsOf l1 ++ logsOf l2.
Proof. apply omap_app. Qed.

Lemma logsOf_withLog (l : list Event) :
  Forall (fun ev => isFsCall (ev_call ev) = true) l ->
  logsOf (flat_map withLog l)
  = omap (fun ev => if ev_err ev then failureLog (ev_call ev) else None) l.
Proof.
  induction 1 as [|ev l Hev _ IH]; [done|].
  cbn [flat_map]. rewrite logsOf_app, IH. cbn [omap list_omap].
  unfold withLog, logsOf. cbn [omap list_omap].
  destruct (ev_call ev) eqn:Hc; try discriminate;
    destruct (ev_err ev); cbn; rewrite ?Hc; cbn; reflexivity.
Qed.

Lemma writeConfigs_tidy entries w : Tidy (emitted (writeConfigs h entries) w).
Proof.
  rewrite writeConfigs_emitted.
  apply Tidy_app; [apply prepareDir_tidy|apply writeLoop_tidy].
Qed.

(** X1: the trace of [writeConfigs] is made of its file-system calls, each one
    followed at once by the log line of its failure when it failed, and of
    nothing else: one line per failure, naming the path, in the order of the
    failures. *)
Theorem sync_log_discipline (entries : list NetworkConfigEntry.t) (w : World) :
  let evs := emitted (writeConfigs h entries) w in
  evs = flat_map withLog (fsEvents evs)
  /\ logsOf evs
     = omap (fun ev => if ev_err ev then failureLog (ev_call ev) else None)
            (fsEvents evs)
  /\ length (logsOf evs)
     = length (List.filter (fun ev => ev_err ev) (fsEvents evs)).
Proof.
  intros evs.
  pose proof (writeConfigs_tidy entries w) as Ht. fold evs in Ht.
  assert (Forall (fun ev => isFsCall (ev_call ev) = true) (fsEvents evs))
    as Hfs.
  { apply Forall_forall. intros ev Hin. apply list_elem_of_In in Hin.
    by apply filter_In in Hin as [_ Hc]. }
  split; [exact Ht|].
  assert (logsOf evs
          = omap (fun ev => if ev_err ev then failureLog (ev_call ev) else None)
                 (fsEvents evs)) as Hlogs.
  { unfold Tidy in Ht. rewrite Ht at 1. by apply logsOf_withLog. }
  split; [exact Hlogs|]. rewrite Hlogs. clear Hlogs Ht.
  induction Hfs as [|ev l Hev _ IH]; [done|].
  cbn [omap list_omap List.filter].
  destruct (ev_err ev); [|exact IH].
  destruct (ev_call ev); try discriminate; cbn; by rewrite IH.
Qed.

End SyncLog.

(** * Suffixes *)

Lemma substring_skip (p s : string) (n : nat) :
  String.substring (String.length p) n (p +:+ s) = String.substring 0 n s.
Proof.
  induction p as [|x p IH]; [done|].
  change (String.substring (String.length p) n (p +:+ s)
          = String.substring 0 n s). exact IH.
Qed.

Lemma substring_whole (s : string) :
  String.substring 0 (String.length s) s = s.
Proof. induction s as [|x s IH]; [done|]. cbn. by rewrite IH. Qed.

Lemma substring_split (s : string) (n : nat) :
  (n <= String.length s)%nat ->
  s = String.substring 0 n s
        +:+ String.substring n (String.length s - n) s.
Proof.
  revert n. induction s as [|x s IH]; intros n Hn.
  - cbn in Hn. assert (n = 0%nat) as -> by lia. done.
  - destruct n as [|n].
    + change (String x s = String.substring 0 (String.length (String x s))
                             (String x s)).
      by rewrite substring_whole.
    + cbn in Hn.
      change (String x s
              = String x (String.substring 0 n s
                            +:+ String.substring n (String.length s - n) s)).
      f_equal. apply IH. lia.
Qed.

(** [strings.HasSuffix] holds exactly of the strings that end with the
    suffix. *)
Lemma HasSuffix_spec (s suffix : string) :
  HasSuffix s suffix = true <-> exists p, s = p +:+ suffix.
Proof.
  unfold HasSuffix. rewrite andb_true_iff, Nat.leb_le, String.eqb_eq. split.
  - intros [Hlen Hsub].
    assert (String.length suffix
            = String.length s - (String.length s - String.length suffix))%nat
      as Hl by lia.
    assert (String.length s - String.length suffix <= String.length s)%nat
      as Hn by lia.
    revert Hsub Hl Hn.
    generalize (String.length s - String.length suffix)%nat. intros n Hsub Hl Hn.
    exists (String.substring 0 n s). rewrite <- Hsub, Hl.
    by apply substring_split.
  - intros [p ->]. rewrite length_app_s. split; [lia|].
    replace (String.length p + String.length suffix - String.length suffix)%nat
      with (String.length p) by lia.
    by rewrite substring_skip, substring_whole.
Qed.

Lemma HasSuffix_app (p s suffix : string) :
  HasSuffix s suffix = true -> HasSuffix (p +:+ s) suffix = true.
Proof.
  rewrite !HasSuffix_spec. intros [q ->]. exists (p +:+ q).
  by rewrite app_assoc_s.
Qed.

Lemma HasPrefix_app (p s : string) : HasPrefix (p +:+ s) p = true.
Proof.
  unfold HasPrefix. induction p as [|x p IH]; [by destruct s|].
  change (String.prefix (String x p) (String x (p +:+ s)) = true).
  cbn [String.prefix]. by destruct (ascii_dec x x).
Qed.

(** The writer's names are names the cleanup looks for. *)
Lemma unitName_generated (name : string) : isGenerated (unitName name) = true.
Proof.
  unfold isGenerated, unitName. apply andb_true_iff.
  split; [apply HasPrefix_app|].
  apply HasSuffix_spec. exists (ConfigPrefix +:+ name).
  by rewrite app_assoc_s.
Qed.

Lemma entryPath_unit (e : NetworkConfigEntry.t) :
  entryPath e = childPath (unitName (NetworkConfigEntry.Name e)).
Proof. reflexivity. Qed.

Lemma hasSlash_app (a b : string) :
  hasSlash (a +:+ b) = hasSlash a || hasSlash b.
Proof.
  induction a as [|x a IH]; [done|].
  change (Ascii.eqb x "/" || hasSlash (a +:+ b)
          = Ascii.eqb x "/" || hasSlash a || hasSlash b).
  by rewrite IH, orb_assoc.
Qed.

Lemma childPath_targeted (n : string) :
  isGenerated n = true ->
  HasPrefix (childPath n) (ConfigDir +:+ "/" +:+ ConfigPrefix) = true
  /\ HasSuffix (childPath n) ConfigSuffix = true.
Proof.
  unfold isGenerated. rewrite andb_true_iff. intros [Hp Hs]. split.
  - exact Hp.
  - unfold childPath. by apply HasSuffix_app, HasSuffix_app.
Qed.

Section SyncTargets.

Context (h : Host).

(** X2: [writeConfigs] creates and reads [ConfigDir] only, and removes and
    writes only paths that start with [ConfigDir/ConfigPrefix] and end with
    [ConfigSuffix], whatever the entries and the directory hold; files are
    written with mode 0644 and the directory is created with mode 0755. *)
Theorem sync_call_targets (entries : list NetworkConfigEntry.t) (w : World)
    (ev : Event) :
  In ev (emitted (writeConfigs h entries) w) -> wellTargeted (ev_call ev).
Proof.
  rewrite writeConfigs_emitted, prepareDir_emitted, !in_app_iff.
  intros [[Hin|Hin]|Hin].
  - unfold mkdirEvents in Hin. destruct (mkdirErr h w); in_cases Hin; by subst.
  - destruct (readDirErr h w); [in_cases Hin; by subst|].
    destruct Hin as [<-|Hin]; [done|].
    apply removeLoop_events in Hin as (n & _ & Hg & [-> | ->]); [|done].
    by apply childPath_targeted.
  - apply writeLoop_events in Hin as (e & _ & _ & [-> | ->]); [|done].
    cbn [writeCall wellTargeted]. rewrite entryPath_unit.
    destruct (childPath_targeted _ (unitName_generated (NetworkConfigEntry.Name e)))
      as [H1 H2]. done.
Qed.

Lemma removeLoop_frame names ok w path :
  (forall n, In n names -> isGenerated n = true -> childPath n <> path) ->
  w_fs (removeLoop h names ok w).2 !! path = w_fs w !! path.
Proof.
  revert ok w. induction names as [|n names IH]; intros ok w Hne; [done|].
  change (removeLoop h (n :: names) ok w)
    with (removeLoop h names (removeStep h ok n w).1 (removeStep h ok n w).2).
  rewrite IH by (intros n' Hin; apply Hne; by right).
  destruct (isGenerated n) eqn:Hp; [|by rewrite removeStep_skip].
  destruct (removeStep_run h ok n w Hp) as (_ & -> & _).
  destruct (removeErr h w (childPath n)); [done|].
  apply lookup_delete_ne. apply Hne; [by left|done].
Qed.

Lemma prepareDir_frame w path :
  isGeneratedPath path = false ->
  w_fs (prepareDir h w).2 !! path = w_fs w !! path.
Proof.
  intros Hg. rewrite prepareDir_run. destruct (readDirErr h w); [done|].
  rewrite removeLoop_frame; [done|].
  intros n Hin Hgen <-. apply dirEntries_slash in Hin as Hs.
  apply not_true_iff_false in Hg. apply Hg.
  apply isGeneratedPath_spec. by exists n.
Qed.

(** X3: [writeConfigs] leaves alone every path that is neither a unit of its
    own naming directly in the directory nor the path of a physical entry,
    whatever fails. *)
Theorem sync_frame (entries : list NetworkConfigEntry.t) (w : World)
    (path : string) :
  isGeneratedPath path = false ->
  (forall e, In e entries -> isPhysical e = true -> entryPath e <> path) ->
  w_fs (writeConfigs h entries w).2 !! path = w_fs w !! path.
Proof.
  intros Hg Hne.
  pose proof (writeConfigs_last h entries w path) as Hlast.
  rewrite (no_write_to h entries w path Hne) in Hlast.
  rewrite Hlast. by apply prepareDir_frame.
Qed.

(** X4: a unit written for a name without a slash is a file the cleanup of a
    later run finds and tries to remove, whether or not the later document
    still has the entry, as soon as the directory can be listed; and when
    that removal succeeds and the entry is gone, so is the unit. *)
Theorem written_unit_cleaned_later (entries : list NetworkConfigEntry.t)
    (w : World) (name : string) :
  let evs := emitted (writeConfigs h entries) w in
  hasSlash name = false ->
  is_Some (w_fs w !! childPath (unitName name)) ->
  In (Ev (CallReadDir ConfigDir) false) evs ->
  In (CallRemove (childPath (unitName name))) (callsOf evs)
  /\ (In (Ev (CallRemove (childPath (unitName name))) false) evs ->
      (forall e, In e entries -> isPhysical e = true ->
                 NetworkConfigEntry.Name e <> name) ->
      w_fs (writeConfigs h entries w).2 !! childPath (unitName name) = None).
Proof.
  intros evs Hs Hfile Hread. subst evs.
  assert (hasSlash (unitName name) = false) as Hsl.
  { unfold unitName. rewrite !hasSlash_app, Hs. reflexivity. }
  assert (In (unitName name) (dirEntries ConfigDir (w_fs w) (w_dirs w))) as Hlisted
    by by apply dirEntries_file.
  apply (readDir_event_sync h entries w false) in Hread.
  split.
  - rewrite writeConfigs_emitted, callsOf_app, in_app_iff. left.
    rewrite prepareDir_emitted, Hread, callsOf_app, in_app_iff. right.
    right.
    assert (In (removeCall (unitName name))
              (List.filter (fun c => negb (isLogCall c))
                 (callsOf (emitted (removeLoop h (listed w)
                                      (negb (mkdirErr h w)))
                             (cleanupStart h w))))) as Hin.
    { rewrite removeLoop_calls. apply in_map_iff. exists (unitName name).
      split; [done|]. apply filter_In. split; [done|].
      apply unitName_generated. }
    by apply filter_In in Hin as [Hin _].
  - intros Hrem Hgone.
    pose proof (writeConfigs_last h entries w (childPath (unitName name)))
      as Hlast.
    rewrite no_write_to in Hlast.
    2:{ intros e He Hp Heq. apply (Hgone e He Hp).
        rewrite entryPath_unit in Heq. apply childPath_inj in Heq.
        unfold unitName in Heq. rewrite <- !app_assoc_s in Heq.
        apply app_inj_r_s in Heq. revert Heq. apply (inj (String.app ConfigPrefix)). }
    rewrite Hlast. apply prepareDir_removed.
    rewrite writeConfigs_emitted, in_app_iff in Hrem.
    destruct Hrem as [Hrem|Hrem]; [done|].
    by apply (writeLoop_no_call h isRemove _ _ _ (fun _ _ _ => eq_refl)
                (fun _ => eq_refl)) in Hrem.
Qed.

(** X5: without a physical entry [writeConfigs] writes nothing: it makes no
    [WriteFile] call, and every file there is afterwards was there before
    with the same content. *)
Theorem sync_without_physical_entries (entries : list NetworkConfigEntry.t)
    (w : World) :
  List.filter isPhysical entries = [] ->
  List.filter isWrite (callsOf (emitted (writeConfigs h entries) w)) = []
  /\ (forall path data,
        w_fs (writeConfigs h entries w).2 !! path = Some data ->
        w_fs w !! path = Some data).
Proof.
  intros Hnone. split.
  - rewrite writeConfigs_write_calls. unfold writeCalls. by rewrite Hnone.
  - intros path data.
    pose proof (writeConfigs_last h entries w path) as Hlast.
    rewrite no_write_to in Hlast.
    2:{ intros e He Hp. assert (In e (List.filter isPhysical entries)) as Hin
          by by apply filter_In.
        by rewrite Hnone in Hin. }
    rewrite Hlast.
    destruct (prepareDir_fs_sub h w path) as [-> | ->]; done.
Qed.

End SyncTargets.

Section FetchPhase.

Context (h : Host).

(** The events of a run that are not events of the fetch. *)
Lemma outside_fetch (P : Call -> bool) w haveLink firstEn name firstEn' A D
    (ok : bool) ev :
  ActivateRun haveLink firstEn name firstEn' A ->
  DeactivateRun haveLink firstEn' D ->
  (forall c, isNetlink c = true -> P c = false) ->
  (forall m, P (CallPrintf m) = false) ->
  (forall z, P (CallExit z) = false) ->
  In ev (listEvents h w) \/ In ev A \/ In ev D
    \/ In ev (if ok then [] else [Ev (CallExit 1) false]) ->
  P (ev_call ev) = false.
Proof.
  intros HA HD Hn Hl Hx [Hin|[Hin|[Hin|Hin]]].
  - apply (listEvents_calls h P w ev); [by apply Hn|done|done].
  - by apply (activate_calls P _ _ _ _ _ _ HA).
  - by apply (deactivate_calls P _ _ _ _ HD).
  - destruct ok; [done|]. destruct Hin as [<-|[]]. apply Hx.
Qed.

Lemma in_fetch (P : Call -> bool) w haveLink firstEn name firstEn' A D F
    (ok : bool) ev :
  ActivateRun haveLink firstEn name firstEn' A ->
  DeactivateRun haveLink firstEn' D ->
  (forall c, isNetlink c = true -> P c = false) ->
  (forall m, P (CallPrintf m) = false) ->
  (forall z, P (CallExit z) = false) ->
  P (ev_call ev) = true ->
  In ev (listEvents h w ++ A ++ F ++ D
           ++ (if ok then [] else [Ev (CallExit 1) false]))
  <-> In ev F.
Proof.
  intros HA HD Hn Hl Hx Hev. rewrite !in_app_iff. split; [|tauto].
  intros [Hin|[Hin|[Hin|[Hin|Hin]]]]; [exfalso|exfalso|done|exfalso|exfalso].
  all: rewrite (outside_fetch P w _ _ _ _ A D ok ev HA HD Hn Hl Hx) in Hev;
    [done|tauto].
Qed.

Lemma filter_fetch (P : Call -> bool) w haveLink firstEn name firstEn' A D F
    (ok : bool) :
  ActivateRun haveLink firstEn name firstEn' A ->
  DeactivateRun haveLink firstEn' D ->
  (forall c, isNetlink c = true -> P c = false) ->
  (forall m, P (CallPrintf m) = false) ->
  (forall z, P (CallExit z) = false) ->
  List.filter P
    (callsOf (listEvents h w ++ A ++ F ++ D
                ++ (if ok then [] else [Ev (CallExit 1) false])))
  = List.filter P (callsOf F).
Proof.
  intros HA HD Hn Hl Hx.
  pose proof (fun ev H => outside_fetch P w _ _ _ _ A D ok ev HA HD Hn Hl Hx H)
    as Hout.
  rewrite !callsOf_app, !List.filter_app.
  rewrite (filter_calls_none P (listEvents h w)) by (intros; apply Hout; tauto).
  rewrite (filter_calls_none P A) by (intros; apply Hout; tauto).
  rewrite (filter_calls_none P D) by (intros; apply Hout; tauto).
  rewrite (filter_calls_none P (if ok then [] else _))
    by (intros; apply Hout; tauto).
  by rewrite app_nil_r.
Qed.

Lemma callFailed_fetch (P : Call -> bool) w haveLink firstEn name firstEn' A D F
    (ok : bool) :
  ActivateRun haveLink firstEn name firstEn' A ->
  DeactivateRun haveLink firstEn' D ->
  (forall c, isNetlink c = true -> P c = false) ->
  (forall m, P (CallPrintf m) = false) ->
  (forall z, P (CallExit z) = false) ->
  callFailed P (listEvents h w ++ A ++ F ++ D
                  ++ (if ok then [] else [Ev (CallExit 1) false]))
  = callFailed P F.
Proof.
  intros HA HD Hn Hl Hx.
  pose proof (fun ev H => outside_fetch P w _ _ _ _ A D ok ev HA HD Hn Hl Hx H)
    as Hout.
  rewrite !callFailed_app.
  rewrite (callFailed_none P (listEvents h w)) by (intros; apply Hout; tauto).
  rewrite (callFailed_none P A) by (intros; apply Hout; tauto).
  rewrite (callFailed_none P D) by (intros; apply Hout; tauto).
  rewrite (callFailed_none P (if ok then [] else _))
    by (intros; apply Hout; tauto).
  by rewrite !orb_false_r.
Qed.

Lemma sync_filter_none (P : Call -> bool) entries w :
  (forall c, isFsCall c = true -> P c = false) ->
  (forall m, P (CallPrintf m) = false) ->
  List.filter P (callsOf (emitted (writeConfigs h entries) w)) = [].
Proof.
  intros H1 H2. apply filter_calls_none. intros ev.
  by apply sync_calls.
Qed.

(** X6: whatever the scan and the activation did, the metadata is requested,
    once, from the fixed address; the body is read only after a successful
    request with status 200. *)
Theorem fetch_attempted_once (w : World) :
  let evs := emitted (main h) w in
  List.filter isGet (callsOf evs) = [CallGet metadataURL]
  /\ (In CallReadAll (callsOf evs)
      <-> callFailed isGet evs = false
          /\ Response.StatusCode (host_response h) = 200)
  /\ List.filter (fun c => isGet c || isFetchCall c) (callsOf evs)
     = CallGet metadataURL
         :: (if callFailed isGet evs then []
             else if Response.StatusCode (host_response h) =? 200
                  then [CallReadAll] else []).
Proof.
  intros evs. subst evs.
  destruct (main_runs h w)
    as [haveLink firstEn name firstEn' A ok F fs' D Hp HA HF HD].
  assert (forall c, isNetlink c = true -> isGet c = false) as Hn1
    by (by intros []).
  assert (forall c, isNetlink c = true -> isGet c || isFetchCall c = false)
    as Hn2 by (by intros []).
  rewrite (filter_fetch isGet w _ _ _ _ A D F ok HA HD Hn1) by done.
  rewrite (filter_fetch (fun c => isGet c || isFetchCall c) w _ _ _ _ A D F ok
             HA HD Hn2) by done.
  rewrite (callFailed_fetch isGet w _ _ _ _ A D F ok HA HD Hn1) by done.
  assert (In CallReadAll
            (callsOf (listEvents h w ++ A ++ F ++ D
                        ++ (if ok then [] else [Ev (CallExit 1) false])))
          <-> In CallReadAll (callsOf F)) as ->.
  { unfold callsOf. rewrite !in_map_iff. split.
    - intros (ev & Hc & Hin). exists ev. split; [done|].
      apply (in_fetch isFetchCall w _ _ _ _ A D F ok ev HA HD) in Hin;
        try done; [by intros []|by rewrite Hc].
    - intros (ev & Hc & Hin). exists ev. split; [done|].
      rewrite !in_app_iff. tauto. }
  destruct HF as [|Hs|Hs|Hs Hd|m Hs Hd Hv|m w' Hs Hd Hv Hw sync].
  - split; [done|]. split; [|done]. split.
    + intros Hin. in_cases Hin.
    + by intros [H _].
  - split; [done|]. split.
    + split; [intros Hin; in_cases Hin|by intros [_ H]].
    + apply Z.eqb_neq in Hs. cbn. by rewrite Hs.
  - split; [done|]. split.
    + split; [done|]. intros _. right. by left.
    + cbn. by rewrite Hs.
  - split; [done|]. split.
    + split; [done|]. intros _. right. by left.
    + cbn. by rewrite Hs.
  - split; [done|]. split.
    + split; [done|]. intros _. right. by left.
    + cbn. by rewrite Hs.
  - assert (callFailed isGet
              ([Ev (CallGet metadataURL) false; Ev CallReadAll false]
                 ++ emitted sync w' ++ [Ev CallClose false]) = false) as Hnf.
    { rewrite !callFailed_app. cbn [callFailed existsb ev_call ev_err isGet andb orb].
      rewrite orb_false_r. apply callFailed_none. intros ev.
      apply (sync_calls h isGet); [by intros []|done]. }
    rewrite Hnf, !callsOf_app, !List.filter_app. unfold sync.
    rewrite !(sync_filter_none _ _ w') by (try done; by intros []).
    split; [done|]. split.
    + split; [done|]. intros _. right. by left.
    + cbn. by rewrite Hs.
Qed.

(** X7: the response body is closed exactly when the request succeeded, once,
    after everything that is read from it and everything that is written
    from it, and before the interface is taken down and before the process
    exits: what comes after the closing is the deactivation and the exit and
    nothing else; after a failed request nothing is read, written or
    closed. *)
Theorem response_body_closed (w : World) :
  let evs := emitted (main h) w in
  (In (Ev (CallGet metadataURL) false) evs ->
   exists pre mid post,
     evs = pre ++ Ev (CallGet metadataURL) false :: mid
             ++ Ev CallClose false :: post
     /\ (forall ev, In ev (pre ++ post) -> isFetchWork (ev_call ev) = false)
     /\ (forall ev, In ev mid -> isNetlink (ev_call ev) = false
                                 /\ isClose (ev_call ev) = false)
     /\ (forall ev, In ev (pre ++ mid) -> isExit (ev_call ev) = false)
     /\ (forall ev, In ev post ->
           isTeardown (ev_call ev) = true \/ ev = Ev (CallExit 1) false))
  /\ (In (Ev (CallGet metadataURL) true) evs ->
      forall ev, In ev evs -> ev_call ev <> CallGet metadataURL ->
                 isFetchWork (ev_call ev) = false).
Proof.
  intros evs. subst evs.
  destruct (main_runs h w)
    as [haveLink firstEn name firstEn' A ok F fs' D Hp HA HF HD].
  set (X := if ok then [] else [Ev (CallExit 1) false]).
  assert (forall c, isNetlink c = true -> isFetchWork c = false) as Hn
    by (by intros []).
  assert (forall ev, In ev ((listEvents h w ++ A) ++ D ++ X) ->
                     isFetchWork (ev_call ev) = false) as Hout.
  { intros ev Hin. rewrite !in_app_iff in Hin.
    apply (outside_fetch isFetchWork w _ _ _ _ A D ok ev HA HD Hn);
      [done|done|tauto]. }
  assert (forall ev, In ev (listEvents h w ++ A) ->
                     isExit (ev_call ev) = false) as Hpre.
  { intros ev [Hin|Hin]%in_app_iff.
    - by apply (listEvents_calls h isExit w ev).
    - apply (activate_calls isExit _ _ _ _ _ _ HA); [by intros []|done|done]. }
  assert (forall ev, In ev (D ++ X) ->
                     isTeardown (ev_call ev) = true
                     \/ ev = Ev (CallExit 1) false) as Hpost.
  { intros ev [Hin|Hin]%in_app_iff.
    - left. destruct HD; in_cases Hin; by subst.
    - right. subst X. destruct ok; in_cases Hin; by subst. }
  assert (forall e, In (Ev (CallGet metadataURL) e)
                      (listEvents h w ++ A ++ F ++ D ++ X)
                    -> In (Ev (CallGet metadataURL) e) F) as Hget.
  { intros e. apply (in_fetch isGet w _ _ _ _ A D F ok _ HA HD);
      try done. by intros []. }
  assert (forall mid,
            (forall ev, In ev mid -> isNetlink (ev_call ev) = false
                                     /\ isClose (ev_call ev) = false) ->
            (forall ev, In ev mid -> isExit (ev_call ev) = false) ->
            F = Ev (CallGet metadataURL) false :: mid ++ [Ev CallClose false] ->
            exists pre mid post,
              listEvents h w ++ A ++ F ++ D ++ X
              = pre ++ Ev (CallGet metadataURL) false :: mid
                  ++ Ev CallClose false :: post
              /\ (forall ev, In ev (pre ++ post) ->
                             isFetchWork (ev_call ev) = false)
              /\ (forall ev, In ev mid -> isNetlink (ev_call ev) = false
                                          /\ isClose (ev_call ev) = false)
              /\ (forall ev, In ev (pre ++ mid) -> isExit (ev_call ev) = false)
              /\ (forall ev, In ev post ->
                    isTeardown (ev_call ev) = true
                    \/ ev = Ev (CallExit 1) false))
    as Hshape.
  { intros mid Hmid Hx ->. exists (listEvents h w ++ A), mid, (D ++ X).
    split; [|split; [done|split; [done|split; [|done]]]].
    - rewrite <- !app_assoc. cbn [app]. by rewrite <- !app_assoc.
    - intros ev [Hin|Hin]%in_app_iff; [by apply Hpre|by apply Hx]. }
  destruct HF as [|Hs|Hs|Hs Hd|m Hs Hd Hv|m w' Hs Hd Hv Hw sync].
  - split.
    + intros Hin%Hget. in_cases Hin.
    + intros _ ev Hin Hne. rewrite !in_app_iff in Hin.
      destruct Hin as [Hin|[Hin|[Hin|Hin]]];
        [apply Hout; rewrite !in_app_iff; tauto
        |apply Hout; rewrite !in_app_iff; tauto
        |
        |apply Hout; rewrite !in_app_iff; tauto].
      in_cases Hin; subst; [done|done].
  - split; [|intros Hin%Hget; in_cases Hin].
    intros _. eapply (Hshape [_]); [| |reflexivity];
      intros ev Hin; in_cases Hin; by subst.
  - split; [|intros Hin%Hget; in_cases Hin].
    intros _. eapply (Hshape [_; _]); [| |reflexivity];
      intros ev Hin; in_cases Hin; by subst.
  - split; [|intros Hin%Hget; in_cases Hin].
    intros _. eapply (Hshape [_; _]); [| |reflexivity];
      intros ev Hin; in_cases Hin; by subst.
  - split; [|intros Hin%Hget; in_cases Hin].
    intros _. eapply (Hshape [_; _]); [| |reflexivity];
      intros ev Hin; in_cases Hin; by subst.
  - split.
    2:{ intros Hin%Hget. rewrite !in_app_iff in Hin.
        destruct Hin as [Hin|[Hin|Hin]]; [in_cases Hin| |in_cases Hin].
        by apply (sync_calls h isGet _ _ _ (fun c => ltac:(by destruct c))
                    (fun _ => eq_refl)) in Hin. }
    intros _. apply (Hshape (Ev CallReadAll false :: emitted sync w')).
    + intros ev [<-|Hin]; [done|]. split.
      * apply (sync_calls h isNetlink _ _ _ (fun c => ltac:(by destruct c))
                 (fun _ => eq_refl) Hin).
      * apply (sync_calls h isClose _ _ _ (fun c => ltac:(by destruct c))
                 (fun _ => eq_refl) Hin).
    + intros ev [<-|Hin]; [done|].
      apply (sync_calls h isExit _ _ _ (fun c => ltac:(by destruct c))
               (fun _ => eq_refl) Hin).
    + reflexivity.
Qed.

(** X8: a fetch that fails before the document is decoded (the request or the
    read fails, the status is not 200, or the body does not parse) makes the
    run exit with status 1 without a single call to the file system and
    with the store as it was. *)
Theorem fetch_failure_leaves_store (w : World) :
  let r := main h w in
  let evs := emitted (main h) w in
  callFailed isFetchCall evs = true
  \/ Response.StatusCode (host_response h) <> 200
  \/ host_decode h (Response.Body (host_response h)) = None ->
  r.1 = 1
  /\ (forall ev, In ev evs -> isFsCall (ev_call ev) = false)
  /\ w_fs r.2 = w_fs w
  /\ In (Ev (CallExit 1) false) evs.
Proof.
  intros r evs. subst r evs.
  destruct (main_runs h w)
    as [haveLink firstEn name firstEn' A ok F fs' D Hp HA HF HD].
  rewrite (callFailed_fetch isFetchCall w _ _ _ _ A D F ok HA HD)
    by (try done; by intros []).
  intros Hfail.
  assert (ok = false /\ fs' = w_fs w
          /\ forall ev, In ev F -> isFsCall (ev_call ev) = false)
    as (-> & -> & HFs).
  { destruct HF as [|Hs|Hs|Hs Hd|m Hs Hd Hv|m w' Hs Hd Hv Hw sync].
    1-5: split; [done|]; split; [done|]; intros ev Hin; in_cases Hin; by subst.
    exfalso. destruct Hfail as [Hf|[Hf|Hf]]; [|done|congruence].
    rewrite !callFailed_app in Hf.
    rewrite (callFailed_none isFetchCall (emitted sync w')) in Hf.
    - discriminate Hf.
    - intros ev. apply (sync_calls h isFetchCall); [by intros []|done]. }
  split; [done|]. split; [|split; [done|]].
  - intros ev Hin. rewrite !in_app_iff in Hin.
    destruct Hin as [Hin|[Hin|[Hin|[Hin|Hin]]]]; [| |by apply HFs| |].
    all: apply (outside_fetch isFsCall w _ _ _ _ A D false ev HA HD);
      try done; [by intros []|tauto].
  - rewrite !in_app_iff. do 4 right. by left.
Qed.

End FetchPhase.

(** * The scan, when no ethernet-like interface is up *)

Lemma scanned_all (links : list Link) :
  existsb (fun l => ethernetLike l && linkUp l) links = false ->
  scanned links = links.
Proof.
  induction links as [|l links IH]; [done|].
  cbn [existsb scanned]. intros [H1 H2]%orb_false_iff.
  by rewrite H1, IH.
Qed.

Lemma head_filter_split {A} (f : A -> bool) (l : list A) (x : A) :
  head (List.filter f l) = Some x ->
  exists l1 l2, l = l1 ++ x :: l2
    /\ Forall (fun y => f y = false) l1 /\ f x = true.
Proof.
  induction l as [|y l IH]; [done|]. cbn [List.filter].
  destruct (f y) eqn:Hy.
  - intros [= ->]. by exists [], l.
  - intros (l1 & l2 & -> & H1 & H2)%IH. exists (y :: l1), l2.
    split; [done|]. split; [by constructor|done].
Qed.

Lemma probe_candidate (links : list Link) (link : Link) (name : string) :
  probeLinks links = (false, Some link, name) ->
  name = LinkAttrs.Name link
  /\ Forall (fun x => ethernetLike x = true -> linkUp x = false) links
  /\ exists l1 l2, links = l1 ++ link :: l2
       /\ Forall (fun x => ethernetLike x = false) l1
       /\ ethernetLike link = true.
Proof.
  unfold probeLinks. rewrite scanLinks_eq. intros [= Hup Hhead Hname].
  rewrite (scanned_all links Hup) in *. rewrite Hhead in Hname.
  split; [done|]. split; [|by apply head_filter_split].
  apply Forall_forall. intros x Hx%list_elem_of_In He.
  apply not_true_iff_false. intros Hu.
  apply not_true_iff_false in Hup. apply Hup, existsb_exists.
  exists x. by rewrite He, Hu.
Qed.

Lemma probe_nothing (links : list Link) :
  (probeLinks links).1 = (false, None)
  <-> Forall (fun x => ethernetLike x = false) links.
Proof.
  unfold probeLinks. rewrite scanLinks_eq. cbn [fst]. split.
  - intros [= Hup Hhead]. rewrite (scanned_all links Hup) in Hhead.
    apply Forall_forall. intros x Hx%list_elem_of_In.
    apply not_true_iff_false. intros He.
    assert (In x (List.filter ethernetLike links)) as Hin
      by by apply filter_In.
    by destruct (List.filter ethernetLike links).
  - intros Hall.
    assert (existsb (fun l => ethernetLike l && linkUp l) links = false)
      as Hup.
    { apply existsb_false_in. intros x Hx%list_elem_of_In.
      rewrite Forall_forall in Hall. by rewrite (Hall x Hx). }
    rewrite Hup, (scanned_all links Hup). f_equal.
    rewrite filter_none; [done|].
    intros x Hx%list_elem_of_In. rewrite Forall_forall in Hall. by apply Hall.
Qed.

Lemma omap_none {A B} (f : A -> option B) (l : list A) :
  (forall x, In x l -> f x = None) -> omap f l = [].
Proof.
  induction l as [|x l IH]; intros H; [done|].
  cbn [omap list_omap]. rewrite (H x) by by left.
  apply IH. intros y Hy. apply H. by right.
Qed.

Section Interfaces.

Context (h : Host).

Lemma listed_candidate w link name :
  probeLinks (listedLinks h w) = (false, Some link, name) ->
  listedLinks h w = host_links h
  /\ listEvents h w = [Ev CallLinkList false].
Proof.
  unfold listedLinks, listEvents.
  destruct (host_err h (length (w_trace w)) CallLinkList); [|done].
  discriminate.
Qed.

(** X9: the program changes an interface only when the enumeration succeeded
    and no interface named "en..." or "eth..." is up, and then only the
    first interface with such a name in enumeration order; the only address
    it adds or removes is 169.254.0.1/16. *)
Theorem only_first_candidate_changed (w : World) (ev : Event) :
  In ev (emitted (main h) w) ->
  isLinkChange (ev_call ev) = true ->
  exists link l1 l2,
    linkOf (ev_call ev) = Some link
    /\ host_links h = l1 ++ link :: l2
    /\ Forall (fun x => ethernetLike x = false) l1
    /\ ethernetLike link = true
    /\ Forall (fun x => ethernetLike x = true -> linkUp x = false)
              (host_links h)
    /\ In (Ev CallLinkList false) (emitted (main h) w)
    /\ (forall addr, addrOf (ev_call ev) = Some addr -> addr = llAddr).
Proof.
  destruct (main_runs h w)
    as [haveLink firstEn name firstEn' A ok F fs' D Hp HA HF HD].
  intros Hin Hc.
  pose proof (exit_only ok) as HX.
  pose proof (proj1 (link_change_in h w _ _ _ _ A D _ ev HF HX Hc) Hin) as Hev.
  assert (forall link, haveLink = false -> firstEn = Some link ->
            (linkOf (ev_call ev) = Some link
             /\ forall addr, addrOf (ev_call ev) = Some addr -> addr = llAddr) ->
            exists link l1 l2,
              linkOf (ev_call ev) = Some link
              /\ host_links h = l1 ++ link :: l2
              /\ Forall (fun x => ethernetLike x = false) l1
              /\ ethernetLike link = true
              /\ Forall (fun x => ethernetLike x = true -> linkUp x = false)
                        (host_links h)
              /\ In (Ev CallLinkList false)
                    (listEvents h w ++ A ++ F ++ D
                       ++ (if ok then [] else [Ev (CallExit 1) false]))
              /\ (forall addr, addrOf (ev_call ev) = Some addr -> addr = llAddr))
    as Hgoal.
  { intros link -> -> [Hlink Haddr].
    destruct (listed_candidate w link name Hp) as [Hl He].
    rewrite Hl in Hp.
    destruct (probe_candidate _ _ _ Hp) as (_ & Hup & l1 & l2 & Hs & H1 & H2).
    exists link, l1, l2. repeat split; try done.
    rewrite He. by left. }
  destruct (link_runs _ _ _ _ _ _ HA HD)
    as [Hl|Hl Hf|link0 Hl Hf|link0 e0 Hl Hf|link0 e1 e2 Hl Hf].
  - in_cases Hev.
  - in_cases Hev. by subst.
  - apply (Hgoal link0 Hl Hf).
    in_cases Hev; subst;
      first [done | split; [done|]; intros addr; cbn; congruence].
  - apply (Hgoal link0 Hl Hf).
    in_cases Hev; subst;
      first [done | split; [done|]; intros addr; cbn; congruence].
  - apply (Hgoal link0 Hl Hf).
    in_cases Hev; subst;
      first [done | split; [done|]; intros addr; cbn; congruence].
Qed.

(** X10: "no ethernet interfaces" is logged exactly when the enumeration gives
    no interface named "en..." or "eth..." (none exists, or the enumeration
    failed), and then the run changes no interface. *)
Theorem no_ethernet_logged_iff (w : World) :
  let evs := emitted (main h) w in
  (In (Ev (CallPrintf LogNoEthernetInterfaces) false) evs
   <-> Forall (fun x => ethernetLike x = false) (listedLinks h w))
  /\ (In (Ev (CallPrintf LogNoEthernetInterfaces) false) evs ->
      forall ev, In ev evs -> isLinkChange (ev_call ev) = false).
Proof.
  intros evs. subst evs.
  destruct (main_runs h w)
    as [haveLink firstEn name firstEn' A ok F fs' D Hp HA HF HD].
  set (X := if ok then [] else [Ev (CallExit 1) false]).
  assert (In (Ev (CallPrintf LogNoEthernetInterfaces) false)
            (listEvents h w ++ A ++ F ++ D ++ X)
          <-> In (Ev (CallPrintf LogNoEthernetInterfaces) false) A) as Hlog.
  { rewrite !in_app_iff. split; [|tauto].
    intros [Hin|[Hin|[Hin|[Hin|Hin]]]]; [exfalso|done|exfalso|exfalso|exfalso].
    - unfold listEvents in Hin. destruct (host_err h _ _); in_cases Hin.
    - destruct HF as [|Hs|Hs|Hs Hd|m Hs Hd Hv|m w' Hs Hd Hv Hw sync].
      1-5: in_cases Hin.
      rewrite !in_app_iff in Hin.
      destruct Hin as [Hin|[Hin|Hin]]; [in_cases Hin| |in_cases Hin].
      apply (writeConfigs_events h) in Hin as Hfl.
      pose proof (writeConfigs_tidy h (NetworkConfig.Config (Metadata.NetworkConfig m)) w') as Ht.
      unfold Tidy in Ht. fold sync in Ht. rewrite Ht in Hin.
      apply in_flat_map in Hin as (ev & Hev & Hin).
      apply filter_In in Hev as [_ Hfs]. unfold withLog in Hin.
      destruct Hin as [Heq|Hin]; [by rewrite Heq in Hfs|].
      destruct (ev_err ev); [|done].
      destruct (ev_call ev); try discriminate; in_cases Hin.
    - destruct HD; in_cases Hin.
    - unfold X in Hin. destruct ok; in_cases Hin. }
  rewrite Hlog.
  assert (In (Ev (CallPrintf LogNoEthernetInterfaces) false) A
          <-> haveLink = false /\ firstEn = None) as Hact.
  { destruct HA as [Hl|Hl Hf|link Hl Hf|link e Hl Hf|link Hl Hf].
    - split; [intros Hin; in_cases Hin|intros [? ?]; congruence].
    - split; [done|intros _; by left].
    - split; [intros Hin; in_cases Hin|intros [? ?]; congruence].
    - split; [intros Hin; in_cases Hin|intros [? ?]; congruence].
    - split; [intros Hin; in_cases Hin|intros [? ?]; congruence]. }
  rewrite Hact. split.
  - rewrite <- probe_nothing, Hp. cbn [fst]. split.
    + by intros [-> ->].
    + by intros [= -> ->].
  - intros [Hl Hf] ev Hin. apply not_true_iff_false. intros Hc.
    pose proof (exit_only ok) as HX.
    apply (link_change_in h w _ _ _ _ A D _ ev HF HX Hc) in Hin.
    destruct (link_runs _ _ _ _ _ _ HA HD); try congruence.
    in_cases Hin. by subst.
Qed.

End Interfaces.

Lemma Logged_app (l1 l2 : list Event) :
  Logged l1 -> Logged l2 -> Logged (l1 ++ l2).
Proof.
  induction l1 as [|ev l1 IH]; [done|]. cbn [Logged app].
  intros [H1 H2] Hl2. split; [|by apply IH].
  intros He Ht. destruct (H1 He Ht) as (msg & Hm & Hh). exists msg.
  split; [done|]. by destruct l1.
Qed.

Lemma Logged_split (evs pre post : list Event) (ev : Event) :
  Logged evs -> evs = pre ++ ev :: post ->
  ev_err ev = true -> isTeardown (ev_call ev) = false ->
  exists msg rest, failureLog (ev_call ev) = Some msg
    /\ post = Ev (CallPrintf msg) false :: rest.
Proof.
  intros Hl ->. induction pre as [|x pre IH].
  - destruct Hl as [H _]. intros He Ht.
    destruct (H He Ht) as (msg & Hm & Hh). exists msg.
    destruct post as [|y post]; [done|]. injection Hh as ->. by exists post.
  - destruct Hl as [_ Hl]. by apply IH.
Qed.

Lemma Logged_withLog (l : list Event) :
  Forall (fun ev => isFsCall (ev_call ev) = true) l ->
  Logged (flat_map withLog l).
Proof.
  induction 1 as [|ev l Hev _ IH]; [done|].
  cbn [flat_map]. apply Logged_app; [|done].
  unfold withLog. destruct (ev_err ev) eqn:He.
  - destruct (failureLog (ev_call ev)) as [msg|] eqn:Hm.
    + cbn. split; [by eauto|]. split; [done|done].
    + by destruct (ev_call ev).
  - cbn. split; [|done]. intros H. congruence.
Qed.

Section Failures.

Context (h : Host).

Lemma sync_logged entries w : Logged (emitted (writeConfigs h entries) w).
Proof.
  pose proof (writeConfigs_tidy h entries w) as Ht. unfold Tidy in Ht.
  rewrite Ht. apply Logged_withLog. apply Forall_forall.
  intros ev Hin%list_elem_of_In. by apply filter_In in Hin as [_ Hc].
Qed.

Lemma fetch_logged fs ok F fs' : FetchRun h fs ok F fs' -> Logged F.
Proof.
  intros HF. destruct HF as [|Hs|Hs|Hs Hd|m Hs Hd Hv|m w' Hs Hd Hv Hw sync].
  1-5: cbn; repeat split; try done; by eauto.
  apply (Logged_app [_; _]); [cbn; by repeat split|].
  apply Logged_app; [apply sync_logged|]. cbn. by repeat split.
Qed.

(** X11: every call that fails, other than [AddrDel] and [LinkSetDown], is
    followed at once by its log line: the enumeration, [LinkSetUp] and
    [AddrAdd] with the interface's name, the request, the read, and every
    file-system call with its path. *)
Theorem failures_logged (w : World) (pre post : list Event) (ev : Event) :
  emitted (main h) w = pre ++ ev :: post ->
  ev_err ev = true ->
  isTeardown (ev_call ev) = false ->
  exists msg rest, failureLog (ev_call ev) = Some msg
    /\ post = Ev (CallPrintf msg) false :: rest.
Proof.
  intros Hev. refine (Logged_split _ _ _ _ _ Hev). clear Hev.
  destruct (main_runs h w)
    as [haveLink firstEn name firstEn' A ok F fs' D Hp HA HF HD].
  apply Logged_app.
  { unfold listEvents. destruct (host_err h _ _); cbn; repeat split; try done.
    by eauto. }
  apply Logged_app.
  { destruct HA as [Hl|Hl Hf|link Hl Hf|link e Hl Hf|link Hl Hf];
      cbn; repeat split; try done; subst.
    - destruct (listed_candidate h w link name Hp) as [Hlk _].
      rewrite Hlk in Hp. destruct (probe_candidate _ _ _ Hp) as [-> _].
      by eauto.
    - destruct (listed_candidate h w link name Hp) as [Hlk _].
      rewrite Hlk in Hp. destruct (probe_candidate _ _ _ Hp) as [-> _].
      by eauto. }
  apply Logged_app; [by apply (fetch_logged _ _ _ _ HF)|].
  apply Logged_app.
  { destruct HD; cbn; repeat split; done. }
  destruct ok; cbn; repeat split; done.
Qed.

(** X12: the interface the run brings up is set down again by the same run,
    once, later, whatever fails in between; and no other interface is set
    down. *)
Theorem interface_set_down_again (w : World) (link : Link) :
  let evs := emitted (main h) w in
  ((exists e, In (Ev (CallLinkSetDown link) e) evs)
   <-> In (Ev (CallLinkSetUp link) false) evs)
  /\ (In (Ev (CallLinkSetUp link) false) evs ->
      exists pre mid e post,
        evs = pre ++ Ev (CallLinkSetUp link) false :: mid
                ++ Ev (CallLinkSetDown link) e :: post
        /\ forall ev, In ev (pre ++ mid ++ post) ->
                      isLinkSetUp (ev_call ev) = false
                      /\ isLinkSetDown (ev_call ev) = false).
Proof.
  intros evs. subst evs.
  destruct (main_runs h w)
    as [haveLink firstEn name firstEn' A ok F fs' D Hp HA HF HD].
  set (X := if ok then [] else [Ev (CallExit 1) false]).
  pose proof (exit_only ok : forall x, In x X -> _) as HX.
  pose proof (fun ev => link_change_in h w _ _ _ _ A D X ev HF HX) as Hin.
  assert (forall ev, In ev (listEvents h w) ->
                     isLinkSetUp (ev_call ev) = false
                     /\ isLinkSetDown (ev_call ev) = false) as HL.
  { intros ev Hev. split; by apply (listEvents_calls h _ w ev). }
  assert (forall ev, In ev F ->
                     isLinkSetUp (ev_call ev) = false
                     /\ isLinkSetDown (ev_call ev) = false) as HFn.
  { intros ev Hev. apply (fetch_no_netlink h _ _ _ _ _ HF) in Hev.
    by destruct (ev_call ev). }
  assert (forall ev, In ev X ->
                     isLinkSetUp (ev_call ev) = false
                     /\ isLinkSetDown (ev_call ev) = false) as HXn.
  { intros ev Hev. by rewrite (HX ev Hev). }
  destruct (link_runs _ _ _ _ _ _ HA HD)
    as [Hl|Hl Hf|link0 Hl Hf|link0 e0 Hl Hf|link0 e1 e2 Hl Hf].
  - split; [split|].
    + intros [e Hev]. apply Hin in Hev; [|done]. in_cases Hev.
    + intros Hev. apply Hin in Hev; [|done]. in_cases Hev.
    + intros Hev. apply Hin in Hev; [|done]. in_cases Hev.
  - split; [split|].
    + intros [e Hev]. apply Hin in Hev; [|done]. in_cases Hev.
    + intros Hev. apply Hin in Hev; [|done]. in_cases Hev.
    + intros Hev. apply Hin in Hev; [|done]. in_cases Hev.
  - split; [split|].
    + intros [e Hev]. apply Hin in Hev; [|done]. in_cases Hev.
    + intros Hev. apply Hin in Hev; [|done]. in_cases Hev.
    + intros Hev. apply Hin in Hev; [|done]. in_cases Hev.
  - split; [split|].
    + intros [e Hev]. apply Hin in Hev; [|done]. in_cases Hev.
      apply Hin; [done|]. by left.
    + intros Hev. apply Hin in Hev; [|done]. in_cases Hev.
      exists e0. apply Hin; [done|]. do 3 right. by left.
    + intros Hev. apply Hin in Hev; [|done]. in_cases Hev.
      exists (listEvents h w),
        [Ev (CallAddrAdd link llAddr) true;
         Ev (CallPrintf (LogAddingAddress name)) false],
        e0, (F ++ X).
      split; [reflexivity|].
      intros ev. rewrite !in_app_iff.
      intros [Hev|[Hev|[Hev|Hev]]];
        [by apply HL| |by apply HFn|by apply HXn].
      in_cases Hev; by subst.
  - split; [split|].
    + intros [e Hev]. apply Hin in Hev; [|done]. in_cases Hev.
      apply Hin; [done|]. by left.
    + intros Hev. apply Hin in Hev; [|done]. in_cases Hev.
      exists e2. apply Hin; [done|]. do 3 right. by left.
    + intros Hev. apply Hin in Hev; [|done]. in_cases Hev.
      exists (listEvents h w),
        (Ev (CallAddrAdd link llAddr) false :: F
           ++ [Ev (CallAddrDel link llAddr) e1]),
        e2, X.
      split.
      { cbn [app]. by rewrite <- app_assoc. }
      intros ev. rewrite !in_app_iff. cbn [In]. rewrite !in_app_iff.
      intros [Hev|[[Hev|[Hev|Hev]]|Hev]];
        [by apply HL|by subst|by apply HFn| |by apply HXn].
      in_cases Hev; by subst.
Qed.

(** X13: a run that exits with status 0 leaves every path as the document says:
    the rendering of the last physical entry written to it; otherwise
    nothing where a unit of the program's naming was listed; otherwise what
    was there. *)
Theorem success_store (w : World) :
  let r := main h w in
  r.1 = 0 ->
  exists m,
    host_decode h (Response.Body (host_response h)) = Some m
    /\ forall path,
         w_fs r.2 !! path
         = match lastEntryAt path
                   (NetworkConfig.Config (Metadata.NetworkConfig m)) with
           | Some e => Some (renderConfig e)
           | None => if isGeneratedPath path then None else w_fs w !! path
           end.
Proof.
  intros r. subst r.
  destruct (main_runs h w)
    as [haveLink firstEn name firstEn' A ok F fs' D Hp HA HF HD].
  intros Hok. assert (ok = true) as Hoks by by destruct ok.
  clear Hok. revert HF. generalize (w_fs w). intros fs HF.
  destruct HF as [|Hs|Hs|Hs Hd|m Hs Hd Hv|m w' Hs Hd Hv Hw sync];
    try discriminate.
  exists m. split; [done|]. intros path. subst sync.
  rewrite (writeConfigs_fs_all_ok h _ w' Hoks).
  by rewrite writeAll_lookup, clean_lookup, Hw.
Qed.

End Failures.

(** X14: an entry without subnets renders to the fixed header with its MAC
    address and nothing else, whatever its name and type; and every
    rendering starts with that header. *)
Theorem render_header (entry : NetworkConfigEntry.t) :
  let header :=
    "[Match]" +:+ nl +:+ "MACAddress="
      +:+ NetworkConfigEntry.MACAddress entry +:+ nl +:+ nl
      +:+ "[Network]" +:+ nl +:+ "LinkLocalAddressing=yes" +:+ nl in
  HasPrefix (renderConfig entry) header = true
  /\ (NetworkConfigEntry.Subnets entry = [] -> renderConfig entry = header).
Proof.
  intros header.
  assert (configHeader entry = header) as Hh.
  { unfold configHeader, header. cbv zeta. by rewrite !app_assoc_s. }
  assert (renderConfig entry
          = header +:+ joinAll
              (flat_map subnetDirectives (NetworkConfigEntry.Subnets entry)
                 ++ dhcpDirectives (wantDHCP entry))) as Hr.
  { rewrite renderConfig_eq. unfold configDirectives.
    rewrite joinAll_app. f_equal. rewrite <- Hh. by rewrite configHeader_eq. }
  split.
  - rewrite Hr. apply HasPrefix_app.
  - intros Hnil. rewrite Hr. unfold wantDHCP, scanSubnets. rewrite Hnil.
    cbn. apply app_nil_r_s.
Qed.

(** The stale unit of [usedWorld] is removed under its full path. *)
Lemma sync_call_targets_witness :
  wellTargeted (CallRemove "/run/systemd/network/80-hetzner-old.network").
Proof.
  apply (sync_call_targets quietHost [sampleEntry "eth0"] usedWorld
           (Ev (CallRemove "/run/systemd/network/80-hetzner-old.network")
               false)).
  vm_compute. tauto.
Defined.

(** The administrator's unit survives a sync. *)
Lemma sync_frame_witness :
  w_fs (writeConfigs quietHost [sampleEntry "eth0"] usedWorld).2
    !! "/run/systemd/network/10-admin.network"
  = w_fs usedWorld !! "/run/systemd/network/10-admin.network".
Proof.
  apply (sync_frame quietHost [sampleEntry "eth0"] usedWorld).
  - by vm_compute.
  - intros e [<-|[]] _ H. vm_compute in H. discriminate H.
Defined.

(** The unit of an interface that is gone is removed by the next sync. *)
Lemma written_unit_cleaned_later_witness :
  In (CallRemove (childPath (unitName "old")))
     (callsOf (emitted (writeConfigs quietHost [sampleEntry "eth0"]) usedWorld)).
Proof.
  assert (hasSlash "old" = false) as H1 by reflexivity.
  assert (is_Some (w_fs usedWorld !! childPath (unitName "old"))) as H2
    by (exists "stale"; by vm_compute).
  assert (In (Ev (CallReadDir ConfigDir) false)
            (emitted (writeConfigs quietHost [sampleEntry "eth0"]) usedWorld))
    as H3 by (vm_compute; tauto).
  exact (proj1 (written_unit_cleaned_later quietHost [sampleEntry "eth0"]
                  usedWorld "old" H1 H2 H3)).
Defined.

(** An empty document only cleans. *)
Lemma sync_without_physical_entries_witness :
  List.filter isWrite (callsOf (emitted (writeConfigs quietHost []) usedWorld))
  = [].
Proof.
  exact (proj1 (sync_without_physical_entries quietHost [] usedWorld eq_refl)).
Defined.

(** Offline, the run fails and the stale unit stays. *)
Lemma fetch_failure_leaves_store_witness :
  (main offlineHost usedWorld).1 = 1
  /\ w_fs (main offlineHost usedWorld).2 = w_fs usedWorld.
Proof.
  assert (callFailed isFetchCall (emitted (main offlineHost) usedWorld) = true
          \/ Response.StatusCode (host_response offlineHost) <> 200
          \/ host_decode offlineHost (Response.Body (host_response offlineHost))
             = None) as H by (left; by vm_compute).
  destruct (fetch_failure_leaves_store offlineHost usedWorld H)
    as (H1 & _ & H3 & _).
  by split.
Defined.

(** On [quietHost] the interface that is brought up is [eth0], after [lo]. *)
Lemma only_first_candidate_changed_witness :
  exists link l1 l2,
    linkOf (CallLinkSetUp eth0) = Some link
    /\ host_links quietHost = l1 ++ link :: l2
    /\ Forall (fun x => ethernetLike x = false) l1
    /\ ethernetLike link = true
    /\ Forall (fun x => ethernetLike x = true -> linkUp x = false)
              (host_links quietHost)
    /\ In (Ev CallLinkList false) (emitted (main quietHost) emptyWorld)
    /\ (forall addr, addrOf (CallLinkSetUp eth0) = Some addr -> addr = llAddr).
Proof.
  apply (only_first_candidate_changed quietHost emptyWorld
           (Ev (CallLinkSetUp eth0) false)).
  - vm_compute. tauto.
  - reflexivity.
Defined.

(** On [brokenDirHost] the failed [MkdirAll] is the sixth event and its
    log line the seventh. *)
Lemma failures_logged_witness :
  exists msg rest,
    failureLog (CallMkdirAll ConfigDir 493) = Some msg
    /\ drop 6 (emitted (main brokenDirHost) emptyWorld)
       = Ev (CallPrintf msg) false :: rest.
Proof.
  apply (failures_logged brokenDirHost emptyWorld
           (take 5 (emitted (main brokenDirHost) emptyWorld))
           (drop 6 (emitted (main brokenDirHost) emptyWorld))
           (Ev (CallMkdirAll ConfigDir 493) true)).
  - by vm_compute.
  - reflexivity.
  - reflexivity.
Defined.

(** On [quietHost] the run succeeds, and the store is as the document
    says. *)
Lemma success_store_witness :
  exists m,
    host_decode quietHost (Response.Body (host_response quietHost)) = Some m
    /\ forall path,
         w_fs (main quietHost usedWorld).2 !! path
         = match lastEntryAt path
                   (NetworkConfig.Config (Metadata.NetworkConfig m)) with
           | Some e => Some (renderConfig e)
           | None =>
               if isGeneratedPath path then None else w_fs usedWorld !! path
           end.
Proof.
  apply (success_store quietHost usedWorld). by vm_compute.
Defined.
